(** * The quest4 crawler: URL frontier, result aggregator, retry loop, report

    A shallow embedding of [quest4-linux-crawling/index.js] (with the constants
    of [config.js]).  The three classes of the source, [CrawlResult],
    [URLQueue] and [WebCrawler], become three modules with the same method
    names.  The collaborators the program only talks to (the WHATWG [URL]
    class, the clock, the headless browser) are gathered in a record [Env]
    and every definition is parametric in it.  The two limits of a run,
    [maxDepth] and [maxPages], are what [Number.parseInt] made of the command
    line, NaN included. *)

From Stdlib Require Import ZArith String Ascii List DecimalString Bool Sorted Lia.
From stdpp Require Import base gmap strings list.

Local Open Scope string_scope.
Local Open Scope list_scope.
Local Open Scope Z_scope.

(** ** JavaScript strings *)

(** [s.endsWith(suffix)]. *)
Definition endsWith (s suffix : string) : bool :=
  let n := String.length s in
  let k := String.length suffix in
  (k <=? n)%nat && String.eqb (substring (n - k) k s) suffix.

(** [s.slice(0, -1)]: the string without its last character. *)
Definition slice_0_m1 (s : string) : string :=
  substring 0 (String.length s - 1) s.

(** [String(n)] for an integral number. *)
Definition String_of_number (n : Z) : string :=
  NilZero.string_of_int (Z.to_int n).

(** [!s] on a string: only the empty string is falsy. *)
Definition falsy (s : string) : bool :=
  match s with EmptyString => true | String _ _ => false end.

(** [a.join(sep)]. *)
Fixpoint join (sep : string) (a : list string) : string :=
  match a with
  | [] => EmptyString
  | [x] => x
  | x :: rest => x +:+ sep +:+ join sep rest
  end.

Definition DQUOTE : ascii := "034"%char.
Definition quote_mark : string := String DQUOTE EmptyString.

(** [s.replaceAll] of every double quote by two double quotes. *)
Fixpoint double_quotes (s : string) : string :=
  match s with
  | EmptyString => EmptyString
  | String c rest =>
      if Ascii.eqb c DQUOTE
      then String DQUOTE (String DQUOTE (double_quotes rest))
      else String c (double_quotes rest)
  end.

(** ** JavaScript numbers

    [Number.parseInt(s, 10)]: NaN when [s] does not start with an integer,
    and otherwise that integer.  (A digit string so long that its value
    lies beyond the doubles, for which [parseInt] gives an infinity, is left
    out.) *)
Inductive ParsedInt :=
| NaN
| Int (z : Z).

(** [a < b], [a > b] and [a >= b] for an integer [a] and a number [b] read
    by [parseInt]: a comparison with NaN is false, whichever it is. *)
Definition js_lt (a : Z) (b : ParsedInt) : bool :=
  match b with Int z => a <? z | NaN => false end.

Definition js_gt (a : Z) (b : ParsedInt) : bool :=
  match b with Int z => z <? a | NaN => false end.

Definition js_ge (a : Z) (b : ParsedInt) : bool :=
  match b with Int z => z <=? a | NaN => false end.

(** ** Values exchanged with the outside *)

(** A thrown [Error]; only [message] is ever read. *)
Record Error := { message : string }.

(** A parsed [URL] object, as the URL standard keeps it: [href] is the
    serialisation of scheme and authority, then path, query and fragment.
    [query] and [fragment] are [None] when absent ([null] in the standard). *)
Record URL := {
  scheme_authority : string;   (* scheme, host and port: all that precedes the path *)
  hostname : string;
  pathname : string;
  query : option string;
  fragment : option string;
}.

Definition href (u : URL) : string :=
  scheme_authority u +:+ pathname u
  +:+ match query u with Some q => "?" +:+ q | None => EmptyString end
  +:+ match fragment u with Some f => "#" +:+ f | None => EmptyString end.

(** [parsed.hash = '']: the fragment becomes null. *)
Definition clear_hash (u : URL) : URL :=
  {| scheme_authority := scheme_authority u; hostname := hostname u;
     pathname := pathname u; query := query u; fragment := None |}.

(** What [page.evaluate] returns in [extractPageData]. *)
Record Link := { link_href : string; link_text : string }.
Record Image := { src : string; alt : string }.
Record Heading := { tag : string; heading_text : string }.

Record PageContent := {
  title : string;
  headings : list Heading;
  links : list Link;
  images : list Image;
  tables : list (list (list string));
  textContent : list string;
  meta : list (string * string);
}.

(** The object [extractPageData] resolves to: [{url, depth, timestamp,
    ...data}].  It has no [statusCode] and no [loadTime] yet. *)
Record PageData := {
  data_url : string;
  data_depth : Z;
  data_timestamp : string;
  data_content : PageContent;
}.

(** The page record pushed by [addPage]: that object once [crawlPage] has
    assigned its [statusCode] and its [loadTime]. *)
Record PageRecord := {
  url : string;
  depth : Z;
  timestamp : string;
  content : PageContent;
  statusCode : Z;
  loadTime : Z;
}.

Record ErrorRecord := {
  error_url : string;
  error : string;
  error_timestamp : string;
}.

(** One navigation attempt, as seen from [crawlPage]'s [try] block. *)
Inductive Extraction :=
| ExtractionFails (e : Error)            (* [page.evaluate] rejects *)
| Extracted (d : PageContent).

Inductive Attempt :=
| NewPageFails (e : Error)               (* [browser.newPage()] rejects *)
| NavigationFails (e : Error)            (* [setUserAgent] .. [goto] rejects *)
| Navigated (response : option Z) (x : Extraction).
      (* [goto] resolves, with a response (its status) or with null *)

(** The collaborators. *)
Record Env := {
  URL_new : string -> option URL;        (* [new URL(s)]; [None]: it throws *)
  Date_now : nat -> Z;                   (* the n-th reading of the clock *)
  toISOString : Z -> string;             (* [new Date(ms).toISOString()] *)
  toFixed2_seconds : Z -> string;        (* [(ms / 1000).toFixed(2)] *)
  goto : nat -> string -> Attempt;       (* the n-th attempt of the run, at a url *)
}.

(** [config.js]. *)
Record Config := {
  MAX_RETRIES : nat;
  RETRY_DELAY : Z;
  REQUEST_DELAY : Z;
  USER_AGENTS : list string;
}.

Definition config : Config := {|
  MAX_RETRIES := 3;
  RETRY_DELAY := 2000;
  REQUEST_DELAY := 500;
  USER_AGENTS :=
    [ "Mozilla/5.0 (X11; Linux x86_64) AppleWebKit/537.36 (KHTML, like Gecko) Chrome/120.0.0.0 Safari/537.36";
      "Mozilla/5.0 (X11; Linux x86_64; rv:121.0) Gecko/20100101 Firefox/121.0";
      "Mozilla/5.0 (X11; Linux x86_64) AppleWebKit/537.36 (KHTML, like Gecko) Chrome/119.0.0.0 Safari/537.36" ];
|}.

(** ** class CrawlResult *)

Module CrawlResult.

Record Stats := {
    totalPages : Z;
    successfulPages : Z;
    failedPages : Z;
    totalLinks : Z;
    totalImages : Z;
    totalTables : Z;
    duration : option Z;                 (* undefined until [finalize] *)
  }.

Record t := {
    pages : list PageRecord;
    errors : list ErrorRecord;
    startTime : Z;
    endTime : option Z;                  (* null until [finalize] *)
    stats : Stats;
  }.

  (** The constructor, run at clock value [now]. *)
Definition new (now : Z) : t := {|
    pages := [];
    errors := [];
    startTime := now;
    endTime := None;
    stats := {| totalPages := 0; successfulPages := 0; failedPages := 0;
                totalLinks := 0; totalImages := 0; totalTables := 0;
                duration := None |};
  |}.

Definition addPage (pageData : PageRecord) (this : t) : t :=
    let s := stats this in
    {| pages := pages this ++ [pageData];
       errors := errors this;
       startTime := startTime this;
       endTime := endTime this;
       stats := {|
         totalPages := totalPages s + 1;
         successfulPages := successfulPages s + 1;
         failedPages := failedPages s;
         totalLinks := totalLinks s + Z.of_nat (length (links (content pageData)));
         totalImages := totalImages s + Z.of_nat (length (images (content pageData)));
         totalTables := totalTables s + Z.of_nat (length (tables (content pageData)));
         duration := duration s |} |}.

  (** [addError(url, error)]; [now_iso] is [new Date().toISOString()]. *)
Definition addError (u : string) (err : Error) (now_iso : string) (this : t) : t :=
    let s := stats this in
    {| pages := pages this;
       errors := errors this
                 ++ [{| error_url := u; error := message err; error_timestamp := now_iso |}];
       startTime := startTime this;
       endTime := endTime this;
       stats := {|
         totalPages := totalPages s + 1;
         successfulPages := successfulPages s;
         failedPages := failedPages s + 1;
         totalLinks := totalLinks s;
         totalImages := totalImages s;
         totalTables := totalTables s;
         duration := duration s |} |}.

  (** [finalize()], run at clock value [now]. *)
Definition finalize (now : Z) (this : t) : t :=
    let s := stats this in
    {| pages := pages this;
       errors := errors this;
       startTime := startTime this;
       endTime := Some now;
       stats := {|
         totalPages := totalPages s;
         successfulPages := successfulPages s;
         failedPages := failedPages s;
         totalLinks := totalLinks s;
         totalImages := totalImages s;
         totalTables := totalTables s;
         duration := Some (now - startTime this) |} |}.

  (** The counters agree. *)
Definition balanced (this : t) : Prop :=
    totalPages (stats this)
    = successfulPages (stats this) + failedPages (stats this).

  (** A method call on the aggregate, and a history of calls. *)
Inductive Call :=
  | AddPage (pageData : PageRecord)
  | AddError (u : string) (err : Error) (now_iso : string)
  | Finalize (now : Z).

Definition call (this : t) (c : Call) : t :=
    match c with
    | AddPage pageData => addPage pageData this
    | AddError u err now_iso => addError u err now_iso this
    | Finalize now => finalize now this
    end.

Definition calls (cs : list Call) (this : t) : t := fold_left call cs this.

End CrawlResult.

(** ** class URLQueue *)

Module URLQueue.

Record Item := { item_url : string; item_depth : Z }.

Record t := {
    queue : list Item;
    visited : gset string;
    maxPages : ParsedInt;
  }.

Definition new (maxPages : ParsedInt) : t :=
    {| queue := []; visited := ∅; maxPages := maxPages |}.

Section Methods.
Context (E : Env).

    (** The [try] body of [normalize], once [new URL(url)] has returned. *)
Definition normalized_href (parsed : URL) : string :=
      let normalized := href (clear_hash parsed) in
      if endsWith normalized "/" then slice_0_m1 normalized else normalized.

    (** [normalize(url)]; [None] is the [null] of the [catch]. *)
Definition normalize (u : string) : option string :=
      match URL_new E u with
      | Some parsed => Some (normalized_href parsed)
      | None => None
      end.

    (** [add(url, depth)]: the returned boolean and the queue afterwards. *)
Definition add (u : string) (d : Z) (this : t) : bool * t :=
      match normalize u with
      | None => (false, this)
      | Some normalized =>
          if falsy normalized then (false, this)
          else if decide (normalized ∈ visited this) then (false, this)
          else if js_ge (Z.of_nat (size (visited this))) (maxPages this) then (false, this)
          else (true,
                {| queue := queue this ++ [{| item_url := normalized; item_depth := d |}];
                   visited := visited this ∪ {[ normalized ]};
                   maxPages := maxPages this |})
      end.
End Methods.

  (** [next()]: [queue.shift()]. *)
Definition next (this : t) : option Item * t :=
    match queue this with
    | [] => (None, this)
    | item :: rest =>
        (Some item,
         {| queue := rest; visited := visited this; maxPages := maxPages this |})
    end.

Definition hasMore (this : t) : bool :=
    (0 <? length (queue this))%nat.

  (** [get size()]. *)
Definition size (this : t) : Z := Z.of_nat (size (visited this)).

End URLQueue.

(** ** class WebCrawler *)

Module WebCrawler.

  (** What the run does to the outside, in order: navigation attempts and
      [setTimeout] delays (retry backoff and rate limiting). *)
Inductive Event :=
  | Visit (u : string)
  | Sleep (ms : Z).

  (** The constructor's [options], with [depth] and [maxPages] as
      [Number.parseInt(.., 10)] reads them. *)
Record Options := {
    opt_url : string;
    opt_depth : ParsedInt;
    opt_maxPages : ParsedInt;
    opt_format : string;
  }.

  (** The object's fields, then the position of the run in the outside
      world: clock readings so far, attempts so far, events so far. *)
Record t := {
    baseUrl : string;
    maxDepth : ParsedInt;
    maxPages : ParsedInt;
    format : string;
    queue : URLQueue.t;
    result : CrawlResult.t;
    userAgentIdx : nat;
    clock_reads : nat;
    attempts : nat;
    trace : list Event;
  }.

Definition set_queue (q : URLQueue.t) (w : t) : t :=
    {| baseUrl := baseUrl w; maxDepth := maxDepth w; maxPages := maxPages w;
       format := format w; queue := q; result := result w;
       userAgentIdx := userAgentIdx w; clock_reads := clock_reads w;
       attempts := attempts w; trace := trace w |}.

Definition set_result (r : CrawlResult.t) (w : t) : t :=
    {| baseUrl := baseUrl w; maxDepth := maxDepth w; maxPages := maxPages w;
       format := format w; queue := queue w; result := r;
       userAgentIdx := userAgentIdx w; clock_reads := clock_reads w;
       attempts := attempts w; trace := trace w |}.

Definition set_userAgentIdx (i : nat) (w : t) : t :=
    {| baseUrl := baseUrl w; maxDepth := maxDepth w; maxPages := maxPages w;
       format := format w; queue := queue w; result := result w;
       userAgentIdx := i; clock_reads := clock_reads w;
       attempts := attempts w; trace := trace w |}.

Definition set_clock_reads (n : nat) (w : t) : t :=
    {| baseUrl := baseUrl w; maxDepth := maxDepth w; maxPages := maxPages w;
       format := format w; queue := queue w; result := result w;
       userAgentIdx := userAgentIdx w; clock_reads := n;
       attempts := attempts w; trace := trace w |}.

  (** One more attempt has been made, at [u]. *)
Definition record_visit (u : string) (w : t) : t :=
    {| baseUrl := baseUrl w; maxDepth := maxDepth w; maxPages := maxPages w;
       format := format w; queue := queue w; result := result w;
       userAgentIdx := userAgentIdx w; clock_reads := clock_reads w;
       attempts := S (attempts w); trace := trace w ++ [Visit u] |}.

Definition record_sleep (ms : Z) (w : t) : t :=
    {| baseUrl := baseUrl w; maxDepth := maxDepth w; maxPages := maxPages w;
       format := format w; queue := queue w; result := result w;
       userAgentIdx := userAgentIdx w; clock_reads := clock_reads w;
       attempts := attempts w; trace := trace w ++ [Sleep ms] |}.

  (** *** Statements: state, exceptions, and loops that may run out of fuel *)

Inductive Completion (A : Type) :=
  | Normal (a : A)
  | Throw (e : Error)
  | OutOfFuel.
Arguments Normal {A} a.
Arguments Throw {A} e.
Arguments OutOfFuel {A}.

Definition M (A : Type) : Type := t -> Completion A * t.

Definition ret {A} (a : A) : M A := fun w => (Normal a, w).
Definition throw {A} (e : Error) : M A := fun w => (Throw e, w).
Definition out_of_fuel {A} : M A := fun w => (OutOfFuel, w).

Definition bind {A B} (m : M A) (k : A -> M B) : M B :=
    fun w =>
      match m w with
      | (Normal a, w') => k a w'
      | (Throw e, w') => (Throw e, w')
      | (OutOfFuel, w') => (OutOfFuel, w')
      end.

Definition get : M t := fun w => (Normal w, w).
Definition modify (f : t -> t) : M unit := fun w => (Normal tt, f w).

  (** [try { m } catch (err) { .. }]: the handler receives [inr err]. *)
Definition try_catch {A} (m : M A) : M (A + Error) :=
    fun w =>
      match m w with
      | (Normal a, w') => (Normal (inl a), w')
      | (Throw e, w') => (Normal (inr e), w')
      | (OutOfFuel, w') => (OutOfFuel, w')
      end.

Declare Scope js_scope.
Delimit Scope js_scope with js.
Notation "x <- m ;; k" := (bind m (fun x => k))
    (at level 100, m at next level, right associativity) : js_scope.
Notation "m ;; k" := (bind m (fun _ => k))
    (at level 100, right associativity) : js_scope.
Local Open Scope js_scope.

Section Methods.
Context (E : Env) (C : Config).

    (** [new WebCrawler(options)]; the [CrawlResult] constructor reads the
        clock once. *)
Definition new (options : Options) : t :=
      {| baseUrl := opt_url options;
         maxDepth := opt_depth options;
         maxPages := opt_maxPages options;
         format := opt_format options;
         queue := URLQueue.new (opt_maxPages options);
         result := CrawlResult.new (Date_now E 0);
         userAgentIdx := 0;
         clock_reads := 1;
         attempts := 0;
         trace := [] |}.

    (** [Date.now()]. *)
Definition now : M Z :=
      w <- get ;;
      modify (set_clock_reads (S (clock_reads w))) ;;
      ret (Date_now E (clock_reads w)).

    (** [new Date().toISOString()]. *)
Definition now_iso : M string :=
      ms <- now ;; ret (toISOString E ms).

    (** [await new Promise((r) => setTimeout(r, ms))]. *)
Definition sleep (ms : Z) : M unit := modify (record_sleep ms).

Definition getNextUserAgent : M string :=
      w <- get ;;
      let ua := nth (userAgentIdx w mod length (USER_AGENTS C)) (USER_AGENTS C) EmptyString in
      modify (set_userAgentIdx (S (userAgentIdx w))) ;;
      ret ua.

    (** [this.queue.add(url, depth)]. *)
Definition queue_add (u : string) (d : Z) : M bool :=
      w <- get ;;
      let '(accepted, q) := URLQueue.add E u d (queue w) in
      modify (set_queue q) ;;
      ret accepted.

    (** [this.queue.next()]. *)
Definition queue_next : M (option URLQueue.Item) :=
      w <- get ;;
      let '(item, q) := URLQueue.next (queue w) in
      modify (set_queue q) ;;
      ret item.

    (** The predicate of [filterLinks], [baseHost] being known. *)
Definition same_domain (baseHost : string) (h : string) : bool :=
      match URL_new E h with
      | Some parsed =>
          String.eqb (hostname parsed) baseHost
          || endsWith (hostname parsed) ("." +:+ baseHost)
      | None => false
      end.

    (** [filterLinks(links)]; [new URL(this.baseUrl)] is outside any [try]
        of its own, so it throws to the caller. *)
Definition filterLinks (ls : list Link) : M (list string) :=
      w <- get ;;
      match URL_new E (baseUrl w) with
      | None => throw {| message := "Invalid URL" |}
      | Some base =>
          ret (List.filter (same_domain (hostname base)) (map link_href ls))
      end.

    (** [for (const link of newLinks) if (this.queue.add(link, d)) added++]. *)
Fixpoint add_links (newLinks : list string) (d : Z) (added : Z) : M Z :=
      match newLinks with
      | [] => ret added
      | link :: rest =>
          accepted <- queue_add link d ;;
          add_links rest d (if accepted then added + 1 else added)
      end.

    (** [response?.status() || 0]. *)
Definition status_or_0 (response : option Z) : Z :=
      match response with
      | Some status => if status =? 0 then 0 else status
      | None => 0
      end.

    (** [if (statusCode >= 400) throw new Error(`HTTP ${statusCode}`)]. *)
Definition check_status (response : option Z) : M Z :=
      let status := status_or_0 response in
      if 400 <=? status
      then throw {| message := "HTTP " +:+ String_of_number status |}
      else ret status.

    (** [extractPageData(page, url, depth)], the page having yielded [d]. *)
Definition extractPageData (d : PageContent) (u : string) (dep : Z) : M PageData :=
      ts <- now_iso ;;
      ret {| data_url := u; data_depth := dep; data_timestamp := ts;
             data_content := d |}.

    (** [pageData.statusCode = s; pageData.loadTime = l]. *)
Definition set_status_loadTime (s l : Z) (p : PageData) : PageRecord :=
      {| url := data_url p; depth := data_depth p; timestamp := data_timestamp p;
         content := data_content p; statusCode := s; loadTime := l |}.

    (** The [try] block of [crawlPage]: one attempt. *)
Definition attempt (u : string) (dep : Z) (pageStart : Z) : M unit :=
      w <- get ;;
      modify (record_visit u) ;;
      match goto E (attempts w) u with
      | NewPageFails e => throw e
      | NavigationFails e => getNextUserAgent ;; throw e
      | Navigated response x =>
          getNextUserAgent ;;
          status <- check_status response ;;
          match x with
          | ExtractionFails e => throw e
          | Extracted d =>
              pageData <- extractPageData d u dep ;;
              t1 <- now ;;
              let pageData := set_status_loadTime status (t1 - pageStart) pageData in
              (if js_lt dep (maxDepth w)
               then newLinks <- filterLinks (links (content pageData)) ;;
                    add_links newLinks (dep + 1) 0 ;;
                    ret tt
               else ret tt) ;;
              modify (fun w => set_result (CrawlResult.addPage pageData (result w)) w)
          end
      end.

    (** [this.result.addError(url, err)]. *)
Definition addError (u : string) (err : Error) : M unit :=
      ts <- now_iso ;;
      modify (fun w => set_result (CrawlResult.addError u err ts (result w)) w).

    (** The [while (retries <= config.MAX_RETRIES)] loop of [crawlPage].
        The [finally] block closes the page and touches nothing else. *)
Fixpoint retry_loop (fuel : nat) (u : string) (dep : Z) (pageStart : Z)
             (retries : nat) : M unit :=
      if (retries <=? MAX_RETRIES C)%nat then
        match fuel with
        | O => out_of_fuel
        | S fuel' =>
            r <- try_catch (attempt u dep pageStart) ;;
            match r with
            | inl _ => ret tt                                  (* break *)
            | inr err =>
                let retries := S retries in
                (if (MAX_RETRIES C <? retries)%nat
                 then addError u err
                 else sleep (RETRY_DELAY C * Z.of_nat retries)) ;;
                retry_loop fuel' u dep pageStart retries
            end
        end
      else ret tt.

Definition crawlPage (u : string) (dep : Z) : M unit :=
      pageStart <- now ;;
      retry_loop (S (MAX_RETRIES C)) u dep pageStart 0.

    (** The loop condition of [crawl]. *)
Definition crawl_condition (w : t) : bool :=
      URLQueue.hasMore (queue w)
      && js_lt (CrawlResult.successfulPages (CrawlResult.stats (result w))) (maxPages w).

    (** The body of the [while] loop of [crawl]; [false] is [break]. *)
Definition crawl_body : M bool :=
      item <- queue_next ;;
      match item with
      | None => ret false
      | Some it =>
          w <- get ;;
          if js_gt (URLQueue.item_depth it) (maxDepth w)
          then ret true                                        (* continue *)
          else
            crawlPage (URLQueue.item_url it) (URLQueue.item_depth it) ;;
            sleep (REQUEST_DELAY C) ;;
            ret true
      end.

Fixpoint crawl_loop (fuel : nat) : M unit :=
      w <- get ;;
      if crawl_condition w then
        match fuel with
        | O => out_of_fuel
        | S fuel' =>
            continue <- crawl_body ;;
            if continue then crawl_loop fuel' else ret tt
        end
      else ret tt.

    (** [this.result.finalize()]. *)
Definition finalize : M CrawlResult.t :=
      t1 <- now ;;
      modify (fun w => set_result (CrawlResult.finalize t1 (result w)) w) ;;
      w <- get ;;
      ret (result w).

Definition crawl (fuel : nat) : M CrawlResult.t :=
      w <- get ;;
      queue_add (baseUrl w) 0 ;;
      crawl_loop fuel ;;
      finalize.

    (** The crawler at the top of the [while] loop of [crawl], some
        iterations into a run started with [options]. *)
Inductive running (options : Options) : t -> Prop :=
    | running_seeded :
        running options (snd (queue_add (opt_url options) 0 (new options)))
    | running_iteration w continue w' :
        running options w ->
        crawl_condition w = true ->
        crawl_body w = (Normal continue, w') ->
        running options w'.

End Methods.

End WebCrawler.

(** ** The report: [saveResults], and the two ways a run ends *)

Module Report.
Import WebCrawler.
Local Open Scope js_scope.

  (** The [crawl] member of the JSON document. *)
Record Header := {
    targetUrl : string;
    startTime : string;
    endTime : string;
    duration : string;
    config_maxDepth : ParsedInt;
    config_maxPages : ParsedInt;
  }.

Record Json := {
    crawl : Header;
    stats : CrawlResult.Stats;
    pages : list PageRecord;
    errors : list ErrorRecord;
  }.

  (** What [saveResults] writes: the [.json] file, the [.csv] file and the
      [-errors.json] file, each present or not. *)
Record Files := {
    json_file : option Json;
    csv_file : option string;
    errors_file : option (list ErrorRecord);
  }.

Definition LF : string := String "010"%char EmptyString.

Definition headers : list string :=
    ["url"; "depth"; "title"; "statusCode"; "loadTime"; "linksCount";
     "imagesCount"; "timestamp"].

  (** One element of [rows], its cells already converted by [join]. *)
Definition row (p : PageRecord) : list string :=
    [ quote_mark +:+ url p +:+ quote_mark;
      String_of_number (depth p);
      quote_mark +:+ double_quotes (title (content p)) +:+ quote_mark;
      String_of_number (statusCode p);
      String_of_number (loadTime p);
      String_of_number (Z.of_nat (length (links (content p))));
      String_of_number (Z.of_nat (length (images (content p))));
      timestamp p ].

Definition csv_lines (ps : list PageRecord) : list string :=
    join "," headers :: map (fun r => join "," r) (map row ps).

Definition csv (ps : list PageRecord) : string := join LF (csv_lines ps).

Section Methods.
Context (E : Env) (C : Config).

    (** [new Date(null)] is the epoch; [(undefined / 1000).toFixed(2)] is
        the text NaN. *)
Definition header (w : WebCrawler.t) : Header :=
      let r := result w in
      {| targetUrl := baseUrl w;
         startTime := toISOString E (CrawlResult.startTime r);
         endTime := toISOString E (default 0 (CrawlResult.endTime r));
         duration :=
           match CrawlResult.duration (CrawlResult.stats r) with
           | Some ms => toFixed2_seconds E ms +:+ "s"
           | None => "NaNs"
           end;
         config_maxDepth := maxDepth w;
         config_maxPages := maxPages w |}.

Definition saveResults (w : WebCrawler.t) : Files :=
      let r := result w in
      {| json_file :=
           if String.eqb (format w) "json" || String.eqb (format w) "both"
           then Some {| crawl := header w;
                        stats := CrawlResult.stats r;
                        pages := CrawlResult.pages r;
                        errors := CrawlResult.errors r |}
           else None;
         csv_file :=
           if String.eqb (format w) "csv" || String.eqb (format w) "both"
           then Some (csv (CrawlResult.pages r))
           else None;
         errors_file :=
           if (0 <? length (CrawlResult.errors r))%nat
           then Some (CrawlResult.errors r)
           else None |}.

    (** The [try] block of [main], the browser having been launched:
        [crawl()], which ends with [finalize()], then [saveResults()]. *)
Definition main (fuel : nat) : M Files :=
      WebCrawler.crawl E C fuel ;;
      w <- get ;;
      ret (saveResults w).

    (** The SIGINT/SIGTERM handler, run on the crawler as the signal finds
        it: [saveResults()], [cleanup()], [process.exit(0)].  The result is
        what was written and the exit code. *)
Definition shutdown (w : WebCrawler.t) : Files * Z :=
      (saveResults w, 0).
End Methods.

End Report.

(** ** The aggregate as the specification words it

    [open] until [finalize], then [finalized]: after that, [addPage] and
    [addError] fail.  This is the guarded life cycle of the specification,
    written down to be compared with [CrawlResult]. *)

Module GuardedAggregate.

Definition finalized (r : CrawlResult.t) : bool :=
    match CrawlResult.endTime r with Some _ => true | None => false end.

Definition addPage (p : PageRecord) (r : CrawlResult.t) : option CrawlResult.t :=
    if finalized r then None else Some (CrawlResult.addPage p r).

Definition addError (u : string) (e : Error) (ts : string) (r : CrawlResult.t)
    : option CrawlResult.t :=
    if finalized r then None else Some (CrawlResult.addError u e ts r).

End GuardedAggregate.

(** ** Normalisation as the specification words it

    Parse, strip the fragment, strip one trailing slash from the path. *)

Definition strip_path_slash (u : URL) : URL :=
  {| scheme_authority := scheme_authority u; hostname := hostname u;
     pathname := if endsWith (pathname u) "/" then slice_0_m1 (pathname u)
                 else pathname u;
     query := query u; fragment := fragment u |}.

Definition normalized_by_path (parsed : URL) : string :=
  href (strip_path_slash (clear_hash parsed)).

(** ** A small site to run the crawler on

    The strings the sample [URL] class accepts, each with the object the
    URL standard makes of it; every other string is malformed. *)

Module Sample.

Definition http (host path : string) (q f : option string) : URL :=
    {| scheme_authority := "http://" +:+ host; hostname := host;
       pathname := path; query := q; fragment := f |}.

Definition known_urls : list (string * URL) :=
    [ ("http://site.test", http "site.test" "/" None None);
      ("http://site.test/", http "site.test" "/" None None);
      ("http://site.test/A", http "site.test" "/A" None None);
      ("http://site.test/A#top", http "site.test" "/A" None (Some "top"));
      ("http://site.test/A/", http "site.test" "/A/" None None);
      ("http://site.test/B", http "site.test" "/B" None None);
      ("http://site.test/C", http "site.test" "/C" None None);
      ("http://site.test/D", http "site.test" "/D" None None);
      ("http://site.test/docs/?page=1", http "site.test" "/docs/" (Some "page=1") None);
      ("http://site.test/docs?page=1", http "site.test" "/docs" (Some "page=1") None);
      ("http://site.test/p1", http "site.test" "/p1" None None);
      ("http://site.test/p2", http "site.test" "/p2" None None);
      ("http://site.test/p3", http "site.test" "/p3" None None);
      ("http://site.test/p4", http "site.test" "/p4" None None);
      ("http://site.test/p5", http "site.test" "/p5" None None);
      ("http://site.test/p6", http "site.test" "/p6" None None);
      ("http://site.test/p7", http "site.test" "/p7" None None);
      ("http://site.test/p8", http "site.test" "/p8" None None);
      ("http://site.test/p9", http "site.test" "/p9" None None);
      ("http://sub.site.test/x", http "sub.site.test" "/x" None None);
      ("http://other.test/y", http "other.test" "/y" None None) ].

Fixpoint assoc {A} (k : string) (l : list (string * A)) : option A :=
    match l with
    | [] => None
    | (k', v) :: rest => if String.eqb k k' then Some v else assoc k rest
    end.

Definition parse (s : string) : option URL := assoc s known_urls.

Definition link (h : string) : Link := {| link_href := h; link_text := h |}.

Definition page (t : string) (hs : list string) : PageContent :=
    {| title := t; headings := []; links := map link hs; images := [];
       tables := []; textContent := []; meta := [] |}.

  (** The pages of the site, by the url the browser is sent to. *)
Definition site : list (string * PageContent) :=
    [ ("http://site.test",
       page "Home" ["http://site.test/p1"; "http://site.test/p2"; "http://site.test/p3";
                    "http://site.test/p4"; "http://site.test/p5"; "http://site.test/p6";
                    "http://site.test/p7"; "http://site.test/p8"; "http://site.test/p9";
                    "http://other.test/y"]);
      ("http://site.test/A", page "A" ["http://site.test/B"; "http://site.test/C"]);
      ("http://site.test/B", page "B" ["http://site.test/D"]);
      ("http://site.test/C", page "C" []);
      ("http://site.test/D", page "D" []) ].

Definition timeout_error : Error := {| message := "Navigation timeout" |}.

  (** A browser that always answers 200 with the page of the site. *)
Definition steady (n : nat) (u : string) : Attempt :=
    match assoc u site with
    | Some d => Navigated (Some 200) (Extracted d)
    | None => Navigated (Some 200) (Extracted (page u []))
    end.

  (** A browser whose first [k] attempts time out. *)
Definition flaky (k : nat) (n : nat) (u : string) : Attempt :=
    if (n <? k)%nat then NavigationFails timeout_error else steady n u.

  (** A browser whose navigations resolve without a response. *)
Definition silent (n : nat) (u : string) : Attempt :=
    Navigated None (Extracted (page u [])).

  (** A browser whose navigations resolve without a response, and whose
      pages then cannot be read. *)
Definition evaluate_error : Error :=
    {| message := "Execution context was destroyed" |}.

Definition detached (n : nat) (u : string) : Attempt :=
    Navigated None (ExtractionFails evaluate_error).

  (** A browser answering 404 everywhere. *)
Definition missing (n : nat) (u : string) : Attempt :=
    Navigated (Some 404) (Extracted (page u [])).

Definition env (browser : nat -> string -> Attempt) : Env :=
    {| URL_new := parse;
       Date_now := fun n => 1000 * Z.of_nat n;
       toISOString := fun ms => "T+" +:+ String_of_number ms;
       toFixed2_seconds := fun ms => String_of_number (ms / 1000) +:+ ".00";
       goto := browser |}.

Definition options (u : string) (d p : ParsedInt) (f : string) : WebCrawler.Options :=
    {| WebCrawler.opt_url := u; WebCrawler.opt_depth := d;
       WebCrawler.opt_maxPages := p; WebCrawler.opt_format := f |}.

Definition a_page : PageRecord :=
    {| url := "http://site.test/A"; depth := 0; timestamp := "T+2000";
       content := page "A" []; statusCode := 200; loadTime := 12 |}.

  (** A title with a comma and quotation marks. *)
Definition quoted_title : string :=
    "Say " +:+ quote_mark +:+ "hi" +:+ quote_mark +:+ ", twice".

Definition quoted_page : PageRecord :=
    {| url := "http://site.test/B"; depth := 1; timestamp := "T+3000";
       content := page quoted_title []; statusCode := 200; loadTime := 7 |}.

  (** A run on the home page of the site, to depth 1, as a signal finds it
      at the top of the loop after three iterations. *)
Definition home_options : WebCrawler.Options :=
    options "http://site.test/" (Int 1) (Int 50) "json".

Definition seeded : WebCrawler.t :=
    snd (WebCrawler.queue_add (env steady) "http://site.test/" 0
           (WebCrawler.new (env steady) home_options)).

Definition interrupted : WebCrawler.t :=
    snd (WebCrawler.crawl_body (env steady) config
           (snd (WebCrawler.crawl_body (env steady) config
                   (snd (WebCrawler.crawl_body (env steady) config seeded))))).

End Sample.


(** ** Notions used to state the properties *)

(** Whether the attempt numbered [n] of the run, made at [u] from depth
    [dep], will get through the [try] block: the navigation resolves with a
    status below 400 (or without response), the extraction returns, and
    [filterLinks], if it is called, can parse the base url. *)
Definition attempt_ok (E : Env) (w : WebCrawler.t) (u : string) (dep : Z) (n : nat)
  : bool :=
  match goto E n u with
  | Navigated response (Extracted _) =>
      negb (400 <=? WebCrawler.status_or_0 response)
      && (negb (js_lt dep (WebCrawler.maxDepth w))
          || bool_decide (is_Some (URL_new E (WebCrawler.baseUrl w))))
  | _ => false
  end.

(** The events of [j] failed attempts at [u], the first of them being the
    failure number [k + 1]: after the failure number [i] the loop sleeps
    [RETRY_DELAY * i]. *)
Fixpoint backoff (C : Config) (u : string) (k j : nat) : list WebCrawler.Event :=
  match j with
  | O => []
  | S j' =>
      WebCrawler.Visit u
      :: WebCrawler.Sleep (RETRY_DELAY C * Z.of_nat (S k))
      :: backoff C u (S k) j'
  end.

(** The fields no method assigns. *)
Definition same_settings (w w' : WebCrawler.t) : Prop :=
  WebCrawler.baseUrl w' = WebCrawler.baseUrl w
  /\ WebCrawler.maxDepth w' = WebCrawler.maxDepth w
  /\ WebCrawler.maxPages w' = WebCrawler.maxPages w
  /\ WebCrawler.format w' = WebCrawler.format w
  /\ URLQueue.maxPages (WebCrawler.queue w') = URLQueue.maxPages (WebCrawler.queue w).

(** The page budget as a count: none when [maxPages] is NaN, since the
    loop of [crawl] then never runs. *)
Definition budget (m : ParsedInt) : nat :=
  match m with Int z => Z.to_nat z | NaN => 0%nat end.

(** What is left to do at most: the entries queued, and the admissions
    the page budget still allows. *)
Definition work (q : URLQueue.t) : nat :=
  (length (URLQueue.queue q)
   + match URLQueue.maxPages q with
     | Int m => Z.to_nat (m - URLQueue.size q)
     | NaN => 0
     end)%nat.

(** The urls [add] would queue for a list of links, were all accepted. *)
Definition normal_forms (E : Env) (ls : list string) : list string :=
  omap (URLQueue.normalize E) ls.

(** The depths a limit lets a page be recorded at: those not above it.
    When the limit is NaN no link is ever queued, [depth < NaN] being false,
    and the one depth is that of the seed. *)
Definition within_depth (m : ParsedInt) (d : Z) : Prop :=
  match m with Int z => d <= z | NaN => d = 0 end.

(** The depths of the queued entries: the same, and 0, where the seed is
    queued whatever the limit. *)
Definition queued_within_depth (m : ParsedInt) (d : Z) : Prop :=
  match m with Int z => d <= Z.max 0 z | NaN => d = 0 end.

(** The room the page budget leaves for [n] visited urls; NaN sets no
    bound. *)
Definition within_budget (m : ParsedInt) (n : Z) : Prop :=
  match m with Int z => n <= Z.max 0 z | NaN => True end.

(** The invariants of the run on depths. *)
Definition pages_within_depth (w : WebCrawler.t) : Prop :=
  Forall (fun p => within_depth (WebCrawler.maxDepth w) (depth p))
         (CrawlResult.pages (WebCrawler.result w)).

Definition frontier_within_depth (w : WebCrawler.t) : Prop :=
  Forall (fun it => queued_within_depth (WebCrawler.maxDepth w) (URLQueue.item_depth it))
         (URLQueue.queue (WebCrawler.queue w)).

(** Level by level: the recorded depths never decrease, and for some level
    [d] no page is deeper than [d] and the queue holds entries of depth [d]
    followed by entries of depth [d + 1]. *)
Definition level_order (w : WebCrawler.t) : Prop :=
  StronglySorted Z.le (map depth (CrawlResult.pages (WebCrawler.result w)))
  /\ exists d front back,
       URLQueue.queue (WebCrawler.queue w) = front ++ back
       /\ Forall (fun p => depth p <= d) (CrawlResult.pages (WebCrawler.result w))
       /\ Forall (fun it => URLQueue.item_depth it = d) front
       /\ Forall (fun it => URLQueue.item_depth it = d + 1) back.

(** A use of the frontier: a sequence of [add] and [next] calls.  Its
    outcome is the entries [next] handed out, in order, and the frontier
    left. *)
Inductive FrontierCall :=
| CallAdd (u : string) (d : Z)
| CallNext.

Fixpoint frontier_calls (E : Env) (cs : list FrontierCall) (q : URLQueue.t)
  : list URLQueue.Item * URLQueue.t :=
  match cs with
  | [] => ([], q)
  | CallAdd u d :: cs' => frontier_calls E cs' (snd (URLQueue.add E u d q))
  | CallNext :: cs' =>
      let '(item, q1) := URLQueue.next q in
      let '(out, q2) := frontier_calls E cs' q1 in
      (match item with Some it => it :: out | None => out end, q2)
  end.

(** The [for] loop over the links, on the frontier alone. *)
Definition add_all (E : Env) (ls : list string) (d : Z) (q : URLQueue.t) : URLQueue.t :=
  fold_left (fun q l => snd (URLQueue.add E l d q)) ls q.

(** The hrefs [filterLinks] keeps of the links of a page, the base url
    being [base]; and the links [crawlPage] offers to the frontier, one
    [add] each and in this order, for a page it records from depth [dep]:
    the links kept, when [dep] is below the depth limit, and none
    otherwise. *)
Definition kept_links (E : Env) (base : string) (ls : list Link) : list string :=
  match URL_new E base with
  | Some b => List.filter (WebCrawler.same_domain E (hostname b)) (map link_href ls)
  | None => []
  end.

Definition offered (E : Env) (w : WebCrawler.t) (dep : Z) (p : PageRecord)
  : list string :=
  if js_lt dep (WebCrawler.maxDepth w)
  then kept_links E (WebCrawler.baseUrl w) (links (content p))
  else [].

(** Sums over the recorded pages. *)
Definition total (f : PageRecord -> Z) (ps : list PageRecord) : Z :=
  fold_right (fun p acc => f p + acc) 0 ps.

(** The urls that have a record, page or error. *)
Definition recorded (r : CrawlResult.t) : list string :=
  map url (CrawlResult.pages r) ++ map error_url (CrawlResult.errors r).

Definition queued (q : URLQueue.t) : list string :=
  map URLQueue.item_url (URLQueue.queue q).

(** The error the attempt numbered [n] ends with, if it fails. *)
Definition attempt_error (E : Env) (w : WebCrawler.t) (u : string) (dep : Z) (n : nat)
  : option Error :=
  match goto E n u with
  | NewPageFails e => Some e
  | NavigationFails e => Some e
  | Navigated response x =>
      if 400 <=? WebCrawler.status_or_0 response
      then Some {| message := "HTTP " +:+ String_of_number (WebCrawler.status_or_0 response) |}
      else
        match x with
        | ExtractionFails e => Some e
        | Extracted _ =>
            if js_lt dep (WebCrawler.maxDepth w)
               && negb (bool_decide (is_Some (URL_new E (WebCrawler.baseUrl w))))
            then Some {| message := "Invalid URL" |}
            else None
        end
  end.

(** What the frontier keeps: no url is queued twice, what is queued is
    visited, and the visited set is within the page budget, if there is
    one. *)
Definition frontier_ok (q : URLQueue.t) : Prop :=
  NoDup (queued q)
  /\ (forall x, x ∈ queued q -> x ∈ URLQueue.visited q)
  /\ within_budget (URLQueue.maxPages q) (URLQueue.size q).

(** The counters count the records. *)
Definition counted (r : CrawlResult.t) : Prop :=
  let s := CrawlResult.stats r in
  CrawlResult.successfulPages s = Z.of_nat (length (CrawlResult.pages r))
  /\ CrawlResult.failedPages s = Z.of_nat (length (CrawlResult.errors r))
  /\ CrawlResult.totalLinks s
     = total (fun p => Z.of_nat (length (links (content p)))) (CrawlResult.pages r)
  /\ CrawlResult.totalImages s
     = total (fun p => Z.of_nat (length (images (content p)))) (CrawlResult.pages r)
  /\ CrawlResult.totalTables s
     = total (fun p => Z.of_nat (length (tables (content p)))) (CrawlResult.pages r).

(** The frontier once [next] has taken the head of the queue. *)
Definition dequeued (q : URLQueue.t) : URLQueue.t :=
  snd (URLQueue.next q).

(** No url has two records or a record and a queue entry; what has a
    record is visited; the frontier is in order and the counters count. *)
Definition run_ok (w : WebCrawler.t) : Prop :=
  frontier_ok (WebCrawler.queue w)
  /\ NoDup (recorded (WebCrawler.result w) ++ queued (WebCrawler.queue w))
  /\ (forall x, x ∈ recorded (WebCrawler.result w) ->
                x ∈ URLQueue.visited (WebCrawler.queue w))
  /\ counted (WebCrawler.result w).

(** The urls the frontier has handed out: visited and no longer queued. *)
Definition handed_out (q : URLQueue.t) : Z :=
  URLQueue.size q - Z.of_nat (length (URLQueue.queue q)).

(** * Properties *)

(** ** Strings *)

Lemma str_cons (c : ascii) (s t : string) : String c s +:+ t = String c (s +:+ t).
Proof. reflexivity. Qed.

Lemma str_nil_l (t : string) : EmptyString +:+ t = t.
Proof. reflexivity. Qed.

Lemma str_nil_r (s : string) : s +:+ EmptyString = s.
Proof.
  induction s as [|c s IH]; [reflexivity | now rewrite str_cons, IH].
Qed.

Lemma str_assoc (a b c : string) : (a +:+ b) +:+ c = a +:+ (b +:+ c).
Proof.
  induction a as [|x a IH]; [reflexivity | now rewrite !str_cons, IH].
Qed.

Lemma str_length_append (a b : string) :
  String.length (a +:+ b) = (String.length a + String.length b)%nat.
Proof.
  induction a as [|x a IH]; [reflexivity |].
  rewrite str_cons. simpl. now rewrite IH.
Qed.

Lemma substring_all (s : string) : substring 0 (String.length s) s = s.
Proof. induction s as [|c s IH]; simpl; [reflexivity | now rewrite IH]. Qed.

Lemma substring_append_l (a b : string) :
  substring 0 (String.length a) (a +:+ b) = a.
Proof.
  induction a as [|x a IH].
  - rewrite str_nil_l. destruct b; reflexivity.
  - rewrite str_cons. simpl. now rewrite IH.
Qed.

Lemma substring_append_r (a b : string) :
  substring (String.length a) (String.length b) (a +:+ b) = b.
Proof.
  induction a as [|x a IH]; [apply substring_all |].
  rewrite str_cons. simpl. exact IH.
Qed.

(** A string ends with a slash exactly when it is some string followed by
    a slash; [slice(0, -1)] then gives that string back. *)
Lemma endsWith_append (s t : string) : endsWith (s +:+ t) t = true.
Proof.
  unfold endsWith. rewrite str_length_append.
  replace (String.length s + String.length t - String.length t)%nat
    with (String.length s) by lia.
  rewrite substring_append_r, String.eqb_refl, andb_true_r.
  apply Nat.leb_le. lia.
Qed.

Lemma slice_0_m1_append (s : string) (c : ascii) :
  slice_0_m1 (s +:+ String c EmptyString) = s.
Proof.
  unfold slice_0_m1. rewrite str_length_append. simpl.
  replace (String.length s + 1 - 1)%nat with (String.length s) by lia.
  apply substring_append_l.
Qed.

Lemma substring_split (n : nat) (s : string) :
  (n <= String.length s)%nat ->
  s = substring 0 n s +:+ substring n (String.length s - n) s.
Proof.
  revert s. induction n as [|n IH]; intros s Hn.
  - rewrite Nat.sub_0_r, substring_all. destruct s; reflexivity.
  - destruct s as [|c s]; simpl in *; [lia |].
    rewrite str_cons. f_equal. apply IH. lia.
Qed.

Lemma endsWith_inv (s t : string) :
  endsWith s t = true -> exists s0, s = s0 +:+ t.
Proof.
  unfold endsWith. intros H. apply andb_true_iff in H as [Hle Heq].
  apply Nat.leb_le in Hle. apply String.eqb_eq in Heq.
  exists (substring 0 (String.length s - String.length t) s).
  pose proof (substring_split (String.length s - String.length t) s) as Hs.
  replace (String.length s - (String.length s - String.length t))%nat
    with (String.length t) in Hs by lia.
  rewrite Heq in Hs. apply Hs. lia.
Qed.

(** ** Comparisons with a number read by [parseInt] *)

Lemma js_lt_true (a : Z) (b : ParsedInt) :
  js_lt a b = true <-> exists z, b = Int z /\ a < z.
Proof.
  destruct b as [|z]; simpl.
  - split; [discriminate | intros (z & Hz & _); discriminate].
  - rewrite Z.ltb_lt. split.
    + intros H. now exists z.
    + intros (z' & Hz & H). injection Hz as ->. exact H.
Qed.

Lemma js_gt_true (a : Z) (b : ParsedInt) :
  js_gt a b = true <-> exists z, b = Int z /\ z < a.
Proof.
  destruct b as [|z]; simpl.
  - split; [discriminate | intros (z & Hz & _); discriminate].
  - rewrite Z.ltb_lt. split.
    + intros H. now exists z.
    + intros (z' & Hz & H). injection Hz as ->. exact H.
Qed.

Lemma js_gt_false (a : Z) (b : ParsedInt) :
  js_gt a b = false <-> b = NaN \/ exists z, b = Int z /\ a <= z.
Proof.
  destruct b as [|z]; simpl.
  - split; auto.
  - rewrite Z.ltb_ge. split.
    + intros H. right. now exists z.
    + intros [Hz | (z' & Hz & H)]; [discriminate |]. injection Hz as ->. exact H.
Qed.

Lemma js_ge_false (a : Z) (b : ParsedInt) :
  js_ge a b = false <-> b = NaN \/ exists z, b = Int z /\ a < z.
Proof.
  destruct b as [|z]; simpl.
  - split; auto.
  - rewrite Z.leb_gt. split.
    + intros H. right. now exists z.
    + intros [Hz | (z' & Hz & H)]; [discriminate |]. injection Hz as ->. exact H.
Qed.

(** ** The aggregator *)

Lemma balanced_addPage (p : PageRecord) (r : CrawlResult.t) :
  CrawlResult.balanced r -> CrawlResult.balanced (CrawlResult.addPage p r).
Proof. unfold CrawlResult.balanced. simpl. lia. Qed.

Lemma balanced_addError (u : string) (e : Error) (ts : string) (r : CrawlResult.t) :
  CrawlResult.balanced r -> CrawlResult.balanced (CrawlResult.addError u e ts r).
Proof. unfold CrawlResult.balanced. simpl. lia. Qed.

Lemma balanced_finalize (t1 : Z) (r : CrawlResult.t) :
  CrawlResult.balanced r -> CrawlResult.balanced (CrawlResult.finalize t1 r).
Proof. unfold CrawlResult.balanced. simpl. lia. Qed.

Lemma balanced_call (c : CrawlResult.Call) (r : CrawlResult.t) :
  CrawlResult.balanced r -> CrawlResult.balanced (CrawlResult.call r c).
Proof.
  destruct c; simpl;
    auto using balanced_addPage, balanced_addError, balanced_finalize.
Qed.

Lemma balanced_calls (cs : list CrawlResult.Call) (r : CrawlResult.t) :
  CrawlResult.balanced r -> CrawlResult.balanced (CrawlResult.calls cs r).
Proof.
  unfold CrawlResult.calls. revert r.
  induction cs as [|c cs IH]; intros r Hr; simpl; [exact Hr |].
  apply IH, balanced_call, Hr.
Qed.

(** C3.  On a fresh aggregate the three counters agree,
    [totalPages = successfulPages + failedPages], and they still agree after
    any history of [addPage], [addError] and [finalize] calls; [addPage]
    adds one to [totalPages] and [successfulPages] and leaves [failedPages],
    [addError] adds one to [totalPages] and [failedPages] and leaves
    [successfulPages]. *)
Theorem stats_balanced_after_every_call :
  forall (t0 : Z) (history : list CrawlResult.Call),
    let r := CrawlResult.calls history (CrawlResult.new t0) in
    CrawlResult.balanced r
    /\ (forall p,
          let s := CrawlResult.stats r in
          let s' := CrawlResult.stats (CrawlResult.addPage p r) in
          CrawlResult.balanced (CrawlResult.addPage p r)
          /\ CrawlResult.totalPages s' = CrawlResult.totalPages s + 1
          /\ CrawlResult.successfulPages s' = CrawlResult.successfulPages s + 1
          /\ CrawlResult.failedPages s' = CrawlResult.failedPages s)
    /\ (forall u e ts,
          let s := CrawlResult.stats r in
          let s' := CrawlResult.stats (CrawlResult.addError u e ts r) in
          CrawlResult.balanced (CrawlResult.addError u e ts r)
          /\ CrawlResult.totalPages s' = CrawlResult.totalPages s + 1
          /\ CrawlResult.failedPages s' = CrawlResult.failedPages s + 1
          /\ CrawlResult.successfulPages s' = CrawlResult.successfulPages s).
Proof.
  intros t0 history r.
  assert (Hr : CrawlResult.balanced r).
  { apply balanced_calls. reflexivity. }
  split; [exact Hr |]. split.
  - intros p. cbv zeta. split; [apply balanced_addPage, Hr |].
    simpl. repeat split; reflexivity.
  - intros u e ts. cbv zeta. split; [apply balanced_addError, Hr |].
    simpl. repeat split; reflexivity.
Qed.

(** C7, as the code has it.  The aggregate has no finalized state and
    [finalize] no guard: after [finalize], [addPage] and [addError] are
    accepted and append and count exactly as before it, leaving [endTime]
    and [duration] as [finalize] set them; a second [finalize] overwrites
    [endTime] and recomputes [duration] from [startTime], so the duration
    is never counted twice. *)
Theorem finalize_unguarded_recomputes_duration :
  forall (r : CrawlResult.t) (t1 t2 : Z) (p : PageRecord)
         (u : string) (e : Error) (ts : string),
    let f := CrawlResult.finalize t1 r in
    CrawlResult.addPage p f = CrawlResult.finalize t1 (CrawlResult.addPage p r)
    /\ CrawlResult.pages (CrawlResult.addPage p f) = CrawlResult.pages r ++ [p]
    /\ CrawlResult.addError u e ts f
       = CrawlResult.finalize t1 (CrawlResult.addError u e ts r)
    /\ CrawlResult.errors (CrawlResult.addError u e ts f)
       = CrawlResult.errors r
         ++ [{| error_url := u; error := message e; error_timestamp := ts |}]
    /\ CrawlResult.endTime (CrawlResult.finalize t2 f) = Some t2
    /\ CrawlResult.duration (CrawlResult.stats (CrawlResult.finalize t2 f))
       = Some (t2 - CrawlResult.startTime r)
    /\ CrawlResult.finalize t2 f = CrawlResult.finalize t2 r.
Proof. intros. subst f. repeat split; reflexivity. Qed.

(** C7 as stated fails: on a finalized aggregate [addPage] and [addError]
    return normally with the record stored and counted, where the guarded
    aggregate of the specification fails. *)
Lemma addPage_after_finalize_accepted :
  let f := CrawlResult.finalize 9000 (CrawlResult.new 1000) in
  GuardedAggregate.finalized f = true
  /\ GuardedAggregate.addPage Sample.a_page f = None
  /\ CrawlResult.pages (CrawlResult.addPage Sample.a_page f) = [Sample.a_page]
  /\ CrawlResult.successfulPages (CrawlResult.stats (CrawlResult.addPage Sample.a_page f)) = 1
  /\ GuardedAggregate.addError "http://site.test/B" Sample.timeout_error "T+9500" f = None
  /\ length (CrawlResult.errors
               (CrawlResult.addError "http://site.test/B" Sample.timeout_error "T+9500" f)) = 1%nat
  /\ Some (CrawlResult.addPage Sample.a_page f) <> GuardedAggregate.addPage Sample.a_page f.
Proof. cbv zeta. repeat split; try reflexivity. discriminate. Qed.

(** ** The frontier *)

Lemma normalize_Some (E : Env) (u n : string) :
  URLQueue.normalize E u = Some n ->
  exists parsed, URL_new E u = Some parsed /\ n = URLQueue.normalized_href parsed.
Proof.
  unfold URLQueue.normalize. destruct (URL_new E u) as [parsed|]; [|discriminate].
  intros [= <-]. now exists parsed.
Qed.

(** What an accepting [add] has checked and done. *)
Lemma add_true_inv (E : Env) (u : string) (d : Z) (q q' : URLQueue.t) :
  URLQueue.add E u d q = (true, q') ->
  exists n,
    URLQueue.normalize E u = Some n
    /\ falsy n = false
    /\ (n ∉ URLQueue.visited q)
    /\ js_ge (URLQueue.size q) (URLQueue.maxPages q) = false
    /\ q' = {| URLQueue.queue :=
                 (URLQueue.queue q
                  ++ [{| URLQueue.item_url := n; URLQueue.item_depth := d |}]);
               URLQueue.visited := URLQueue.visited q ∪ {[ n ]};
               URLQueue.maxPages := URLQueue.maxPages q |}.
Proof.
  unfold URLQueue.add, URLQueue.size.
  destruct (URLQueue.normalize E u) as [n|]; [|discriminate].
  destruct (falsy n) eqn:Hempty; [discriminate |].
  destruct (decide (n ∈ URLQueue.visited q)) as [|Hfresh]; [discriminate |].
  destruct (js_ge (Z.of_nat (size (URLQueue.visited q))) (URLQueue.maxPages q)) eqn:Hfull;
    [discriminate |].
  intros [= <-]. exists n. auto.
Qed.

(** And the other way round: a url with a normal form that is not empty
    and not visited is accepted unless the size test refuses it. *)
Lemma add_fresh (E : Env) (u n : string) (d : Z) (q : URLQueue.t) :
  URLQueue.normalize E u = Some n ->
  falsy n = false ->
  n ∉ URLQueue.visited q ->
  fst (URLQueue.add E u d q) = negb (js_ge (URLQueue.size q) (URLQueue.maxPages q)).
Proof.
  intros Hn Hempty Hfresh. unfold URLQueue.add, URLQueue.size. rewrite Hn, Hempty.
  destruct (decide (n ∈ URLQueue.visited q)); [contradiction |].
  destruct (js_ge _ _); reflexivity.
Qed.

(** A refusing [add] leaves the frontier alone. *)
Lemma add_false_inv (E : Env) (u : string) (d : Z) (q q' : URLQueue.t) :
  URLQueue.add E u d q = (false, q') -> q' = q.
Proof.
  unfold URLQueue.add.
  destruct (URLQueue.normalize E u) as [n|]; [|now intros [= <-]].
  destruct (falsy n); [now intros [= <-] |].
  destruct (decide (n ∈ URLQueue.visited q)); [now intros [= <-] |].
  destruct (js_ge (Z.of_nat (size (URLQueue.visited q))) (URLQueue.maxPages q));
    [now intros [= <-] | discriminate].
Qed.

(** A url whose normal form is visited is refused. *)
Lemma add_visited_refused (E : Env) (u n : string) (d : Z) (q : URLQueue.t) :
  URLQueue.normalize E u = Some n ->
  n ∈ URLQueue.visited q ->
  URLQueue.add E u d q = (false, q).
Proof.
  intros Hn Hin. unfold URLQueue.add. rewrite Hn.
  destruct (falsy n); [reflexivity |].
  destruct (decide (n ∈ URLQueue.visited q)); [reflexivity | contradiction].
Qed.

(** C1, as the code has it.  [add(u, d)] accepts exactly when [u] parses
    as a URL, its normal form is not empty and not in the visited set, and
    the test [visited.size >= maxPages] is false: the visited set is smaller
    than [maxPages], or [maxPages] is NaN, and then the test refuses
    nothing.  An accepting call appends the entry to the queue and puts the
    normal form in the visited set; and the next [add] of the same url, at
    any depth, is refused and changes nothing, although the entry is still
    queued. *)
Theorem add_accepts_fresh_once :
  forall (E : Env) (u : string) (d : Z) (q : URLQueue.t),
    (fst (URLQueue.add E u d q) = true
     <-> exists parsed n,
           URL_new E u = Some parsed
           /\ URLQueue.normalize E u = Some n
           /\ falsy n = false
           /\ (n ∉ URLQueue.visited q)
           /\ (URLQueue.maxPages q = NaN
               \/ exists m, URLQueue.maxPages q = Int m /\ URLQueue.size q < m))
    /\ (forall q',
          URLQueue.add E u d q = (true, q') ->
          exists n,
            URLQueue.normalize E u = Some n
            /\ URLQueue.queue q'
               = (URLQueue.queue q
                  ++ [{| URLQueue.item_url := n; URLQueue.item_depth := d |}])
            /\ URLQueue.visited q' = URLQueue.visited q ∪ {[ n ]}
            /\ URLQueue.size q' = URLQueue.size q + 1
            /\ URLQueue.maxPages q' = URLQueue.maxPages q
            /\ forall d2, URLQueue.add E u d2 q' = (false, q')).
Proof.
  intros E u d q. split; [split |].
  - intros Htrue.
    destruct (URLQueue.add E u d q) as [b q'] eqn:Hadd. simpl in Htrue. subst b.
    destruct (add_true_inv _ _ _ _ _ Hadd) as (n & Hn & Hempty & Hfresh & Hroom & _).
    destruct (normalize_Some _ _ _ Hn) as (parsed & Hparsed & _).
    exists parsed, n. apply js_ge_false in Hroom. auto.
  - intros (parsed & n & _ & Hn & Hempty & Hfresh & Hroom).
    rewrite (add_fresh E u n d q Hn Hempty Hfresh).
    apply js_ge_false in Hroom. now rewrite Hroom.
  - intros q' Hadd.
    destruct (add_true_inv _ _ _ _ _ Hadd) as (n & Hn & _ & Hfresh & _ & ->).
    exists n. simpl. split; [exact Hn |]. split; [reflexivity |].
    split; [reflexivity |]. split.
    + unfold URLQueue.size. simpl.
      rewrite size_union by set_solver. rewrite size_singleton. lia.
    + split; [reflexivity |]. intros d2.
      apply add_visited_refused with (n := n); [exact Hn |].
      simpl. set_solver.
Qed.

Lemma add_accepts_fresh_once_witness :
  let E := Sample.env Sample.steady in
  let q := URLQueue.new (Int 50) in
  let q' := snd (URLQueue.add E "http://site.test/A#top" 0 q) in
  exists n,
    URLQueue.normalize E "http://site.test/A#top" = Some n
    /\ URLQueue.queue q'
       = (URLQueue.queue q
          ++ [{| URLQueue.item_url := n; URLQueue.item_depth := 0 |}])
    /\ URLQueue.visited q' = URLQueue.visited q ∪ {[ n ]}
    /\ URLQueue.size q' = URLQueue.size q + 1
    /\ URLQueue.maxPages q' = URLQueue.maxPages q
    /\ forall d2, URLQueue.add E "http://site.test/A#top" d2 q' = (false, q').
Proof.
  cbv zeta.
  apply (proj2 (add_accepts_fresh_once (Sample.env Sample.steady)
                  "http://site.test/A#top" 0 (URLQueue.new (Int 50)))).
  vm_compute. reflexivity.
Defined.

(** C1 as stated fails: with [maxPages] NaN, what [parseInt] makes of a
    page limit that is not a number, [visited.size < maxPages] is false and
    [add] accepts all the same, one url after the other. *)
Lemma add_accepts_when_maxPages_is_NaN :
  let E := Sample.env Sample.steady in
  let q0 := URLQueue.new NaN in
  let q1 := snd (URLQueue.add E "http://site.test/A" 0 q0) in
  let q2 := snd (URLQueue.add E "http://site.test/B" 1 q1) in
  let q3 := snd (URLQueue.add E "http://site.test/C" 1 q2) in
  js_lt (URLQueue.size q0) (URLQueue.maxPages q0) = false
  /\ fst (URLQueue.add E "http://site.test/A" 0 q0) = true
  /\ js_lt (URLQueue.size q1) (URLQueue.maxPages q1) = false
  /\ fst (URLQueue.add E "http://site.test/B" 1 q1) = true
  /\ fst (URLQueue.add E "http://site.test/C" 1 q2) = true
  /\ URLQueue.size q3 = 3
  /\ map URLQueue.item_url (URLQueue.queue q3)
     = ["http://site.test/A"; "http://site.test/B"; "http://site.test/C"].
Proof. cbv zeta. repeat split; vm_compute; reflexivity. Qed.

(** Two urls with one normal form are one entry. *)
Lemma add_same_normal_form_refused (E : Env) (u u2 : string) (d d2 : Z)
      (q q' : URLQueue.t) :
  URLQueue.normalize E u2 = URLQueue.normalize E u ->
  URLQueue.add E u d q = (true, q') ->
  URLQueue.add E u2 d2 q' = (false, q').
Proof.
  intros Hsame Hadd.
  destruct (add_true_inv _ _ _ _ _ Hadd) as (n & Hn & _ & _ & _ & ->).
  apply add_visited_refused with (n := n); [congruence |].
  simpl. set_solver.
Qed.

Lemma normalize_unfold (E : Env) (u : string) (parsed : URL) :
  URL_new E u = Some parsed ->
  let bare :=
    scheme_authority parsed +:+ pathname parsed
    +:+ match query parsed with Some q => "?" +:+ q | None => EmptyString end in
  URLQueue.normalize E u
  = Some (if endsWith bare "/" then slice_0_m1 bare else bare).
Proof.
  intros Hp. unfold URLQueue.normalize, URLQueue.normalized_href, href.
  rewrite Hp. simpl. now rewrite str_nil_r.
Qed.

(** C8, as the code has it.  A malformed url gives [null] and [add] returns
    false, the frontier unchanged, nothing thrown.  Otherwise the normal
    form is the serialised url without its fragment, less one slash if that
    text ends with one: the slash is cut from the end of the text, which is
    the end of the path exactly when there is no query.  Two urls with the
    same normal form are one frontier entry. *)
Theorem normalize_cuts_fragment_and_final_slash :
  forall (E : Env) (u : string),
    (URL_new E u = None ->
       URLQueue.normalize E u = None
       /\ forall d q, URLQueue.add E u d q = (false, q))
    /\ (forall parsed,
          URL_new E u = Some parsed ->
          let bare :=
            scheme_authority parsed +:+ pathname parsed
            +:+ match query parsed with
                | Some q => "?" +:+ q
                | None => EmptyString
                end in
          URLQueue.normalize E u
          = Some (if endsWith bare "/" then slice_0_m1 bare else bare)
          /\ (forall p0,
                query parsed = None ->
                pathname parsed = p0 +:+ "/" ->
                URLQueue.normalize E u = Some (scheme_authority parsed +:+ p0))
          /\ (forall u2 d d2 q q',
                URLQueue.normalize E u2 = URLQueue.normalize E u ->
                URLQueue.add E u d q = (true, q') ->
                URLQueue.add E u2 d2 q' = (false, q'))).
Proof.
  intros E u. split.
  - intros Hbad. unfold URLQueue.add, URLQueue.normalize. rewrite Hbad. auto.
  - intros parsed Hp bare. split; [exact (normalize_unfold E u parsed Hp) |].
    split.
    + intros p0 Hq Hpath.
      rewrite (normalize_unfold E u parsed Hp). rewrite Hq, Hpath.
      rewrite str_nil_r, <- str_assoc.
      now rewrite endsWith_append, slice_0_m1_append.
    + intros u2 d d2 q q'. apply add_same_normal_form_refused.
Qed.

Lemma normalize_cuts_fragment_and_final_slash_witness :
  let E := Sample.env Sample.steady in
  (URLQueue.normalize E "not a url" = None
   /\ forall d q, URLQueue.add E "not a url" d q = (false, q))
  /\ URLQueue.normalize E "http://site.test/A/" = Some "http://site.test/A"
  /\ URLQueue.add E "http://site.test/A#top" 1
       (snd (URLQueue.add E "http://site.test/A/" 0 (URLQueue.new (Int 50))))
     = (false, snd (URLQueue.add E "http://site.test/A/" 0 (URLQueue.new (Int 50)))).
Proof.
  cbv zeta.
  pose proof (normalize_cuts_fragment_and_final_slash
                (Sample.env Sample.steady) "not a url") as [Hbad _].
  pose proof (normalize_cuts_fragment_and_final_slash
                (Sample.env Sample.steady) "http://site.test/A/") as [_ Hok].
  specialize (Hok (Sample.http "site.test" "/A/" None None) eq_refl).
  destruct Hok as (_ & Hpath & Hone).
  split; [exact (Hbad eq_refl) |].
  split; [apply (Hpath "/A"); reflexivity |].
  apply (Hone "http://site.test/A#top" 0 1 (URLQueue.new (Int 50)));
    vm_compute; reflexivity.
Defined.

(** C8 as stated fails: before a query the path keeps its final slash, so
    the two spellings of one page are two frontier entries. *)
Lemma path_slash_kept_before_query :
  let E := Sample.env Sample.steady in
  let u := "http://site.test/docs/?page=1" in
  let parsed := Sample.http "site.test" "/docs/" (Some "page=1") None in
  URL_new E u = Some parsed
  /\ URLQueue.normalize E u = Some "http://site.test/docs/?page=1"
  /\ normalized_by_path parsed = "http://site.test/docs?page=1"
  /\ URLQueue.normalize E u <> Some (normalized_by_path parsed)
  /\ map URLQueue.item_url
       (URLQueue.queue
          (snd (URLQueue.add E "http://site.test/docs?page=1" 1
                  (snd (URLQueue.add E u 1 (URLQueue.new (Int 50)))))))
     = ["http://site.test/docs/?page=1"; "http://site.test/docs?page=1"].
Proof.
  cbv zeta. repeat split; try (vm_compute; reflexivity).
  vm_compute. discriminate.
Qed.

(** ** The CSV report *)

Lemma double_quotes_append (a b : string) :
  double_quotes (a +:+ b) = double_quotes a +:+ double_quotes b.
Proof.
  induction a as [|c a IH]; [reflexivity |].
  rewrite str_cons. simpl. destruct (Ascii.eqb c DQUOTE).
  - now rewrite !str_cons, IH.
  - now rewrite str_cons, IH.
Qed.

Lemma csv_lines_length (ps : list PageRecord) :
  length (Report.csv_lines ps) = S (length ps).
Proof. unfold Report.csv_lines. simpl. now rewrite !length_map. Qed.

(** C9, as the code has it.  With format csv, [saveResults] writes no JSON
    document and a CSV text whose lines are the header
    [url,depth,title,statusCode,loadTime,linksCount,imagesCount,timestamp]
    and then one line per recorded page, in order.  In a line the url is put
    between double quotes as it is, the title between double quotes with each
    double quote of its own written twice, and the numbers and the timestamp
    bare. *)
Theorem csv_report_layout :
  forall (E : Env) (w : WebCrawler.t),
    WebCrawler.format w = "csv" ->
    let ps := CrawlResult.pages (WebCrawler.result w) in
    let Q := quote_mark in
    Report.json_file (Report.saveResults E w) = None
    /\ Report.csv_file (Report.saveResults E w)
       = Some (join Report.LF (Report.csv_lines ps))
    /\ length (Report.csv_lines ps) = S (length ps)
    /\ Report.csv_lines ps
       = "url,depth,title,statusCode,loadTime,linksCount,imagesCount,timestamp"
         :: map (fun p =>
                   Q +:+ url p +:+ Q +:+ ","
                   +:+ String_of_number (depth p) +:+ ","
                   +:+ Q +:+ double_quotes (title (content p)) +:+ Q +:+ ","
                   +:+ String_of_number (statusCode p) +:+ ","
                   +:+ String_of_number (loadTime p) +:+ ","
                   +:+ String_of_number (Z.of_nat (length (links (content p)))) +:+ ","
                   +:+ String_of_number (Z.of_nat (length (images (content p)))) +:+ ","
                   +:+ timestamp p) ps
    /\ double_quotes Q = Q +:+ Q
    /\ (forall c, c <> DQUOTE ->
          double_quotes (String c EmptyString) = String c EmptyString)
    /\ (forall a b, double_quotes (a +:+ b) = double_quotes a +:+ double_quotes b).
Proof.
  intros E w Hcsv ps Q.
  split; [unfold Report.saveResults; rewrite Hcsv; reflexivity |].
  split; [unfold Report.saveResults; rewrite Hcsv; reflexivity |].
  split; [apply csv_lines_length |].
  split.
  { unfold Report.csv_lines. f_equal. rewrite map_map.
    apply map_ext. intros p. unfold Report.row. cbn [join].
    now rewrite !str_assoc. }
  split; [reflexivity |].
  split; [| apply double_quotes_append].
  intros c Hc. simpl. destruct (Ascii.eqb_spec c DQUOTE); [contradiction | reflexivity].
Qed.

Lemma csv_report_layout_witness :
  let E := Sample.env Sample.steady in
  let r := CrawlResult.addPage Sample.quoted_page
             (CrawlResult.addPage Sample.a_page (CrawlResult.new 0)) in
  let w := WebCrawler.set_result r
             (WebCrawler.new E (Sample.options "http://site.test/A" (Int 2) (Int 50) "csv")) in
  Report.csv_file (Report.saveResults E w)
  = Some (join Report.LF (Report.csv_lines [Sample.a_page; Sample.quoted_page]))
  /\ length (Report.csv_lines [Sample.a_page; Sample.quoted_page]) = 3%nat.
Proof.
  cbv zeta.
  destruct (csv_report_layout (Sample.env Sample.steady)
              (WebCrawler.set_result
                 (CrawlResult.addPage Sample.quoted_page
                    (CrawlResult.addPage Sample.a_page (CrawlResult.new 0)))
                 (WebCrawler.new (Sample.env Sample.steady)
                    (Sample.options "http://site.test/A" (Int 2) (Int 50) "csv")))
              eq_refl) as (_ & Hfile & Hlen & _).
  split; [exact Hfile | exact Hlen].
Defined.

(** C9 as stated fails: the timestamp is a string and is written without
    quotes, and the fifth header cell is [loadTime]. *)
Lemma csv_timestamp_unquoted :
  let cells := Report.row Sample.a_page in
  timestamp Sample.a_page = "T+2000"
  /\ nth 7 cells EmptyString = "T+2000"
  /\ nth 7 cells EmptyString
     <> quote_mark +:+ double_quotes (timestamp Sample.a_page) +:+ quote_mark
  /\ nth 4 Report.headers EmptyString = "loadTime"
  /\ nth 4 Report.headers EmptyString <> "loadTimeMs".
Proof. cbv zeta. repeat split; try reflexivity; vm_compute; discriminate. Qed.

(** ** One attempt *)

Import WebCrawler.
Local Open Scope js_scope.

Lemma same_settings_refl (w : WebCrawler.t) : same_settings w w.
Proof. unfold same_settings. auto. Qed.

Lemma same_settings_trans (w1 w2 w3 : WebCrawler.t) :
  same_settings w1 w2 -> same_settings w2 w3 -> same_settings w1 w3.
Proof. unfold same_settings. intuition congruence. Qed.

Lemma attempt_ok_same_settings (E : Env) (w w' : WebCrawler.t) u dep n :
  same_settings w w' -> attempt_ok E w' u dep n = attempt_ok E w u dep n.
Proof.
  intros (Hb & Hd & _). unfold attempt_ok. now rewrite Hb, Hd.
Qed.

(** With a page budget, [add] keeps the amount of work: an admission
    queues one entry and uses one unit of the budget. *)
Lemma add_work (E : Env) (u : string) (d : Z) (q : URLQueue.t) :
  URLQueue.maxPages q <> NaN ->
  work (snd (URLQueue.add E u d q)) = work q.
Proof.
  intros Hbudget.
  destruct (URLQueue.add E u d q) as [[|] q'] eqn:Hadd; simpl.
  - destruct (add_true_inv _ _ _ _ _ Hadd) as (n & _ & _ & Hfresh & Hroom & ->).
    apply js_ge_false in Hroom as [Hnan | (m & Hm & Hroom)]; [contradiction |].
    unfold work, URLQueue.size in *. simpl. rewrite Hm.
    rewrite length_app, size_union by set_solver. rewrite size_singleton.
    simpl. lia.
  - now rewrite (add_false_inv _ _ _ _ _ Hadd).
Qed.

Lemma add_maxPages (E : Env) (u : string) (d : Z) (q : URLQueue.t) :
  URLQueue.maxPages (snd (URLQueue.add E u d q)) = URLQueue.maxPages q.
Proof.
  destruct (URLQueue.add E u d q) as [[|] q'] eqn:Hadd; simpl.
  - now destruct (add_true_inv _ _ _ _ _ Hadd) as (n & _ & _ & _ & _ & ->).
  - now rewrite (add_false_inv _ _ _ _ _ Hadd).
Qed.

(** What [add] appends: nothing, or the entry of the normal form. *)
Lemma add_queue (E : Env) (u : string) (d : Z) (q : URLQueue.t) :
  URLQueue.queue (snd (URLQueue.add E u d q))
  = URLQueue.queue q
    ++ match URLQueue.normalize E u with
       | Some n =>
           if fst (URLQueue.add E u d q)
           then [{| URLQueue.item_url := n; URLQueue.item_depth := d |}]
           else []
       | None => []
       end.
Proof.
  destruct (URLQueue.add E u d q) as [[|] q'] eqn:Hadd; simpl.
  - destruct (add_true_inv _ _ _ _ _ Hadd) as (n & -> & _ & _ & _ & ->). reflexivity.
  - rewrite (add_false_inv _ _ _ _ _ Hadd).
    destruct (URLQueue.normalize E u); now rewrite app_nil_r.
Qed.

(** The [for] loop over the links: it returns, keeps everything but the
    queue, and appends, in the order of the links, entries at the given
    depth for some of their normal forms. *)
Lemma add_links_effect (E : Env) (ls : list string) (d : Z) :
  forall (a : Z) (w : WebCrawler.t),
  exists a' q' new,
    add_links E ls d a w = (Normal a', set_queue q' w)
    /\ URLQueue.queue q' = URLQueue.queue (queue w) ++ new
    /\ Forall (fun it => URLQueue.item_depth it = d) new
    /\ map URLQueue.item_url new `sublist_of` normal_forms E ls
    /\ URLQueue.maxPages q' = URLQueue.maxPages (queue w)
    /\ (URLQueue.maxPages (queue w) <> NaN -> work q' = work (queue w)).
Proof.
  induction ls as [|l ls IH]; intros a w.
  - exists a, (queue w), []. simpl. unfold ret.
    rewrite app_nil_r. repeat split; auto.
    destruct w; reflexivity.
  - simpl. unfold bind at 1, queue_add, bind at 1, get.
    pose proof (add_work E l d (queue w)) as Hwork.
    pose proof (add_maxPages E l d (queue w)) as Hmax.
    pose proof (add_queue E l d (queue w)) as Hq.
    destruct (URLQueue.add E l d (queue w)) as [accepted q1]. simpl in *.
    unfold bind, modify, ret. simpl.
    destruct (IH (if accepted then a + 1 else a) (set_queue q1 w))
      as (a' & q' & new & Hrun & Hnew & Hdepth & Hsub & Hmax' & Hwork').
    simpl in *. rewrite Hrun.
    eexists a', q', _. split; [reflexivity |].
    rewrite Hnew, Hq, <- app_assoc. split; [reflexivity |].
    assert (Hw : URLQueue.maxPages (queue w) <> NaN -> work q' = work (queue w)).
    { intros Hb. rewrite Hwork', Hwork; [reflexivity | exact Hb | congruence]. }
    unfold normal_forms. simpl.
    destruct (URLQueue.normalize E l) as [n|]; [destruct accepted |]; simpl.
    + repeat split; try congruence; try exact Hw.
      * constructor; [reflexivity | exact Hdepth].
      * now apply sublist_skip.
    + repeat split; try congruence; try exact Hw. now apply sublist_cons.
    + repeat split; try congruence; try exact Hw. exact Hsub.
Qed.


Lemma normal_forms_filter (E : Env) (keep : string -> bool) (ls : list string) :
  normal_forms E (List.filter keep ls) `sublist_of` normal_forms E ls.
Proof.
  unfold normal_forms. induction ls as [|l ls IH]; simpl; [constructor |].
  destruct (keep l); simpl.
  - destruct (URLQueue.normalize E l); [now apply sublist_skip | exact IH].
  - destruct (URLQueue.normalize E l); [now apply sublist_cons | exact IH].
Qed.

Lemma attempt_effect (E : Env) (C : Config) (u : string) (dep ps : Z) (w : t) :
  exists c w1 new,
    attempt E C u dep ps w = (c, w1)
    /\ same_settings w w1
    /\ attempts w1 = S (attempts w)
    /\ trace w1 = trace w ++ [Visit u]
    /\ URLQueue.queue (queue w1) = URLQueue.queue (queue w) ++ new
    /\ (URLQueue.maxPages (queue w) <> NaN -> work (queue w1) = work (queue w))
    /\ match c with
       | Normal _ =>
           attempt_ok E w u dep (attempts w) = true
           /\ Forall (fun it => URLQueue.item_depth it = dep + 1
                                /\ js_lt dep (maxDepth w) = true) new
           /\ exists p response,
               result w1 = CrawlResult.addPage p (result w)
               /\ url p = u /\ depth p = dep
               /\ goto E (attempts w) u = Navigated response (Extracted (content p))
               /\ statusCode p = status_or_0 response
               /\ map URLQueue.item_url new
                  `sublist_of` normal_forms E (map link_href (links (content p)))
       | Throw e =>
           attempt_ok E w u dep (attempts w) = false
           /\ new = [] /\ result w1 = result w
       | OutOfFuel => False
       end.
Proof.
  unfold attempt, attempt_ok.
  unfold bind at 1, get. unfold bind at 1, modify.
  destruct (goto E (attempts w) u) as [e|e|response [e|d]].
  - unfold throw. eexists _, _, []. simpl. rewrite app_nil_r.
    repeat split; reflexivity.
  - unfold bind, getNextUserAgent, bind, get, modify, ret, throw. simpl.
    eexists _, _, []. simpl. rewrite app_nil_r. repeat split; reflexivity.
  - unfold bind at 1, getNextUserAgent, bind, get, modify, ret, check_status. simpl.
    destruct (400 <=? status_or_0 response); unfold throw, ret; simpl;
      eexists _, _, []; simpl; rewrite app_nil_r; repeat split; reflexivity.
  - unfold bind at 1, getNextUserAgent, bind at 1 2, get, modify, ret. simpl.
    unfold bind at 1, check_status.
    destruct (400 <=? status_or_0 response) eqn:Hstatus; unfold throw, ret; simpl.
    { eexists _, _, []; simpl; rewrite app_nil_r; repeat split; reflexivity. }
    unfold bind at 1, extractPageData, now_iso, now, bind, get, modify, ret. simpl.
    destruct (js_lt dep (maxDepth w)) eqn:Hdeep.
    + unfold filterLinks, bind at 1, get. simpl.
      destruct (URL_new E (baseUrl w)) as [base|] eqn:Hbase; unfold throw, ret.
      * match goal with
        | |- context [add_links E ?ls ?d ?a ?w0] =>
            destruct (add_links_effect E ls d a w0)
              as (a' & q' & new & Hrun & Hnew & Hdepth & Hsub & Hmax & Hwork);
            rewrite Hrun
        end.
        simpl in *.
        eexists _, _, new. split; [reflexivity |]. simpl.
        split; [unfold same_settings; simpl; auto |].
        repeat split; auto.
        { eapply Forall_impl; [exact Hdepth |]. intros it Hit.
          split; [exact Hit | reflexivity]. }
        eexists _, response. simpl. repeat split.
        etransitivity; [exact Hsub | apply normal_forms_filter].
      * eexists _, _, []. simpl. rewrite app_nil_r. repeat split; reflexivity.
    + eexists _, _, []. simpl. rewrite app_nil_r.
      split; [reflexivity |]. repeat split; auto.
      eexists _, response. simpl. repeat split. apply sublist_nil_l.
Qed.

(** ** The retry loop *)

Lemma retry_loop_unfold (E : Env) (C : Config) (fuel : nat) u dep ps retries :
  retry_loop E C fuel u dep ps retries
  = if (retries <=? MAX_RETRIES C)%nat then
      match fuel with
      | O => out_of_fuel
      | S fuel' =>
          r <- try_catch (attempt E C u dep ps) ;;
          match r with
          | inl _ => ret tt
          | inr err =>
              (if (MAX_RETRIES C <? S retries)%nat
               then addError E u err
               else sleep (RETRY_DELAY C * Z.of_nat (S retries))) ;;
              retry_loop E C fuel' u dep ps (S retries)
          end
      end
    else ret tt.
Proof. destruct fuel; reflexivity. Qed.

Lemma retry_loop_effect (E : Env) (C : Config) (u : string) (dep ps : Z) :
  forall (fuel retries : nat) (w : t),
    (retries <= MAX_RETRIES C)%nat ->
    (S (MAX_RETRIES C) - retries <= fuel)%nat ->
    exists w1 j new,
      retry_loop E C fuel u dep ps retries w = (Normal tt, w1)
      /\ same_settings w w1
      /\ (forall i, (i < j)%nat -> attempt_ok E w u dep (attempts w + i) = false)
      /\ URLQueue.queue (queue w1) = URLQueue.queue (queue w) ++ new
      /\ (URLQueue.maxPages (queue w) <> NaN -> work (queue w1) = work (queue w))
      /\ Forall (fun it => URLQueue.item_depth it = dep + 1
                           /\ js_lt dep (maxDepth w) = true) new
      /\ if (retries + j <=? MAX_RETRIES C)%nat then
           attempt_ok E w u dep (attempts w + j) = true
           /\ attempts w1 = (attempts w + S j)%nat
           /\ trace w1 = trace w ++ backoff C u retries j ++ [Visit u]
           /\ exists p response,
               result w1 = CrawlResult.addPage p (result w)
               /\ url p = u /\ depth p = dep
               /\ goto E (attempts w + j) u = Navigated response (Extracted (content p))
               /\ statusCode p = status_or_0 response
               /\ map URLQueue.item_url new
                  `sublist_of` normal_forms E (map link_href (links (content p)))
         else
           (retries + j = S (MAX_RETRIES C))%nat
           /\ attempts w1 = (attempts w + j)%nat
           /\ trace w1
              = trace w ++ backoff C u retries (MAX_RETRIES C - retries) ++ [Visit u]
           /\ new = []
           /\ exists e ts, result w1 = CrawlResult.addError u e ts (result w).
Proof.
  induction fuel as [|fuel IH]; intros retries w Hle Hfuel; [lia |].
  rewrite retry_loop_unfold.
  destruct (Nat.leb_spec retries (MAX_RETRIES C)) as [_|]; [|lia].
  unfold bind at 1, try_catch.
  destruct (attempt_effect E C u dep ps w)
    as (c & wa & new & Hrun & Hset & Hatt & Htrace & Hq & Hwork & Hc).
  rewrite Hrun. destruct c as [[]|e|]; [| |contradiction].
  - (* the attempt succeeded: break *)
    destruct Hc as (Hok & Hdepth & p & response & Hp).
    exists wa, 0%nat, new. unfold ret.
    rewrite !Nat.add_0_r.
    destruct (Nat.leb_spec retries (MAX_RETRIES C)) as [_|]; [|lia].
    split; [reflexivity |]. split; [exact Hset |].
    split; [intros i Hi; lia |].
    split; [exact Hq |]. split; [exact Hwork |]. split; [exact Hdepth |].
    split; [exact Hok |]. split; [rewrite Hatt; lia |].
    split; [exact Htrace |].
    exists p, response. exact Hp.
  - (* the attempt failed *)
    destruct Hc as (Hbad & -> & Hres).
    rewrite app_nil_r in Hq.
    destruct (Nat.ltb_spec (MAX_RETRIES C) (S retries)) as [Hlast|Hmore].
    + (* no retry left: the error is recorded and the loop ends *)
      assert (retries = MAX_RETRIES C) as -> by lia.
      unfold bind at 1, addError, bind at 1, now_iso, bind at 1, now, bind, get,
        modify, ret. simpl.
      rewrite retry_loop_unfold.
      destruct (Nat.leb_spec (S (MAX_RETRIES C)) (MAX_RETRIES C)) as [|_]; [lia |].
      unfold ret.
      eexists _, 1%nat, []. split; [reflexivity |]. simpl.
      rewrite app_nil_r.
      destruct Hset as (? & ? & ? & ? & ?).
      split; [unfold same_settings; simpl; auto |].
      split.
      { intros i Hi. assert (i = 0%nat) as -> by lia. now rewrite Nat.add_0_r. }
      split; [exact Hq |]. split; [exact Hwork |]. split; [constructor |].
      destruct (Nat.leb_spec (MAX_RETRIES C + 1) (MAX_RETRIES C)) as [|_]; [lia |].
      rewrite Nat.sub_diag. simpl.
      repeat split; try lia; auto.
      rewrite Hres. eexists _, _. reflexivity.
    + (* sleep, then try again *)
      unfold bind at 1, sleep, modify.
      destruct (IH (S retries) (record_sleep (RETRY_DELAY C * Z.of_nat (S retries)) wa))
        as (w1 & j & new & Hloop & Hset1 & Hfail & Hq1 & Hwork1 & Hdepth1 & Hend);
        [lia | lia |].
      rewrite Hloop. exists w1, (S j), new.
      assert (Hset' : same_settings w
                        (record_sleep (RETRY_DELAY C * Z.of_nat (S retries)) wa)).
      { destruct Hset as (? & ? & ? & ? & ?). unfold same_settings. simpl. auto. }
      simpl in Hq1, Hwork1, Hfail.
      cbn [attempts trace result record_sleep] in Hend.
      split; [reflexivity |].
      split; [eapply same_settings_trans; eassumption |].
      split.
      { intros [|i] Hi; [now rewrite Nat.add_0_r |].
        specialize (Hfail i ltac:(lia)).
        rewrite (attempt_ok_same_settings E _ _ u dep _ Hset') in Hfail.
        rewrite Hatt in Hfail.
        now replace (attempts w + S i)%nat with (S (attempts w) + i)%nat by lia. }
      split; [now rewrite Hq1, Hq |].
      split.
      { intros Hb. rewrite Hwork1, Hwork; [reflexivity | exact Hb |].
        destruct Hset' as (_ & _ & _ & _ & Hqm). simpl in Hqm. now rewrite Hqm. }
      split.
      { destruct Hset' as (_ & Hd & _). simpl in Hd.
        eapply Forall_impl; [exact Hdepth1 |]. simpl. intros it. now rewrite Hd. }
      replace (retries + S j)%nat with (S retries + j)%nat by lia.
      rewrite Hatt, Htrace, Hres in Hend.
      rewrite (attempt_ok_same_settings E _ _ u dep _ Hset') in Hend.
      replace (attempts w + S j)%nat with (S (attempts w) + j)%nat by lia.
      replace (attempts w + S (S j))%nat with (S (attempts w) + S j)%nat by lia.
      destruct (S retries + j <=? MAX_RETRIES C)%nat.
      * destruct Hend as (Hok & Hatt1 & Htr1 & Hp).
        repeat split; auto.
        rewrite Htr1. simpl. now rewrite <- !app_assoc.
      * destruct Hend as (Hj & Hatt1 & Htr1 & Hnew & Herr).
        repeat split; auto.
        rewrite Htr1.
        replace (MAX_RETRIES C - retries)%nat
          with (S (MAX_RETRIES C - S retries)) by lia.
        simpl. now rewrite <- !app_assoc.
Qed.

(** ** One page *)

(** [crawlPage] always returns; what it leaves behind is told by the number
    [j] of attempts that failed before one got through, if any did. *)
Lemma crawlPage_effect (E : Env) (C : Config) (u : string) (dep : Z) (w : t) :
  exists w1 j new,
    crawlPage E C u dep w = (Normal tt, w1)
    /\ same_settings w w1
    /\ (forall i, (i < j)%nat -> attempt_ok E w u dep (attempts w + i) = false)
    /\ URLQueue.queue (queue w1) = URLQueue.queue (queue w) ++ new
    /\ (URLQueue.maxPages (queue w) <> NaN -> work (queue w1) = work (queue w))
    /\ Forall (fun it => URLQueue.item_depth it = dep + 1
                         /\ js_lt dep (maxDepth w) = true) new
    /\ if (j <=? MAX_RETRIES C)%nat then
         attempt_ok E w u dep (attempts w + j) = true
         /\ attempts w1 = (attempts w + S j)%nat
         /\ trace w1 = trace w ++ backoff C u 0 j ++ [Visit u]
         /\ exists p response,
             result w1 = CrawlResult.addPage p (result w)
             /\ url p = u /\ depth p = dep
             /\ goto E (attempts w + j) u = Navigated response (Extracted (content p))
             /\ statusCode p = status_or_0 response
             /\ map URLQueue.item_url new
                `sublist_of` normal_forms E (map link_href (links (content p)))
       else
         j = S (MAX_RETRIES C)
         /\ attempts w1 = (attempts w + j)%nat
         /\ trace w1 = trace w ++ backoff C u 0 (MAX_RETRIES C) ++ [Visit u]
         /\ new = []
         /\ exists e ts, result w1 = CrawlResult.addError u e ts (result w).
Proof.
  unfold crawlPage, bind at 1, now, bind, get, modify, ret. cbv beta iota.
  set (w0 := set_clock_reads (S (clock_reads w)) w).
  assert (Hset0 : same_settings w w0) by (unfold same_settings; simpl; auto).
  destruct (retry_loop_effect E C u dep (Date_now E (clock_reads w))
              (S (MAX_RETRIES C)) 0 w0)
    as (w1 & j & new & Hloop & Hset & Hfail & Hq & Hwork & Hdepth & Hend);
    [lia | lia |].
  exists w1, j, new. rewrite Hloop.
  split; [reflexivity |].
  split; [exact (same_settings_trans _ _ _ Hset0 Hset) |].
  split.
  { intros i Hi. rewrite <- (attempt_ok_same_settings E w w0 u dep _ Hset0).
    now apply Hfail. }
  split; [exact Hq |]. split; [exact Hwork |]. split; [exact Hdepth |].
  rewrite (attempt_ok_same_settings E w w0 u dep _ Hset0) in Hend.
  rewrite Nat.sub_0_r in Hend. exact Hend.
Qed.

Lemma queue_add_run (E : Env) (u : string) (d : Z) (w : t) :
  queue_add E u d w
  = (Normal (fst (URLQueue.add E u d (queue w))),
     set_queue (snd (URLQueue.add E u d (queue w))) w).
Proof.
  unfold queue_add, bind, get, modify, ret.
  destruct (URLQueue.add E u d (queue w)); reflexivity.
Qed.

Lemma add_links_run (E : Env) (ls : list string) (d : Z) :
  forall (a : Z) (w : WebCrawler.t),
    exists a',
      add_links E ls d a w = (Normal a', set_queue (add_all E ls d (queue w)) w).
Proof.
  induction ls as [|l ls IH]; intros a w.
  - exists a. unfold add_all. simpl. unfold ret. destruct w; reflexivity.
  - simpl. unfold bind at 1. rewrite queue_add_run.
    destruct (IH (if fst (URLQueue.add E l d (queue w)) then a + 1 else a)
                 (set_queue (snd (URLQueue.add E l d (queue w))) w)) as (a' & Hrun).
    rewrite Hrun. exists a'. reflexivity.
Qed.

Lemma add_all_app (E : Env) (l1 l2 : list string) (d : Z) (q : URLQueue.t) :
  add_all E (l1 ++ l2) d q = add_all E l2 d (add_all E l1 d q).
Proof. unfold add_all. apply fold_left_app. Qed.

(** A sequence of [add] calls is a use of the frontier. *)
Lemma add_all_calls (E : Env) (ls : list string) (d : Z) (q : URLQueue.t) :
  frontier_calls E (map (fun l => CallAdd l d) ls) q = ([], add_all E ls d q).
Proof.
  revert q. induction ls as [|l ls IH]; intros q; [reflexivity |].
  simpl. apply IH.
Qed.

Lemma attempt_ok_error (E : Env) (w : WebCrawler.t) (u : string) (dep : Z) (n : nat) :
  attempt_ok E w u dep n = true <-> attempt_error E w u dep n = None.
Proof.
  unfold attempt_ok, attempt_error.
  destruct (goto E n u) as [e|e|response [e|d]]; try (split; discriminate).
  - destruct (400 <=? status_or_0 response); split; discriminate.
  - destruct (400 <=? status_or_0 response); simpl; [split; discriminate |].
    destruct (js_lt dep (maxDepth w)); simpl; [| split; reflexivity].
    destruct (bool_decide (is_Some (URL_new E (baseUrl w)))); simpl;
      split; congruence.
Qed.

(** One attempt: whether it throws and what, and that it touches the
    frontier only by [add] calls one level down, none if it throws. *)
Lemma attempt_outcome (E : Env) (C : Config) (u : string) (dep ps : Z) (w : WebCrawler.t) :
  exists ls w1,
    attempt E C u dep ps w
    = (match attempt_error E w u dep (attempts w) with
       | Some e => Throw e
       | None => Normal tt
       end, w1)
    /\ queue w1 = add_all E ls (dep + 1) (queue w)
    /\ (attempt_error E w u dep (attempts w) <> None -> ls = [])
    /\ (userAgentIdx w <= userAgentIdx w1)%nat
    /\ (clock_reads w <= clock_reads w1)%nat.
Proof.
  unfold attempt, attempt_error.
  unfold bind at 1, get. unfold bind at 1, modify.
  destruct (goto E (attempts w) u) as [e|e|response [e|d]].
  - eexists [], _. unfold throw. split; [reflexivity |]. simpl. repeat split; auto.
  - eexists [], _. unfold bind, getNextUserAgent, bind, get, modify, ret, throw.
    simpl. split; [reflexivity |]. simpl. repeat split; auto; lia.
  - unfold bind at 1, getNextUserAgent, bind, get, modify, ret, check_status.
    simpl. destruct (400 <=? status_or_0 response); unfold throw, ret; simpl;
      (eexists [], _; split; [reflexivity |]; simpl; repeat split; auto; lia).
  - unfold bind at 1, getNextUserAgent, bind at 1 2, get, modify, ret. simpl.
    unfold bind at 1, check_status.
    destruct (400 <=? status_or_0 response) eqn:Hstatus; unfold throw, ret; simpl.
    { eexists [], _. split; [reflexivity |]. simpl. repeat split; auto; lia. }
    unfold bind at 1, extractPageData, now_iso, now, bind, get, modify, ret. simpl.
    destruct (js_lt dep (maxDepth w)) eqn:Hdeep; simpl.
    + unfold filterLinks, bind at 1, get. simpl.
      destruct (URL_new E (baseUrl w)) as [base|] eqn:Hbase; unfold throw, ret.
      * match goal with
        | |- context [add_links E ?ls ?d ?a ?w0] =>
            destruct (add_links_run E ls d a w0) as (a' & Hrun);
            rewrite Hrun; exists ls
        end.
        rewrite bool_decide_eq_true_2 by eauto. simpl.
        eexists. split; [reflexivity |]. simpl.
        repeat split; auto; try lia; try congruence.
      * rewrite bool_decide_eq_false_2 by (intros [? ?]; discriminate). simpl.
        eexists [], _. split; [reflexivity |]. simpl. repeat split; auto; lia.
    + eexists [], _. split; [reflexivity |]. simpl.
      repeat split; auto; try lia; try congruence.
Qed.

Lemma attempt_error_same_settings (E : Env) (w w' : WebCrawler.t) u dep n :
  same_settings w w' -> attempt_error E w' u dep n = attempt_error E w u dep n.
Proof.
  intros (Hb & Hd & _). unfold attempt_error. now rewrite Hb, Hd.
Qed.

(** The retry loop: it touches the frontier only by [add] calls one level
    down; the user agent index and the clock only advance; and when every
    attempt fails, the error recorded is the error of the last attempt. *)
Lemma retry_loop_outcome (E : Env) (C : Config) (u : string) (dep ps : Z) :
  forall (fuel retries : nat) (w : WebCrawler.t),
    (retries <= MAX_RETRIES C)%nat ->
    (S (MAX_RETRIES C) - retries <= fuel)%nat ->
    exists ls w1,
      retry_loop E C fuel u dep ps retries w = (Normal tt, w1)
      /\ queue w1 = add_all E ls (dep + 1) (queue w)
      /\ (userAgentIdx w <= userAgentIdx w1)%nat
      /\ (clock_reads w <= clock_reads w1)%nat
      /\ ((forall k, (k <= MAX_RETRIES C - retries)%nat ->
                     attempt_error E w u dep (attempts w + k) <> None) ->
          exists e ts,
            attempt_error E w u dep (attempts w + (MAX_RETRIES C - retries)) = Some e
            /\ result w1 = CrawlResult.addError u e ts (result w)).
Proof.
  induction fuel as [|fuel IH]; intros retries w Hle Hfuel; [lia |].
  rewrite retry_loop_unfold.
  destruct (Nat.leb_spec retries (MAX_RETRIES C)) as [_|]; [|lia].
  unfold bind at 1, try_catch.
  destruct (attempt_outcome E C u dep ps w) as (ls1 & wa & Hrun & Hq & Hnil & Hua & Hclk).
  destruct (attempt_effect E C u dep ps w)
    as (c & wa' & new & Hrun' & Hset & Hatt & _ & _ & _ & Hc).
  rewrite Hrun in Hrun'. injection Hrun' as <- <-. rewrite Hrun.
  destruct (attempt_error E w u dep (attempts w)) as [e|] eqn:Herr.
  - (* the attempt failed *)
    destruct Hc as (_ & _ & Hres).
    rewrite (Hnil ltac:(discriminate)) in Hq. unfold add_all in Hq. simpl in Hq.
    destruct (Nat.ltb_spec (MAX_RETRIES C) (S retries)) as [Hlast|Hmore].
    + assert (retries = MAX_RETRIES C) as -> by lia.
      unfold bind at 1, addError, bind at 1, now_iso, bind at 1, now, bind, get,
        modify, ret. simpl.
      rewrite retry_loop_unfold.
      destruct (Nat.leb_spec (S (MAX_RETRIES C)) (MAX_RETRIES C)) as [|_]; [lia |].
      unfold ret. eexists [], _. split; [reflexivity |]. simpl.
      split; [exact Hq |]. split; [exact Hua |]. split; [lia |].
      intros _. rewrite Nat.sub_diag, Nat.add_0_r, Herr, Hres.
      eexists _, _. split; reflexivity.
    + unfold bind at 1, sleep, modify.
      set (ws := record_sleep (RETRY_DELAY C * Z.of_nat (S retries)) wa).
      assert (Hsets : same_settings w ws).
      { destruct Hset as (? & ? & ? & ? & ?). unfold same_settings. simpl. auto. }
      destruct (IH (S retries) ws) as (ls & w1 & Hloop & Hq1 & Hua1 & Hclk1 & Hlast);
        [lia | lia |].
      rewrite Hloop. exists ls, w1. split; [reflexivity |].
      subst ws. simpl in Hq1, Hua1, Hclk1, Hlast.
      split; [now rewrite Hq1, Hq |]. split; [lia |]. split; [lia |].
      intros Hall.
      destruct Hlast as (e' & ts & He' & Hres').
      { intros k Hk.
        rewrite (attempt_error_same_settings E _ _ u dep _ Hsets).
        rewrite Hatt. replace (S (attempts w) + k)%nat with (attempts w + S k)%nat by lia.
        apply Hall. lia. }
      rewrite (attempt_error_same_settings E _ _ u dep _ Hsets), Hatt in He'.
      exists e', ts. split; [| now rewrite Hres', Hres].
      rewrite <- He'. f_equal. lia.
  - (* the attempt succeeded: break *)
    unfold ret. exists ls1, wa. split; [reflexivity |].
    split; [exact Hq |]. split; [exact Hua |]. split; [exact Hclk |].
    intros Hall. exfalso. apply (Hall 0%nat); [lia |].
    now rewrite Nat.add_0_r.
Qed.

Lemma crawlPage_outcome (E : Env) (C : Config) (u : string) (dep : Z) (w : WebCrawler.t) :
  exists ls w1,
    crawlPage E C u dep w = (Normal tt, w1)
    /\ queue w1 = add_all E ls (dep + 1) (queue w)
    /\ (userAgentIdx w <= userAgentIdx w1)%nat
    /\ (clock_reads w < clock_reads w1)%nat
    /\ ((forall k, (k <= MAX_RETRIES C)%nat ->
                   attempt_error E w u dep (attempts w + k) <> None) ->
        exists e ts,
          attempt_error E w u dep (attempts w + MAX_RETRIES C) = Some e
          /\ result w1 = CrawlResult.addError u e ts (result w)).
Proof.
  unfold crawlPage, bind at 1, now, bind, get, modify, ret. cbv beta iota.
  set (w0 := set_clock_reads (S (clock_reads w)) w).
  assert (Hset0 : same_settings w w0) by (unfold same_settings; simpl; auto).
  destruct (retry_loop_outcome E C u dep (Date_now E (clock_reads w))
              (S (MAX_RETRIES C)) 0 w0)
    as (ls & w1 & Hloop & Hq & Hua & Hclk & Hlast); [lia | lia |].
  exists ls, w1. rewrite Hloop. subst w0. simpl in Hq, Hua, Hclk, Hlast.
  split; [reflexivity |]. split; [exact Hq |]. split; [exact Hua |].
  split; [lia |].
  intros Hall. rewrite Nat.sub_0_r in Hlast.
  destruct Hlast as (e & ts & He & Hres).
  { intros k Hk. rewrite (attempt_error_same_settings E _ _ u dep _ Hset0).
    now apply Hall. }
  rewrite (attempt_error_same_settings E _ _ u dep _ Hset0) in He.
  exists e, ts. auto.
Qed.

Lemma offered_same_settings (E : Env) (w w' : WebCrawler.t) dep p :
  same_settings w w' -> offered E w' dep p = offered E w dep p.
Proof.
  intros (Hb & Hd & _). unfold offered. now rewrite Hb, Hd.
Qed.

(** An attempt that gets through has offered the frontier the links kept
    of the page it records, and nothing else. *)
Lemma attempt_links (E : Env) (C : Config) (u : string) (dep ps : Z)
      (w w1 : WebCrawler.t) :
  attempt E C u dep ps w = (Normal tt, w1) ->
  exists p,
    result w1 = CrawlResult.addPage p (result w)
    /\ queue w1 = add_all E (offered E w dep p) (dep + 1) (queue w).
Proof.
  unfold attempt.
  unfold bind at 1, get. unfold bind at 1, modify.
  destruct (goto E (attempts w) u) as [e|e|response [e|d]].
  - unfold throw. discriminate.
  - unfold bind, getNextUserAgent, bind, get, modify, ret, throw. simpl. discriminate.
  - unfold bind at 1, getNextUserAgent, bind, get, modify, ret, check_status.
    simpl. destruct (400 <=? status_or_0 response); unfold throw, ret; simpl;
      discriminate.
  - unfold bind at 1, getNextUserAgent, bind at 1 2, get, modify, ret. simpl.
    unfold bind at 1, check_status.
    destruct (400 <=? status_or_0 response); unfold throw, ret; simpl;
      [discriminate |].
    unfold bind at 1, extractPageData, now_iso, now, bind, get, modify, ret. simpl.
    destruct (js_lt dep (maxDepth w)) eqn:Hdeep; simpl.
    + unfold filterLinks, bind at 1, get. simpl.
      destruct (URL_new E (baseUrl w)) as [base|] eqn:Hbase; unfold throw, ret;
        [| discriminate].
      match goal with
      | |- context [add_links E ?ls ?d ?a ?w0] =>
          destruct (add_links_run E ls d a w0) as (a' & Hrun); rewrite Hrun
      end.
      intros [= <-]. eexists. simpl. split; [reflexivity |].
      unfold offered, kept_links. simpl. now rewrite Hdeep, Hbase.
    + intros [= <-]. eexists. simpl. split; [reflexivity |].
      unfold offered. now rewrite Hdeep.
Qed.

Lemma retry_loop_links (E : Env) (C : Config) (u : string) (dep ps : Z) :
  forall (fuel retries : nat) (w w1 : WebCrawler.t),
    retry_loop E C fuel u dep ps retries w = (Normal tt, w1) ->
    (CrawlResult.pages (result w1) = CrawlResult.pages (result w)
     /\ queue w1 = queue w)
    \/ exists p,
         CrawlResult.pages (result w1) = CrawlResult.pages (result w) ++ [p]
         /\ queue w1 = add_all E (offered E w dep p) (dep + 1) (queue w).
Proof.
  induction fuel as [|fuel IH]; intros retries w w1;
    rewrite retry_loop_unfold;
    destruct (retries <=? MAX_RETRIES C)%nat;
    try (unfold ret; intros [= <-]; left; split; reflexivity);
    try (unfold out_of_fuel; discriminate).
  unfold bind at 1, try_catch.
  destruct (attempt_outcome E C u dep ps w) as (ls1 & wa & Hrun & Hq & Hnil & _ & _).
  destruct (attempt_effect E C u dep ps w)
    as (c & wa' & new & Hrun' & Hset & _ & _ & _ & _ & Hc).
  rewrite Hrun in Hrun'. injection Hrun' as Hceq <-. rewrite Hrun.
  destruct (attempt_error E w u dep (attempts w)) as [e|].
  - subst c. destruct Hc as (_ & _ & Hres).
    rewrite (Hnil ltac:(discriminate)) in Hq. unfold add_all in Hq. simpl in Hq.
    assert (Hnext : forall ws,
               same_settings wa ws -> result ws = result wa \/
               (exists err ts, result ws = CrawlResult.addError u err ts (result wa)) ->
               queue ws = queue wa ->
               retry_loop E C fuel u dep ps (S retries) ws = (Normal tt, w1) ->
               (CrawlResult.pages (result w1) = CrawlResult.pages (result w)
                /\ queue w1 = queue w)
               \/ exists p,
                    CrawlResult.pages (result w1) = CrawlResult.pages (result w) ++ [p]
                    /\ queue w1 = add_all E (offered E w dep p) (dep + 1) (queue w)).
    { intros ws Hsets Hress Hqs Hloop. apply IH in Hloop.
      assert (Hpages : CrawlResult.pages (result ws) = CrawlResult.pages (result w)).
      { destruct Hress as [-> | (err & ts & ->)]; now rewrite Hres. }
      rewrite Hpages, Hqs, Hq in Hloop.
      destruct Hloop as [Hsame | (p & Hp & Hqueue)]; [now left |].
      right. exists p. split; [exact Hp |].
      rewrite <- (offered_same_settings E w ws dep p); [exact Hqueue |].
      exact (same_settings_trans _ _ _ Hset Hsets). }
    destruct (MAX_RETRIES C <? S retries)%nat.
    + unfold bind at 1, addError, bind at 1, now_iso, bind at 1, now, bind, get,
        modify, ret. cbv beta iota.
      apply Hnext.
      * unfold same_settings. simpl. auto.
      * right. simpl. eauto.
      * reflexivity.
    + unfold bind at 1, sleep, modify.
      apply Hnext.
      * unfold same_settings. simpl. auto.
      * left. reflexivity.
      * reflexivity.
  - unfold ret. intros [= <-].
    destruct (attempt_links E C u dep ps w wa Hrun) as (p & Hres & Hqueue).
    right. exists p. rewrite Hres. split; [reflexivity | exact Hqueue].
Qed.

(** [crawlPage] and the frontier: when it records a page it has offered
    the links kept of that page, in their order and one level down; when it
    records none the frontier is as it was. *)
Lemma crawlPage_links (E : Env) (C : Config) (u : string) (dep : Z) (w w1 : WebCrawler.t) :
  crawlPage E C u dep w = (Normal tt, w1) ->
  (CrawlResult.pages (result w1) = CrawlResult.pages (result w)
   /\ queue w1 = queue w)
  \/ exists p,
       CrawlResult.pages (result w1) = CrawlResult.pages (result w) ++ [p]
       /\ queue w1 = add_all E (offered E w dep p) (dep + 1) (queue w).
Proof.
  unfold crawlPage, bind at 1, now, bind, get, modify, ret. cbv beta iota.
  intros Hloop. apply retry_loop_links in Hloop. simpl in Hloop.
  destruct Hloop as [Hsame | (p & Hp & Hqueue)]; [now left |].
  right. exists p. split; [exact Hp |].
  rewrite Hqueue. f_equal.
Qed.

(** C2.  [crawlPage] returns normally whatever the attempts do: nothing is
    thrown past it.  Let [failures] count the attempts that fail before the
    first that gets through.  There are at most [MAX_RETRIES + 1] attempts;
    after the failure number [k] the loop waits [RETRY_DELAY * k] before the
    next attempt.  If [failures <= MAX_RETRIES] the page is recorded once and
    no error is, after [failures] delays: with two failures the delays are
    [RETRY_DELAY * 1] and [RETRY_DELAY * 2].  Otherwise all [MAX_RETRIES + 1]
    attempts failed and exactly one error is recorded, for that url, and no
    page. *)
Theorem crawlPage_retries_with_linear_backoff :
  forall (E : Env) (C : Config) (u : string) (dep : Z) (w : t),
  exists (w' : t) (failures : nat),
    crawlPage E C u dep w = (Normal tt, w')
    /\ (forall i, (i < failures)%nat ->
                  attempt_ok E w u dep (attempts w + i) = false)
    /\ (attempts w' - attempts w <= MAX_RETRIES C + 1)%nat
    /\ (if (failures <=? MAX_RETRIES C)%nat then
          attempt_ok E w u dep (attempts w + failures) = true
          /\ attempts w' = (attempts w + failures + 1)%nat
          /\ trace w' = trace w ++ backoff C u 0 failures ++ [Visit u]
          /\ (exists p,
                CrawlResult.pages (result w') = CrawlResult.pages (result w) ++ [p]
                /\ url p = u /\ depth p = dep)
          /\ CrawlResult.errors (result w') = CrawlResult.errors (result w)
        else
          attempts w' = (attempts w + MAX_RETRIES C + 1)%nat
          /\ trace w' = trace w ++ backoff C u 0 (MAX_RETRIES C) ++ [Visit u]
          /\ CrawlResult.pages (result w') = CrawlResult.pages (result w)
          /\ exists e ts,
               CrawlResult.errors (result w')
               = CrawlResult.errors (result w)
                 ++ [{| error_url := u; error := message e; error_timestamp := ts |}])
    /\ backoff C u 0 2
       = [Visit u; Sleep (RETRY_DELAY C * 1); Visit u; Sleep (RETRY_DELAY C * 2)]
    /\ (forall k j, backoff C u k (S j)
                    = Visit u :: Sleep (RETRY_DELAY C * (Z.of_nat k + 1))
                      :: backoff C u (S k) j).
Proof.
  intros E C u dep w.
  destruct (crawlPage_effect E C u dep w)
    as (w1 & j & new & Hrun & _ & Hfail & _ & _ & _ & Hend).
  exists w1, j. split; [exact Hrun |]. split; [exact Hfail |].
  split.
  { destruct (Nat.leb_spec j (MAX_RETRIES C)).
    - destruct Hend as (_ & Hatt & _). lia.
    - destruct Hend as (Hj & Hatt & _). lia. }
  split.
  { destruct (j <=? MAX_RETRIES C)%nat.
    - destruct Hend as (Hok & Hatt & Htrace & p & response & Hres & Hu & Hd & _).
      split; [exact Hok |]. split; [lia |]. split; [exact Htrace |].
      rewrite Hres. simpl. split; [| reflexivity].
      exists p. auto.
    - destruct Hend as (Hj & Hatt & Htrace & _ & e & ts & Hres).
      split; [lia |]. split; [exact Htrace |].
      rewrite Hres. simpl. split; [reflexivity |].
      exists e, ts. reflexivity. }
  split; [reflexivity |].
  intros k j0. simpl. do 3 f_equal. lia.
Qed.

(** The scenario of the retry test, on the sample site with the constants
    of [config.js]: two timeouts, then the page. *)
Example fails_twice_then_succeeds :
  let E := Sample.env (Sample.flaky 2) in
  let w := WebCrawler.new E (Sample.options "http://site.test/A" (Int 2) (Int 50) "json") in
  let w' := snd (crawlPage E config "http://site.test/A" 0 w) in
  fst (crawlPage E config "http://site.test/A" 0 w) = Normal tt
  /\ trace w' = [Visit "http://site.test/A"; Sleep 2000;
                 Visit "http://site.test/A"; Sleep 4000;
                 Visit "http://site.test/A"]
  /\ map url (CrawlResult.pages (result w')) = ["http://site.test/A"]
  /\ CrawlResult.errors (result w') = [].
Proof. cbv zeta. repeat split; vm_compute; reflexivity. Qed.

(** And with a browser that answers 404 everywhere: four attempts, three
    delays, one error record. *)
Example fails_four_times :
  let E := Sample.env Sample.missing in
  let w := WebCrawler.new E (Sample.options "http://site.test/A" (Int 2) (Int 50) "json") in
  let w' := snd (crawlPage E config "http://site.test/A" 0 w) in
  fst (crawlPage E config "http://site.test/A" 0 w) = Normal tt
  /\ trace w' = [Visit "http://site.test/A"; Sleep 2000;
                 Visit "http://site.test/A"; Sleep 4000;
                 Visit "http://site.test/A"; Sleep 6000;
                 Visit "http://site.test/A"]
  /\ CrawlResult.pages (result w') = []
  /\ map (fun e => (error_url e, error e)) (CrawlResult.errors (result w'))
     = [("http://site.test/A", "HTTP 404")].
Proof. cbv zeta. repeat split; vm_compute; reflexivity. Qed.

(** C10, as the code has it.  A navigation that resolves without a
    response has status 0, and the status check throws exactly when there is
    a response whose status is at least 400, with the message HTTP and that
    status.  What follows the check is the same with or without a response.
    If the extraction returns (and the base url parses, when links are to be
    filtered), the attempt is the only one and the page is recorded with the
    status of the response, 0 when there is none, with no delay and no error
    record.  If the extraction fails, the attempt fails as any other does:
    when every attempt resolves without a response and cannot be read, the
    visit is retried [MAX_RETRIES] times and ends with one error record,
    that of the last extraction, and no page. *)
Theorem null_response_recorded_with_status_0 :
  forall (E : Env) (C : Config) (u : string) (dep : Z) (w : t),
    status_or_0 None = 0
    /\ (forall response w0,
          (exists e, fst (check_status response w0) = Throw e)
          <-> (exists s, response = Some s /\ 400 <= s))
    /\ (forall s w0,
          400 <= s ->
          check_status (Some s) w0
          = (Throw {| message := "HTTP " +:+ String_of_number s |}, w0))
    /\ (forall response d,
          goto E (attempts w) u = Navigated response (Extracted d) ->
          status_or_0 response < 400 ->
          (js_lt dep (maxDepth w) = true -> is_Some (URL_new E (baseUrl w))) ->
          exists w' p,
            crawlPage E C u dep w = (Normal tt, w')
            /\ CrawlResult.pages (result w') = CrawlResult.pages (result w) ++ [p]
            /\ url p = u /\ depth p = dep /\ content p = d
            /\ statusCode p = status_or_0 response
            /\ (response = None -> statusCode p = 0)
            /\ CrawlResult.errors (result w') = CrawlResult.errors (result w)
            /\ trace w' = trace w ++ [Visit u])
    /\ (forall failure : nat -> Error,
          (forall k, (k <= MAX_RETRIES C)%nat ->
                     goto E (attempts w + k) u
                     = Navigated None (ExtractionFails (failure k))) ->
          exists w' ts,
            crawlPage E C u dep w = (Normal tt, w')
            /\ CrawlResult.pages (result w') = CrawlResult.pages (result w)
            /\ CrawlResult.errors (result w')
               = CrawlResult.errors (result w)
                 ++ [{| error_url := u; error := message (failure (MAX_RETRIES C));
                        error_timestamp := ts |}]
            /\ trace w' = trace w ++ backoff C u 0 (MAX_RETRIES C) ++ [Visit u]).
Proof.
  intros E C u dep w.
  split; [reflexivity |]. split; [| split; [| split]].
  - intros response w0. unfold check_status, throw, ret. split.
    + intros [e He].
      destruct (Z.leb_spec 400 (status_or_0 response)) as [Hge|]; [|discriminate].
      destruct response as [s|]; simpl in Hge; [|lia].
      exists s. split; [reflexivity |].
      destruct (Z.eqb_spec s 0); lia.
    + intros (s & -> & Hs). simpl.
      destruct (Z.eqb_spec s 0); [lia |].
      destruct (Z.leb_spec 400 s); [|lia]. eauto.
  - intros s w0 Hs. unfold check_status, throw. simpl.
    destruct (Z.eqb_spec s 0); [lia |].
    destruct (Z.leb_spec 400 s); [reflexivity | lia].
  - intros response d Hgoto Hstatus Hbase.
    destruct (crawlPage_effect E C u dep w)
      as (w1 & j & new & Hrun & _ & Hfail & _ & _ & _ & Hend).
    assert (Hok : attempt_ok E w u dep (attempts w) = true).
    { unfold attempt_ok. rewrite Hgoto.
      destruct (Z.leb_spec 400 (status_or_0 response)) as [|_]; [lia |]. simpl.
      destruct (js_lt dep (maxDepth w)) eqn:Hlt; [| reflexivity].
      simpl. apply bool_decide_eq_true. auto. }
    assert (j = 0%nat) as ->.
    { destruct j as [|j]; [reflexivity |].
      specialize (Hfail 0%nat ltac:(lia)). rewrite Nat.add_0_r in Hfail. congruence. }
    simpl in Hend. rewrite Nat.add_0_r in Hend.
    destruct Hend as (_ & _ & Htrace & p & response' & Hres & Hu & Hd & Hg & Hs & _).
    rewrite Hgoto in Hg. injection Hg as Hr Hc. subst response'.
    exists w1, p. rewrite Hres. simpl.
    split; [exact Hrun |]. split; [reflexivity |]. split; [exact Hu |].
    split; [exact Hd |]. split; [now symmetry |]. split; [exact Hs |].
    split; [intros ->; exact Hs |]. split; [reflexivity | exact Htrace].
  - intros failure Hall.
    assert (Herr : forall k, (k <= MAX_RETRIES C)%nat ->
                             attempt_error E w u dep (attempts w + k) = Some (failure k)).
    { intros k Hk. unfold attempt_error. now rewrite (Hall k Hk). }
    destruct (crawlPage_effect E C u dep w)
      as (w1 & j & new & Hrun & _ & _ & _ & _ & _ & Hend).
    destruct (crawlPage_outcome E C u dep w) as (ls & w1' & Hrun' & _ & _ & _ & Hlast).
    rewrite Hrun in Hrun'. injection Hrun' as <-.
    destruct Hlast as (e & ts & He & Hres).
    { intros k Hk. rewrite (Herr k Hk). discriminate. }
    rewrite (Herr (MAX_RETRIES C) ltac:(lia)) in He. injection He as <-.
    exists w1, ts. split; [exact Hrun |]. rewrite Hres. simpl.
    split; [reflexivity |]. split; [reflexivity |].
    destruct (Nat.leb_spec j (MAX_RETRIES C)) as [Hj | Hj].
    + destruct Hend as (Hok & _). apply attempt_ok_error in Hok.
      rewrite (Herr j Hj) in Hok. discriminate.
    + destruct Hend as (_ & _ & Htrace & _). exact Htrace.
Qed.

Lemma null_response_recorded_with_status_0_witness :
  let u := "http://site.test/A" in
  let options := Sample.options u (Int 2) (Int 50) "json" in
  (exists w' p,
     crawlPage (Sample.env Sample.silent) config u 0
       (WebCrawler.new (Sample.env Sample.silent) options) = (Normal tt, w')
     /\ CrawlResult.pages (result w') = [p]
     /\ statusCode p = 0
     /\ CrawlResult.errors (result w') = []
     /\ trace w' = [Visit u])
  /\ (exists w' p,
        crawlPage (Sample.env Sample.steady) config u 0
          (WebCrawler.new (Sample.env Sample.steady) options) = (Normal tt, w')
        /\ CrawlResult.pages (result w') = [p]
        /\ statusCode p = 200
        /\ CrawlResult.errors (result w') = [])
  /\ (exists w' ts,
        crawlPage (Sample.env Sample.detached) config u 0
          (WebCrawler.new (Sample.env Sample.detached) options) = (Normal tt, w')
        /\ CrawlResult.pages (result w') = []
        /\ CrawlResult.errors (result w')
           = [{| error_url := u; error := "Execution context was destroyed";
                 error_timestamp := ts |}]).
Proof.
  cbv zeta. split; [| split].
  - destruct (null_response_recorded_with_status_0
                (Sample.env Sample.silent) config "http://site.test/A" 0
                (WebCrawler.new (Sample.env Sample.silent)
                   (Sample.options "http://site.test/A" (Int 2) (Int 50) "json")))
      as (_ & _ & _ & Hok & _).
    destruct (Hok None (Sample.page "http://site.test/A" []))
      as (w' & p & Hrun & Hpages & _ & _ & _ & _ & Hzero & Herrors & Htrace).
    + reflexivity.
    + simpl. lia.
    + intros _. vm_compute. eexists. reflexivity.
    + exists w', p. split; [exact Hrun |]. split; [exact Hpages |].
      split; [exact (Hzero eq_refl) |]. split; [exact Herrors | exact Htrace].
  - destruct (null_response_recorded_with_status_0
                (Sample.env Sample.steady) config "http://site.test/A" 0
                (WebCrawler.new (Sample.env Sample.steady)
                   (Sample.options "http://site.test/A" (Int 2) (Int 50) "json")))
      as (_ & _ & _ & Hok & _).
    destruct (Hok (Some 200) (Sample.page "A" ["http://site.test/B"; "http://site.test/C"]))
      as (w' & p & Hrun & Hpages & _ & _ & _ & Hstatus & _ & Herrors & _).
    + reflexivity.
    + simpl. lia.
    + intros _. vm_compute. eexists. reflexivity.
    + exists w', p. split; [exact Hrun |]. split; [exact Hpages |].
      split; [exact Hstatus | exact Herrors].
  - destruct (null_response_recorded_with_status_0
                (Sample.env Sample.detached) config "http://site.test/A" 0
                (WebCrawler.new (Sample.env Sample.detached)
                   (Sample.options "http://site.test/A" (Int 2) (Int 50) "json")))
      as (_ & _ & _ & _ & Hfail).
    destruct (Hfail (fun _ => Sample.evaluate_error))
      as (w' & ts & Hrun & Hpages & Herrors & _).
    + intros k _. reflexivity.
    + exists w', ts. split; [exact Hrun |]. split; [exact Hpages | exact Herrors].
Defined.

(** C10 as stated fails: a navigation that resolves without a response is
    not thereby a success.  When the page cannot be read afterwards the
    visit is retried, three times with the constants of [config.js], and
    ends as an error record, with no page record. *)
Lemma null_response_then_failed_extraction :
  let E := Sample.env Sample.detached in
  let u := "http://site.test/A" in
  let w := WebCrawler.new E (Sample.options u (Int 2) (Int 50) "json") in
  let w' := snd (crawlPage E config u 0 w) in
  (forall n, goto E n u = Navigated None (ExtractionFails Sample.evaluate_error))
  /\ fst (check_status None w) = Normal 0
  /\ fst (crawlPage E config u 0 w) = Normal tt
  /\ trace w' = [Visit u; Sleep 2000; Visit u; Sleep 4000; Visit u; Sleep 6000; Visit u]
  /\ CrawlResult.pages (result w') = []
  /\ map (fun e => (error_url e, error e)) (CrawlResult.errors (result w'))
     = [(u, "Execution context was destroyed")].
Proof.
  cbv zeta. split; [intros n; reflexivity |].
  repeat split; vm_compute; reflexivity.
Qed.

(** ** The traversal loop *)

Lemma crawl_loop_unfold (E : Env) (C : Config) (fuel : nat) :
  crawl_loop E C fuel
  = (w <- get ;;
     if crawl_condition w then
       match fuel with
       | O => out_of_fuel
       | S fuel' =>
           continue <- crawl_body E C ;;
           if continue then crawl_loop E C fuel' else ret tt
       end
     else ret tt).
Proof. destruct fuel; reflexivity. Qed.

(** One iteration on a queue that is not empty: the head is taken; it is
    skipped, or [crawlPage] runs on it, recording at most one page, at the
    depth of the head, and queueing entries one level deeper. *)
Lemma crawl_body_shape (E : Env) (C : Config) (w : t)
      (it : URLQueue.Item) (rest : list URLQueue.Item) :
  URLQueue.queue (queue w) = it :: rest ->
  exists w1 ps new,
    crawl_body E C w = (Normal true, w1)
    /\ same_settings w w1
    /\ CrawlResult.pages (result w1) = CrawlResult.pages (result w) ++ ps
    /\ (length ps <= 1)%nat
    /\ Forall (fun p => depth p = URLQueue.item_depth it
                        /\ js_gt (URLQueue.item_depth it) (maxDepth w) = false) ps
    /\ URLQueue.queue (queue w1) = rest ++ new
    /\ Forall (fun n => URLQueue.item_depth n = URLQueue.item_depth it + 1
                        /\ js_lt (URLQueue.item_depth it) (maxDepth w) = true) new
    /\ (URLQueue.maxPages (queue w) <> NaN -> S (work (queue w1)) = work (queue w))
    /\ CrawlResult.endTime (result w1) = CrawlResult.endTime (result w)
    /\ CrawlResult.duration (CrawlResult.stats (result w1))
       = CrawlResult.duration (CrawlResult.stats (result w)).
Proof.
  intros Hqueue.
  unfold crawl_body, bind at 1, queue_next, bind at 1, get, URLQueue.next.
  rewrite Hqueue.
  unfold bind at 1, modify. unfold bind at 1, ret. unfold bind at 1, get.
  set (wa := set_queue _ w).
  assert (Hseta : same_settings w wa) by (unfold same_settings; simpl; auto).
  assert (Hworka : S (work (queue wa)) = work (queue w)).
  { unfold work, URLQueue.size. simpl. rewrite Hqueue. simpl.
    destruct (URLQueue.maxPages (queue w)); lia. }
  assert (Hdepth_a : maxDepth wa = maxDepth w) by reflexivity.
  rewrite Hdepth_a.
  destruct (js_gt (URLQueue.item_depth it) (maxDepth w)) eqn:Hdeep.
  - (* beyond the depth limit: skipped *)
    exists wa, [], []. rewrite !app_nil_r. simpl.
    repeat split; auto.
  - destruct (crawlPage_effect E C (URLQueue.item_url it) (URLQueue.item_depth it) wa)
      as (w1 & j & new & Hrun & Hset & _ & Hq & Hwork & Hdepth & Hend).
    unfold bind at 1. rewrite Hrun. unfold bind, sleep, modify, ret.
    assert (Hset1 : same_settings w (record_sleep (REQUEST_DELAY C) w1)).
    { pose proof (same_settings_trans _ _ _ Hseta Hset) as (? & ? & ? & ? & ?).
      unfold same_settings. simpl. auto. }
    assert (Hres : exists ps,
               CrawlResult.pages (result w1) = CrawlResult.pages (result w) ++ ps
               /\ (length ps <= 1)%nat
               /\ Forall (fun p => depth p = URLQueue.item_depth it) ps
               /\ CrawlResult.endTime (result w1) = CrawlResult.endTime (result w)
               /\ CrawlResult.duration (CrawlResult.stats (result w1))
                  = CrawlResult.duration (CrawlResult.stats (result w))).
    { destruct (j <=? MAX_RETRIES C)%nat.
      - destruct Hend as (_ & _ & _ & p & response & -> & _ & Hd & _).
        exists [p]. simpl. repeat split; auto.
      - destruct Hend as (_ & _ & _ & _ & e & ts & ->).
        exists []. simpl. rewrite app_nil_r. repeat split; auto. }
    destruct Hres as (ps & Hpages & Hlen & Hps & Hendt & Hdur).
    exists (record_sleep (REQUEST_DELAY C) w1), ps, new.
    split; [reflexivity |]. split; [exact Hset1 |].
    split; [exact Hpages |]. split; [exact Hlen |].
    split.
    { eapply Forall_impl; [exact Hps |]. simpl. intros p ->.
      split; reflexivity. }
    split; [exact Hq |]. split; [exact Hdepth |].
    split.
    { intros Hb. simpl. rewrite Hwork; [exact Hworka | exact Hb]. }
    split; [exact Hendt | exact Hdur].
Qed.

(** One iteration: it returns, keeps the depth bounds and the result
    unfinalized, and uses up one unit of work. *)
Lemma crawl_body_effect (E : Env) (C : Config) (w : t) :
  exists b w1,
    crawl_body E C w = (Normal b, w1)
    /\ same_settings w w1
    /\ (frontier_within_depth w -> pages_within_depth w -> pages_within_depth w1)
    /\ (frontier_within_depth w -> frontier_within_depth w1)
    /\ (URLQueue.hasMore (queue w) = true ->
        b = true
        /\ (URLQueue.maxPages (queue w) <> NaN ->
            S (work (queue w1)) = work (queue w)))
    /\ CrawlResult.endTime (result w1) = CrawlResult.endTime (result w)
    /\ CrawlResult.duration (CrawlResult.stats (result w1))
       = CrawlResult.duration (CrawlResult.stats (result w)).
Proof.
  destruct (URLQueue.queue (queue w)) as [|it rest] eqn:Hqueue.
  - unfold crawl_body, bind at 1, queue_next, bind at 1, get, URLQueue.next.
    rewrite Hqueue. unfold bind, modify, ret. simpl.
    exists false, (set_queue (queue w) w). split; [reflexivity |].
    split; [unfold same_settings; simpl; auto |].
    unfold URLQueue.hasMore, pages_within_depth, frontier_within_depth.
    rewrite Hqueue. simpl. rewrite Hqueue.
    split; [auto |]. split; [auto |]. split; [discriminate |].
    split; reflexivity.
  - destruct (crawl_body_shape E C w it rest Hqueue)
      as (w1 & ps & new & Hbody & Hset & Hpages & _ & Hps & Hq & Hnew & Hwork
          & Hend & Hdur).
    exists true, w1. split; [exact Hbody |]. split; [exact Hset |].
    destruct Hset as (_ & Hmd & _).
    split.
    { unfold pages_within_depth, frontier_within_depth.
      rewrite Hpages, Hqueue, Hmd. intros Hf H.
      inversion Hf as [|? ? Hhead _]; subst.
      apply Forall_app. split; [exact H |].
      eapply Forall_impl; [exact Hps |]. simpl. intros p [-> Hle].
      unfold within_depth, queued_within_depth in *.
      destruct (maxDepth w) as [|z]; [exact Hhead |].
      simpl in Hle. apply Z.ltb_ge in Hle. exact Hle. }
    split.
    { unfold frontier_within_depth. rewrite Hq, Hqueue, Hmd. intros H.
      inversion H as [|? ? _ Hrest]; subst.
      apply Forall_app. split; [exact Hrest |].
      eapply Forall_impl; [exact Hnew |]. simpl. intros n [-> Hlt].
      apply js_lt_true in Hlt as (z & -> & Hlt). simpl. lia. }
    split; [intros _; split; [reflexivity | exact Hwork] |].
    split; [exact Hend | exact Hdur].
Qed.

(** At the top of the loop, whatever the iteration. *)
Lemma running_invariants (E : Env) (C : Config) (options : Options) (w : t) :
  running E C options w ->
  pages_within_depth w
  /\ frontier_within_depth w
  /\ maxDepth w = opt_depth options
  /\ CrawlResult.endTime (result w) = None
  /\ CrawlResult.duration (CrawlResult.stats (result w)) = None.
Proof.
  induction 1 as [|w b w' _ IH _ Hbody].
  - rewrite queue_add_run.
    unfold pages_within_depth, frontier_within_depth. simpl.
    rewrite add_queue. simpl.
    split; [constructor |]. split; [| auto].
    destruct (URLQueue.normalize E (opt_url options));
      [destruct (fst (URLQueue.add E (opt_url options) 0 (URLQueue.new (opt_maxPages options)))) |];
      repeat constructor.
    unfold queued_within_depth. simpl. destruct (opt_depth options); lia.
  - destruct (crawl_body_effect E C w)
      as (b' & w1 & Hbody' & Hset & Hpages & Hfront & _ & Hend & Hdur).
    rewrite Hbody in Hbody'. injection Hbody' as -> ->.
    destruct IH as (Hp & Hf & Hd & He & Hdu).
    destruct Hset as (_ & Hmd & _).
    repeat split; auto; congruence.
Qed.

Lemma running_maxPages (E : Env) (C : Config) (options : Options) (w : WebCrawler.t) :
  running E C options w ->
  maxPages w = opt_maxPages options
  /\ URLQueue.maxPages (queue w) = opt_maxPages options.
Proof.
  induction 1 as [|w b w' _ IH _ Hbody].
  - rewrite queue_add_run. simpl. rewrite add_maxPages. auto.
  - destruct (crawl_body_effect E C w) as (b' & w1 & Hbody' & Hset & _).
    rewrite Hbody in Hbody'. injection Hbody' as -> ->.
    destruct Hset as (_ & _ & Hm & _ & Hqm). destruct IH. split; congruence.
Qed.

Lemma running_interrupted :
  running (Sample.env Sample.steady) config Sample.home_options Sample.interrupted.
Proof.
  unfold Sample.interrupted.
  assert (H0 : running (Sample.env Sample.steady) config Sample.home_options
                 Sample.seeded) by apply running_seeded.
  assert (H1 : running (Sample.env Sample.steady) config Sample.home_options
                 (snd (crawl_body (Sample.env Sample.steady) config Sample.seeded))).
  { eapply (running_iteration _ _ _ _ true); [exact H0 | |]; vm_compute; reflexivity. }
  assert (H2 : running (Sample.env Sample.steady) config Sample.home_options
                 (snd (crawl_body (Sample.env Sample.steady) config
                         (snd (crawl_body (Sample.env Sample.steady) config
                                 Sample.seeded))))).
  { eapply (running_iteration _ _ _ _ true); [exact H1 | |]; vm_compute; reflexivity. }
  eapply (running_iteration _ _ _ _ true); [exact H2 | |]; vm_compute; reflexivity.
Qed.

Lemma work_new (m : ParsedInt) : work (URLQueue.new m) = budget m.
Proof.
  unfold work, budget, URLQueue.size, URLQueue.new.
  cbn [URLQueue.queue URLQueue.visited URLQueue.maxPages length].
  rewrite size_empty. destruct m; [reflexivity | f_equal; lia].
Qed.

(** ** Termination *)

(** The loop stops before its fuel does, when there is at least as much
    fuel as work; and without a page budget it does not start. *)
Lemma crawl_loop_running (E : Env) (C : Config) (options : Options) :
  forall (fuel : nat) (w : WebCrawler.t),
    running E C options w ->
    (opt_maxPages options <> NaN -> work (queue w) <= fuel)%nat ->
    exists w1,
      crawl_loop E C fuel w = (Normal tt, w1)
      /\ running E C options w1
      /\ crawl_condition w1 = false.
Proof.
  induction fuel as [|fuel IH]; intros w Hrun Hfuel;
    rewrite crawl_loop_unfold; unfold bind at 1, get;
    destruct (crawl_condition w) eqn:Hcond;
    try (exists w; unfold ret; auto; fail);
    destruct (running_maxPages E C options w Hrun) as [Hmp Hqm];
    pose proof Hcond as Hcond'; apply andb_true_iff in Hcond' as [Hmore Hroom];
    apply js_lt_true in Hroom as (m & Hm & _);
    assert (Hb : opt_maxPages options <> NaN) by congruence;
    specialize (Hfuel Hb).
  - unfold URLQueue.hasMore in Hmore. apply Nat.ltb_lt in Hmore.
    unfold work in Hfuel. lia.
  - destruct (crawl_body_effect E C w) as (b & w1 & Hbody & _ & _ & _ & Hwork & _).
    destruct (Hwork Hmore) as [-> Hless].
    specialize (Hless ltac:(congruence)).
    unfold bind. rewrite Hbody.
    apply IH; [| intros _; lia].
    exact (running_iteration E C options w true w1 Hrun Hcond Hbody).
Qed.

(** Where [crawl] ends: at the top of the loop with the loop condition
    false, then [finalize]. *)
Lemma crawl_returns (E : Env) (C : Config) (options : Options) (k : nat) :
  exists w1,
    running E C options w1
    /\ crawl_condition w1 = false
    /\ crawl E C (budget (opt_maxPages options) + k) (new E options)
       = (Normal (CrawlResult.finalize (Date_now E (clock_reads w1)) (result w1)),
          set_result (CrawlResult.finalize (Date_now E (clock_reads w1)) (result w1))
            (set_clock_reads (S (clock_reads w1)) w1)).
Proof.
  unfold crawl, bind at 1, get. unfold bind at 1.
  rewrite queue_add_run. unfold bind at 1.
  pose proof (running_seeded E C options) as Hseed.
  rewrite queue_add_run in Hseed. cbn [snd] in Hseed.
  destruct (crawl_loop_running E C options
              (budget (opt_maxPages options) + k) _ Hseed)
    as (w1 & Hloop & Hrun & Hcond).
  { intros Hb. cbn [queue set_queue new].
    rewrite add_work, work_new by exact Hb. lia. }
  cbn [new baseUrl] in Hloop |- *. rewrite Hloop.
  exists w1. split; [exact Hrun |]. split; [exact Hcond |].
  unfold finalize, bind at 1, now, bind, get, modify, ret. reflexivity.
Qed.

(** ** Depths *)

(** C4, as the code has it.  At the top of the loop of any run, no recorded
    page is deeper than [maxDepth] and no queued entry is deeper than
    [maxDepth], or than 0 when [maxDepth] is negative: the seed is queued at
    depth 0 whatever [maxDepth] is, and is then dropped after being dequeued.
    (When [maxDepth] is NaN nothing is above it, and all there is has depth
    0.)  The entries [crawlPage] queues are at depth [dep + 1] and only when
    [dep < maxDepth]: deeper links are dropped before insertion.  And every
    run returns, with no page deeper than [maxDepth] in its result. *)
Theorem depth_bounds_of_a_run :
  forall (E : Env) (C : Config) (options : Options),
    (forall w,
       running E C options w ->
       Forall (fun p => within_depth (opt_depth options) (depth p)
                        /\ js_gt (depth p) (opt_depth options) = false)
              (CrawlResult.pages (result w))
       /\ Forall (fun it => queued_within_depth (opt_depth options)
                              (URLQueue.item_depth it))
                 (URLQueue.queue (queue w)))
    /\ (forall u dep w,
        exists w' new,
          crawlPage E C u dep w = (Normal tt, w')
          /\ URLQueue.queue (queue w') = URLQueue.queue (queue w) ++ new
          /\ Forall (fun it => URLQueue.item_depth it = dep + 1
                               /\ js_gt (URLQueue.item_depth it) (maxDepth w) = false
                               /\ exists z, maxDepth w = Int z
                                            /\ URLQueue.item_depth it <= z) new)
    /\ (forall k,
        exists r w',
          crawl E C (budget (opt_maxPages options) + k) (new E options)
          = (Normal r, w')
          /\ Forall (fun p => within_depth (opt_depth options) (depth p)
                              /\ js_gt (depth p) (opt_depth options) = false)
                    (CrawlResult.pages r)).
Proof.
  intros E C options.
  assert (Hpages : forall w,
             running E C options w ->
             Forall (fun p => within_depth (opt_depth options) (depth p)
                              /\ js_gt (depth p) (opt_depth options) = false)
                    (CrawlResult.pages (result w))).
  { intros w Hrun.
    destruct (running_invariants E C options w Hrun) as (Hp & _ & Hd & _).
    unfold pages_within_depth in Hp. rewrite Hd in Hp.
    eapply Forall_impl; [exact Hp |]. simpl. intros p Hw.
    split; [exact Hw |]. apply js_gt_false.
    unfold within_depth in Hw. destruct (opt_depth options) as [|z]; [now left |].
    right. now exists z. }
  split; [| split].
  - intros w Hrun. split; [exact (Hpages w Hrun) |].
    destruct (running_invariants E C options w Hrun) as (_ & Hf & Hd & _).
    unfold frontier_within_depth in Hf. now rewrite Hd in Hf.
  - intros u dep w.
    destruct (crawlPage_effect E C u dep w)
      as (w1 & j & new & Hrun & _ & _ & Hq & _ & Hdepth & _).
    exists w1, new. split; [exact Hrun |]. split; [exact Hq |].
    eapply Forall_impl; [exact Hdepth |]. simpl. intros it [-> Hlt].
    apply js_lt_true in Hlt as (z & Hz & Hlt).
    split; [reflexivity |]. split.
    + apply js_gt_false. right. exists z. split; [exact Hz | lia].
    + exists z. split; [exact Hz | lia].
  - intros k.
    destruct (crawl_returns E C options k) as (w1 & Hrun & _ & Hcrawl).
    rewrite Hcrawl. eexists _, _. split; [reflexivity |]. simpl.
    exact (Hpages w1 Hrun).
Qed.

Lemma depth_bounds_of_a_run_witness :
  let E := Sample.env Sample.steady in
  let w := Sample.interrupted in
  Forall (fun p => depth p <= 1 /\ js_gt (depth p) (Int 1) = false)
         (CrawlResult.pages (result w))
  /\ Forall (fun it => URLQueue.item_depth it <= Z.max 0 1)
            (URLQueue.queue (queue w)).
Proof.
  cbv zeta.
  apply (proj1 (depth_bounds_of_a_run (Sample.env Sample.steady) config
                  Sample.home_options) Sample.interrupted).
  exact running_interrupted.
Defined.

(** C4 as stated fails: with [maxDepth = -1] the seed enters the frontier
    at depth 0, above [maxDepth], and is dropped only after being dequeued. *)
Lemma seed_queued_beyond_maxDepth :
  let E := Sample.env Sample.steady in
  let options := Sample.options "http://site.test/A" (Int (-1)) (Int 50) "json" in
  let w1 := snd (queue_add E "http://site.test/A" 0 (new E options)) in
  let w2 := snd (crawl_body E config w1) in
  running E config options w1
  /\ maxDepth w1 = Int (-1)
  /\ URLQueue.queue (queue w1)
     = [{| URLQueue.item_url := "http://site.test/A"; URLQueue.item_depth := 0 |}]
  /\ ~ Forall (fun it => js_gt (URLQueue.item_depth it) (maxDepth w1) = false)
              (URLQueue.queue (queue w1))
  /\ crawl_condition w1 = true
  /\ URLQueue.queue (queue w2) = []
  /\ trace w2 = []
  /\ CrawlResult.pages (result w2) = [].
Proof.
  cbv zeta. split; [apply running_seeded |].
  split; [reflexivity |]. split; [vm_compute; reflexivity |].
  split.
  { intros H. vm_compute in H. inversion H as [|? ? Hhead _]; subst.
    discriminate Hhead. }
  repeat split; vm_compute; reflexivity.
Qed.

(** ** Breadth first *)

Lemma sorted_snoc (l : list Z) (y : Z) :
  StronglySorted Z.le l -> Forall (fun x => x <= y) l ->
  StronglySorted Z.le (l ++ [y]).
Proof.
  induction 1 as [|x l Hl IH Hx]; intros Hall; simpl.
  - repeat constructor.
  - inversion Hall as [|? ? Hxy Hrest]; subst.
    constructor; [apply IH, Hrest |].
    apply Forall_app. split; [exact Hx | repeat constructor; exact Hxy].
Qed.

(** Recording at most one page, at a level no page is above, keeps the
    recorded depths in order. *)
Lemma level_order_pages (pages ps : list PageRecord) (d : Z) :
  StronglySorted Z.le (map depth pages) ->
  Forall (fun p => depth p <= d) pages ->
  (length ps <= 1)%nat ->
  Forall (fun p => depth p = d) ps ->
  StronglySorted Z.le (map depth (pages ++ ps))
  /\ Forall (fun p => depth p <= d) (pages ++ ps).
Proof.
  intros Hsorted Hbelow Hlen Hps.
  destruct ps as [|p [|p' ps]]; simpl in Hlen; [| | lia].
  - rewrite app_nil_r. auto.
  - inversion Hps as [|? ? Hp _]; subst.
    split.
    + rewrite map_app. simpl. apply sorted_snoc; [exact Hsorted |].
      apply Forall_map. exact Hbelow.
    + apply Forall_app. split; [exact Hbelow | repeat constructor; lia].
Qed.

(** The traversal is level by level. *)
Lemma running_level_order (E : Env) (C : Config) (options : Options) (w : t) :
  running E C options w -> level_order w.
Proof.
  induction 1 as [|w b w' _ IH Hcond Hbody].
  - rewrite queue_add_run. unfold level_order. simpl.
    split; [constructor |].
    exists 0, (URLQueue.queue
                 (snd (URLQueue.add E (opt_url options) 0
                         (URLQueue.new (opt_maxPages options))))), [].
    rewrite app_nil_r. split; [reflexivity |]. split; [constructor |].
    split; [| constructor].
    rewrite add_queue. simpl.
    destruct (URLQueue.normalize E (opt_url options));
      [destruct (fst (URLQueue.add E (opt_url options) 0
                        (URLQueue.new (opt_maxPages options)))) |];
      repeat constructor.
  - destruct IH as (Hsorted & d & front & back & Hqueue & Hbelow & Hfront & Hback).
    apply andb_true_iff in Hcond as [Hmore _].
    unfold URLQueue.hasMore in Hmore. apply Nat.ltb_lt in Hmore.
    destruct (URLQueue.queue (queue w)) as [|it rest] eqn:Hq; [simpl in Hmore; lia |].
    destruct (crawl_body_shape E C w it rest Hq)
      as (w1 & ps & new & Hbody' & _ & Hpages & Hlen & Hps & Hq1 & Hnew & _).
    rewrite Hbody in Hbody'. injection Hbody' as -> ->.
    unfold level_order. rewrite Hpages, Hq1.
    destruct front as [|f front]; simpl in Hqueue.
    + (* the level [d] is exhausted: the head opens the level [d + 1] *)
      subst back. inversion Hback as [|? ? Hit Hrest]; subst.
      destruct (level_order_pages (CrawlResult.pages (result w)) ps (d + 1))
        as [Hs Hb]; auto.
      { eapply Forall_impl; [exact Hbelow |]. simpl. intros; lia. }
      { eapply Forall_impl; [exact Hps |]. simpl. intros p [-> _]. exact Hit. }
      split; [exact Hs |].
      exists (d + 1), rest, new. split; [reflexivity |]. split; [exact Hb |].
      split; [exact Hrest |].
      eapply Forall_impl; [exact Hnew |]. simpl. intros n [-> _]. lia.
    + injection Hqueue as <- ->.
      inversion Hfront as [|? ? Hit Hrest]; subst.
      destruct (level_order_pages (CrawlResult.pages (result w)) ps
                  (URLQueue.item_depth it)) as [Hs Hb]; auto.
      { eapply Forall_impl; [exact Hps |]. simpl. tauto. }
      split; [exact Hs |].
      exists (URLQueue.item_depth it), front, (back ++ new).
      rewrite app_assoc. split; [reflexivity |]. split; [exact Hb |].
      split; [exact Hrest |].
      apply Forall_app. split; [exact Hback |].
      eapply Forall_impl; [exact Hnew |]. simpl. tauto.
Qed.

(** C5.  The frontier is first in, first out: [next] takes the head of the
    queue and leaves its tail, [add] puts the accepted entry at the end.
    [crawlPage] appends to the queue, at depth [dep + 1], entries whose urls
    are normal forms of links of the page it recorded, in the order of those
    links: the frontier it leaves is the one it found after one [add] at
    depth [dep + 1] for each link [filterLinks] keeps, in the order the
    extractor returned them (and the one it found, when no page is
    recorded).  So the pages are visited breadth first: at the top of the loop
    the depths of the recorded pages never decrease, and the queue holds the
    rest of one level followed by entries of the next; and on the sample
    site, where A links to B and C and B links to D, a run from A with
    [maxDepth = 2] visits A, B, C, D in this order. *)
Theorem frontier_is_fifo_breadth_first :
  (forall q : URLQueue.t,
     URLQueue.next q
     = (head (URLQueue.queue q),
        match URLQueue.queue q with
        | [] => q
        | _ :: rest =>
            {| URLQueue.queue := rest; URLQueue.visited := URLQueue.visited q;
               URLQueue.maxPages := URLQueue.maxPages q |}
        end))
  /\ (forall (E : Env) (u : string) (d : Z) (q : URLQueue.t),
        URLQueue.queue (snd (URLQueue.add E u d q))
        = URLQueue.queue q
          ++ match URLQueue.normalize E u with
             | Some n =>
                 if fst (URLQueue.add E u d q)
                 then [{| URLQueue.item_url := n; URLQueue.item_depth := d |}]
                 else []
             | None => []
             end)
  /\ (forall (E : Env) (C : Config) (u : string) (dep : Z) (w : t),
      exists w' new,
        crawlPage E C u dep w = (Normal tt, w')
        /\ URLQueue.queue (queue w') = URLQueue.queue (queue w) ++ new
        /\ Forall (fun it => URLQueue.item_depth it = dep + 1) new
        /\ (forall p,
              CrawlResult.pages (result w') = CrawlResult.pages (result w) ++ [p] ->
              map URLQueue.item_url new
              `sublist_of` normal_forms E (map link_href (links (content p)))
              /\ queue w' = add_all E (offered E w dep p) (dep + 1) (queue w))
        /\ (CrawlResult.pages (result w') = CrawlResult.pages (result w) ->
            queue w' = queue w))
  /\ (forall (E : Env) (C : Config) (options : Options) (w : t),
        running E C options w ->
        StronglySorted Z.le (map depth (CrawlResult.pages (result w)))
        /\ exists d front back,
             URLQueue.queue (queue w) = front ++ back
             /\ Forall (fun p => depth p <= d) (CrawlResult.pages (result w))
             /\ Forall (fun it => URLQueue.item_depth it = d) front
             /\ Forall (fun it => URLQueue.item_depth it = d + 1) back)
  /\ (let E := Sample.env Sample.steady in
      let run := crawl E config 50
                   (new E (Sample.options "http://site.test/A" (Int 2) (Int 50) "json")) in
      map url (CrawlResult.pages (result (snd run)))
      = ["http://site.test/A"; "http://site.test/B";
         "http://site.test/C"; "http://site.test/D"]
      /\ map depth (CrawlResult.pages (result (snd run))) = [0; 1; 1; 2]
      /\ trace (snd run)
         = [Visit "http://site.test/A"; Sleep 500; Visit "http://site.test/B"; Sleep 500;
            Visit "http://site.test/C"; Sleep 500; Visit "http://site.test/D"; Sleep 500]).
Proof.
  split; [| split; [| split; [| split]]].
  - intros q. unfold URLQueue.next. destruct (URLQueue.queue q); reflexivity.
  - intros E u d q. apply add_queue.
  - intros E C u dep w.
    destruct (crawlPage_effect E C u dep w)
      as (w1 & j & new & Hrun & _ & _ & Hq & _ & Hdepth & Hend).
    exists w1, new. split; [exact Hrun |]. split; [exact Hq |].
    split; [eapply Forall_impl; [exact Hdepth |]; simpl; tauto |].
    pose proof (crawlPage_links E C u dep w w1 Hrun) as Hlinks.
    split.
    + intros p Hp. split.
      * destruct (j <=? MAX_RETRIES C)%nat.
        -- destruct Hend as (_ & _ & _ & p' & response & Hres & _ & _ & _ & _ & Hsub).
           rewrite Hres in Hp. simpl in Hp. apply app_inv_head in Hp.
           injection Hp as <-. exact Hsub.
        -- destruct Hend as (_ & _ & _ & -> & _). apply sublist_nil_l.
      * destruct Hlinks as [[Hsame _] | (p' & Hp' & Hqueue)].
        -- rewrite Hsame in Hp. apply (f_equal (@length _)) in Hp.
           rewrite length_app in Hp. simpl in Hp. lia.
        -- rewrite Hp' in Hp. apply app_inv_head in Hp. injection Hp as <-.
           exact Hqueue.
    + intros Hsame. destruct Hlinks as [[_ Hqueue] | (p' & Hp' & _)];
        [exact Hqueue |].
      rewrite Hp' in Hsame. apply (f_equal (@length _)) in Hsame.
      rewrite length_app in Hsame. simpl in Hsame. lia.
  - intros E C options w Hrun. exact (running_level_order E C options w Hrun).
  - cbv zeta. repeat split; vm_compute; reflexivity.
Qed.

Lemma frontier_is_fifo_breadth_first_witness :
  StronglySorted Z.le
    (map depth (CrawlResult.pages (result Sample.interrupted)))
  /\ exists d front back,
       URLQueue.queue (queue Sample.interrupted) = front ++ back
       /\ Forall (fun p => depth p <= d)
                 (CrawlResult.pages (result Sample.interrupted))
       /\ Forall (fun it => URLQueue.item_depth it = d) front
       /\ Forall (fun it => URLQueue.item_depth it = d + 1) back.
Proof.
  apply (proj1 (proj2 (proj2 (proj2 frontier_is_fifo_breadth_first)))
           (Sample.env Sample.steady) config Sample.home_options Sample.interrupted).
  exact running_interrupted.
Defined.

(** ** Interruption *)

(** Whenever the signal comes during the loop, the handler writes a report
    built from a result that was never finalized. *)
Lemma shutdown_while_running (E : Env) (C : Config) (options : Options) (w : t) :
  running E C options w ->
  Report.endTime (Report.header E w) = toISOString E 0
  /\ Report.duration (Report.header E w) = "NaNs"
  /\ snd (Report.shutdown E w) = 0.
Proof.
  intros Hrun.
  destruct (running_invariants E C options w Hrun) as (_ & _ & _ & Hend & Hdur).
  unfold Report.header. simpl. rewrite Hend, Hdur. auto.
Qed.

(** C6, at the failing input.  A run on the home page of the sample site is
    interrupted after three pages, seven entries still queued.  The handler
    exits with code 0 and writes the three page records and no error record,
    the queued entries being left out; but the result it writes was not
    finalized: [endTime] is still null and [duration] undefined, so that the
    document is stamped with the epoch and with a duration that is not a
    number.  The same run left alone ends with [finalize] before
    [saveResults], and its document carries the end time and the duration. *)
Theorem shutdown_saves_unfinalized_result :
  let E := Sample.env Sample.steady in
  let w := Sample.interrupted in
  running E config Sample.home_options w
  /\ crawl_condition w = true
  /\ length (URLQueue.queue (queue w)) = 7%nat
  /\ snd (Report.shutdown E w) = 0
  /\ (exists j,
        Report.json_file (fst (Report.shutdown E w)) = Some j
        /\ map url (Report.pages j)
           = ["http://site.test"; "http://site.test/p1"; "http://site.test/p2"]
        /\ Report.errors j = []
        /\ CrawlResult.duration (Report.stats j) = None
        /\ Report.endTime (Report.crawl j) = toISOString E 0
        /\ Report.duration (Report.crawl j) = "NaNs")
  /\ Report.errors_file (fst (Report.shutdown E w)) = None
  /\ CrawlResult.endTime (result w) = None
  /\ (exists files w' j,
        Report.main E config 50 (new E Sample.home_options) = (Normal files, w')
        /\ Report.json_file files = Some j
        /\ length (Report.pages j) = 10%nat
        /\ CrawlResult.endTime (result w') = Some 31000
        /\ CrawlResult.duration (Report.stats j) = Some 31000
        /\ Report.endTime (Report.crawl j) = toISOString E 31000
        /\ Report.duration (Report.crawl j) = "31.00s").
Proof.
  cbv zeta. split; [exact running_interrupted |].
  split; [vm_compute; reflexivity |]. split; [vm_compute; reflexivity |].
  split; [reflexivity |].
  split.
  { eexists. split; [vm_compute; reflexivity |].
    repeat split; vm_compute; reflexivity. }
  split; [vm_compute; reflexivity |]. split; [vm_compute; reflexivity |].
  eexists _, _, _. split; [vm_compute; reflexivity |].
  repeat split; vm_compute; reflexivity.
Qed.


(** * Further properties of the crawler *)

(** ** The frontier under any use *)

Lemma elem_of_map {A B} (f : A -> B) (l : list A) (x : B) :
  x ∈ map f l <-> exists y, x = f y /\ y ∈ l.
Proof.
  rewrite list_elem_of_In, in_map_iff. split.
  - intros (y & <- & Hy). exists y. now rewrite list_elem_of_In.
  - intros (y & -> & Hy). exists y. now rewrite <- list_elem_of_In.
Qed.

Lemma frontier_ok_new (m : ParsedInt) : frontier_ok (URLQueue.new m).
Proof.
  unfold frontier_ok, queued, URLQueue.size, URLQueue.new.
  cbn [URLQueue.queue URLQueue.visited URLQueue.maxPages map].
  rewrite size_empty. split; [constructor |]. split.
  - intros x Hx. inversion Hx.
  - destruct m; simpl; [exact I | lia].
Qed.

(** [add] and the visited set: it only grows, by a url that was not in it
    and then sits at the end of the queue. *)
Lemma add_cases (E : Env) (u : string) (d : Z) (q : URLQueue.t) :
  snd (URLQueue.add E u d q) = q
  \/ exists n,
       (n ∉ URLQueue.visited q)
       /\ js_ge (URLQueue.size q) (URLQueue.maxPages q) = false
       /\ snd (URLQueue.add E u d q)
          = {| URLQueue.queue :=
                 (URLQueue.queue q
                  ++ [{| URLQueue.item_url := n; URLQueue.item_depth := d |}]);
               URLQueue.visited := URLQueue.visited q ∪ {[ n ]};
               URLQueue.maxPages := URLQueue.maxPages q |}.
Proof.
  destruct (URLQueue.add E u d q) as [[|] q'] eqn:Hadd; simpl.
  - right. destruct (add_true_inv _ _ _ _ _ Hadd) as (n & _ & _ & Hfresh & Hroom & ->).
    exists n. auto.
  - left. exact (add_false_inv _ _ _ _ _ Hadd).
Qed.

Lemma add_frontier_ok (E : Env) (u : string) (d : Z) (q : URLQueue.t) :
  frontier_ok q -> frontier_ok (snd (URLQueue.add E u d q)).
Proof.
  intros (Hnodup & Hin & Hsize).
  destruct (add_cases E u d q) as [-> | (n & Hfresh & Hroom & ->)];
    [repeat split; assumption |].
  unfold frontier_ok, queued, URLQueue.size in *. simpl.
  rewrite map_app. simpl. split; [| split].
  - apply NoDup_app. split; [exact Hnodup |]. split; [| apply NoDup_singleton].
    intros x Hx Hn. apply list_elem_of_singleton in Hn. subst x.
    exact (Hfresh (Hin _ Hx)).
  - intros x Hx. apply elem_of_app in Hx as [Hx | Hx].
    + apply elem_of_union_l. exact (Hin _ Hx).
    + apply list_elem_of_singleton in Hx. subst x. set_solver.
  - rewrite size_union by set_solver. rewrite size_singleton.
    apply js_ge_false in Hroom as [-> | (z & -> & Hroom)]; simpl in *; [exact I | lia].
Qed.

Lemma next_frontier_ok (q : URLQueue.t) :
  frontier_ok q -> frontier_ok (snd (URLQueue.next q)).
Proof.
  intros (Hnodup & Hin & Hsize). unfold URLQueue.next.
  destruct (URLQueue.queue q) as [|it rest] eqn:Hq; simpl.
  - exact (conj Hnodup (conj Hin Hsize)).
  - unfold frontier_ok, queued, URLQueue.size in *. rewrite Hq in *. simpl in *.
    inversion Hnodup; subst. split; [assumption |]. split; [| exact Hsize].
    intros x Hx. apply Hin. apply elem_of_cons. now right.
Qed.

Lemma frontier_calls_ok (E : Env) (cs : list FrontierCall) :
  forall q,
    frontier_ok q ->
    let out := map URLQueue.item_url (fst (frontier_calls E cs q)) in
    let q' := snd (frontier_calls E cs q) in
    frontier_ok q'
    /\ URLQueue.visited q ⊆ URLQueue.visited q'
    /\ URLQueue.maxPages q' = URLQueue.maxPages q
    /\ NoDup (out ++ queued q')
    /\ (forall x, x ∈ out -> x ∈ URLQueue.visited q')
    /\ (forall x, x ∈ out ++ queued q' -> x ∈ queued q \/ x ∉ URLQueue.visited q).
Proof.
  induction cs as [|[u d|] cs IH]; intros q Hok; cbv zeta.
  - simpl. destruct Hok as (Hnodup & Hin & Hsize).
    repeat split; auto.
    intros x Hx. inversion Hx.
  - simpl.
    destruct (IH _ (add_frontier_ok E u d q Hok))
      as (Hok' & Hsub & Hmax & Hnodup & Hout & Hfrom).
    rewrite add_maxPages in Hmax.
    assert (Hrel : URLQueue.visited q ⊆ URLQueue.visited (snd (URLQueue.add E u d q))
                   /\ forall x, x ∈ queued (snd (URLQueue.add E u d q)) ->
                                x ∈ queued q \/ x ∉ URLQueue.visited q).
    { destruct (add_cases E u d q) as [-> | (n & Hfresh & _ & ->)].
      - split; [reflexivity | auto].
      - simpl. split; [apply union_subseteq_l |].
        intros x Hx. unfold queued in Hx. simpl in Hx. rewrite map_app in Hx.
        apply elem_of_app in Hx as [Hx | Hx]; [now left |].
        apply list_elem_of_singleton in Hx. subst x. now right. }
    destruct Hrel as [Hgrow Hnew].
    split; [exact Hok' |].
    split; [etransitivity; [exact Hgrow | exact Hsub] |].
    split; [exact Hmax |]. split; [exact Hnodup |]. split; [exact Hout |].
    intros x Hx. destruct (Hfrom x Hx) as [Hq | Hv]; [auto |].
    right. intros Hin. apply Hv, Hgrow, Hin.
  - simpl. pose proof (next_frontier_ok q Hok) as Hok1.
    destruct Hok as (Hnodup0 & Hin0 & _).
    unfold URLQueue.next in *.
    destruct (URLQueue.queue q) as [|it rest] eqn:Hq.
    + destruct (IH q Hok1) as (Hok' & Hsub & Hmax & Hnodup & Hout & Hfrom).
      destruct (frontier_calls E cs q) as [out q2]. simpl in *.
      exact (conj Hok' (conj Hsub (conj Hmax (conj Hnodup (conj Hout Hfrom))))).
    + simpl in Hok1.
      destruct (IH _ Hok1) as (Hok' & Hsub & Hmax & Hnodup & Hout & Hfrom).
      destruct (frontier_calls E cs _) as [out q2]. simpl in *.
      unfold queued in Hnodup0, Hin0, Hfrom |- *. rewrite Hq in *. simpl in *.
      apply NoDup_cons in Hnodup0 as [Hhead Hrest].
      assert (Hit : URLQueue.item_url it ∈ URLQueue.visited q).
      { apply Hin0. apply elem_of_cons. now left. }
      split; [exact Hok' |]. split; [exact Hsub |]. split; [exact Hmax |].
      split; [| split].
      * apply NoDup_cons. split; [| exact Hnodup].
        intros Hx. destruct (Hfrom _ Hx) as [Hr | Hv]; [contradiction |].
        exact (Hv Hit).
      * intros x Hx. apply elem_of_cons in Hx as [-> | Hx]; [exact (Hsub _ Hit) | auto].
      * intros x Hx. apply elem_of_cons in Hx as [-> | Hx].
        -- left. apply elem_of_cons. now left.
        -- destruct (Hfrom x Hx) as [Hr | Hv]; [left | right; exact Hv].
           apply elem_of_cons. now right.
Qed.

(** X1.  However [add] and [next] are called on a new frontier, [next]
    never hands out a url twice, what it handed out is not queued again, and
    every such url is in the visited set.  When [maxPages] is a number the
    visited set never grows beyond it (it stays empty when the number is
    not positive).  When [maxPages] is NaN there is no bound: whatever the
    frontier holds, a url whose normal form is not visited is accepted. *)
Theorem frontier_hands_out_each_url_once :
  forall (E : Env) (m : ParsedInt) (cs : list FrontierCall),
    let out := map URLQueue.item_url (fst (frontier_calls E cs (URLQueue.new m))) in
    let q := snd (frontier_calls E cs (URLQueue.new m)) in
    NoDup (out ++ queued q)
    /\ (forall x, x ∈ out ++ queued q -> x ∈ URLQueue.visited q)
    /\ (length out + length (URLQueue.queue q) <= size (URLQueue.visited q))%nat
    /\ URLQueue.maxPages q = m
    /\ (forall z, m = Int z -> URLQueue.size q <= Z.max 0 z)
    /\ (m = NaN ->
        forall u d n,
          URLQueue.normalize E u = Some n -> falsy n = false ->
          n ∉ URLQueue.visited q ->
          fst (URLQueue.add E u d q) = true
          /\ URLQueue.size (snd (URLQueue.add E u d q)) = URLQueue.size q + 1).
Proof.
  intros E m cs out q.
  destruct (frontier_calls_ok E cs (URLQueue.new m) (frontier_ok_new m))
    as ((_ & Hin & Hsize) & _ & Hmax & Hnodup & Hout & _).
  fold out q in Hnodup, Hout, Hin, Hsize, Hmax.
  assert (Hall : forall x, x ∈ out ++ queued q -> x ∈ URLQueue.visited q).
  { intros x Hx. apply elem_of_app in Hx as [Hx | Hx]; auto. }
  split; [exact Hnodup |]. split; [exact Hall |].
  split.
  { replace (length out + length (URLQueue.queue q))%nat
      with (length (out ++ queued q))
      by (unfold queued; now rewrite length_app, length_map).
    rewrite <- (size_list_to_set (C := gset string) (out ++ queued q)) by exact Hnodup.
    apply subseteq_size. intros x Hx. apply elem_of_list_to_set in Hx. auto. }
  rewrite Hmax in Hsize. simpl in Hmax. split; [exact Hmax |]. split.
  - intros z ->. exact Hsize.
  - intros -> u d n Hn Hempty Hfresh.
    pose proof (add_fresh E u n d q Hn Hempty Hfresh) as Hadd.
    rewrite Hmax in Hadd. simpl in Hadd. split; [exact Hadd |].
    destruct (URLQueue.add E u d q) as [b q'] eqn:Heq. simpl in Hadd. subst b.
    destruct (add_true_inv _ _ _ _ _ Heq) as (n' & Hn' & _ & Hfresh' & _ & ->).
    unfold URLQueue.size. simpl.
    rewrite size_union by set_solver. rewrite size_singleton. lia.
Qed.

(** ** The aggregator's counters *)

Lemma total_app (f : PageRecord -> Z) (a b : list PageRecord) :
  total f (a ++ b) = total f a + total f b.
Proof.
  unfold total. induction a as [|p a IH]; simpl; [reflexivity | lia].
Qed.

Lemma counted_addPage (p : PageRecord) (r : CrawlResult.t) :
  counted r -> counted (CrawlResult.addPage p r).
Proof.
  unfold counted. simpl. intros (Hs & Hf & Hl & Hi & Ht).
  rewrite !total_app, length_app. simpl. repeat split; lia.
Qed.

Lemma counted_addError (u : string) (e : Error) (ts : string) (r : CrawlResult.t) :
  counted r -> counted (CrawlResult.addError u e ts r).
Proof.
  unfold counted. simpl. intros (Hs & Hf & Hl & Hi & Ht).
  rewrite length_app. simpl. repeat split; lia.
Qed.

Lemma counted_finalize (t1 : Z) (r : CrawlResult.t) :
  counted r -> counted (CrawlResult.finalize t1 r).
Proof. unfold counted. simpl. tauto. Qed.

Lemma counted_calls (cs : list CrawlResult.Call) (r : CrawlResult.t) :
  counted r -> counted (CrawlResult.calls cs r).
Proof.
  unfold CrawlResult.calls. revert r.
  induction cs as [|c cs IH]; intros r Hr; simpl; [exact Hr |].
  apply IH. destruct c; simpl;
    auto using counted_addPage, counted_addError, counted_finalize.
Qed.

(** X2.  After any history of calls on a fresh aggregate the counters
    count the records: [successfulPages] is the number of page records,
    [failedPages] the number of error records, and [totalLinks],
    [totalImages] and [totalTables] are the sums of the numbers of links,
    images and tables of the page records.  [finalize] changes none of
    them. *)
Theorem counters_count_the_records :
  forall (t0 : Z) (history : list CrawlResult.Call),
    let r := CrawlResult.calls history (CrawlResult.new t0) in
    let s := CrawlResult.stats r in
    CrawlResult.successfulPages s = Z.of_nat (length (CrawlResult.pages r))
    /\ CrawlResult.failedPages s = Z.of_nat (length (CrawlResult.errors r))
    /\ CrawlResult.totalPages s
       = Z.of_nat (length (CrawlResult.pages r) + length (CrawlResult.errors r))
    /\ CrawlResult.totalLinks s
       = total (fun p => Z.of_nat (length (links (content p)))) (CrawlResult.pages r)
    /\ CrawlResult.totalImages s
       = total (fun p => Z.of_nat (length (images (content p)))) (CrawlResult.pages r)
    /\ CrawlResult.totalTables s
       = total (fun p => Z.of_nat (length (tables (content p)))) (CrawlResult.pages r).
Proof.
  intros t0 history r s.
  assert (Hc : counted r).
  { apply counted_calls. unfold counted. simpl. auto. }
  assert (Hb : CrawlResult.balanced r).
  { apply balanced_calls. reflexivity. }
  destruct Hc as (Hs & Hf & Hl & Hi & Ht). unfold CrawlResult.balanced in Hb.
  fold s in Hs, Hf, Hl, Hi, Ht, Hb.
  repeat split; auto. lia.
Qed.

(** ** Escaping *)

(** X3.  The escaping of the title loses nothing: two titles with the
    same escaped text are the same title. *)
Theorem double_quotes_injective :
  forall a b : string, double_quotes a = double_quotes b -> a = b.
Proof.
  induction a as [|c a IH]; intros [|c' b] H; simpl in H.
  - reflexivity.
  - destruct (Ascii.eqb c' DQUOTE); discriminate.
  - destruct (Ascii.eqb c DQUOTE); discriminate.
  - destruct (Ascii.eqb_spec c DQUOTE) as [-> | Hc];
      destruct (Ascii.eqb_spec c' DQUOTE) as [-> | Hc'].
    + injection H as H. f_equal. now apply IH.
    + injection H as H1 H2. congruence.
    + injection H as H1 H2. congruence.
    + injection H as -> H. f_equal. now apply IH.
Qed.

Lemma double_quotes_injective_witness :
  Sample.quoted_title = Sample.quoted_title.
Proof.
  apply (double_quotes_injective Sample.quoted_title Sample.quoted_title).
  reflexivity.
Defined.

(** ** The error of a page that fails *)

(** X4.  When every one of the [MAX_RETRIES + 1] attempts fails, the one
    error record [crawlPage] adds carries the message of the last attempt's
    error, not of an earlier one, and no page is recorded. *)
Theorem exhausted_retries_record_last_error :
  forall (E : Env) (C : Config) (u : string) (dep : Z) (w : WebCrawler.t),
    (forall k, (k <= MAX_RETRIES C)%nat ->
               attempt_ok E w u dep (attempts w + k) = false) ->
    exists w' e ts,
      crawlPage E C u dep w = (Normal tt, w')
      /\ attempt_error E w u dep (attempts w + MAX_RETRIES C) = Some e
      /\ CrawlResult.errors (result w')
         = CrawlResult.errors (result w)
           ++ [{| error_url := u; error := message e; error_timestamp := ts |}]
      /\ CrawlResult.pages (result w') = CrawlResult.pages (result w).
Proof.
  intros E C u dep w Hall.
  destruct (crawlPage_outcome E C u dep w) as (ls & w1 & Hrun & _ & _ & _ & Hlast).
  destruct Hlast as (e & ts & He & Hres).
  { intros k Hk Hnone. apply attempt_ok_error in Hnone.
    rewrite (Hall k Hk) in Hnone. discriminate. }
  exists w1, e, ts. rewrite Hres. simpl. auto.
Qed.

Lemma exhausted_retries_record_last_error_witness :
  let E := Sample.env (fun n u =>
                         if (n <? 3)%nat then NavigationFails Sample.timeout_error
                         else Sample.missing n u) in
  let w := WebCrawler.new E (Sample.options "http://site.test/A" (Int 2) (Int 50) "json") in
  exists w' e ts,
    crawlPage E config "http://site.test/A" 0 w = (Normal tt, w')
    /\ attempt_error E w "http://site.test/A" 0 (attempts w + MAX_RETRIES config)
       = Some e
    /\ CrawlResult.errors (result w')
       = CrawlResult.errors (result w)
         ++ [{| error_url := "http://site.test/A"; error := message e;
                error_timestamp := ts |}]
    /\ CrawlResult.pages (result w') = CrawlResult.pages (result w).
Proof.
  cbv zeta.
  apply (exhausted_retries_record_last_error
           (Sample.env (fun n u =>
                          if (n <? 3)%nat then NavigationFails Sample.timeout_error
                          else Sample.missing n u))
           config "http://site.test/A" 0).
  intros [|[|[|[|k]]]] Hk; reflexivity.
Defined.

(** ** One iteration, in full *)

Lemma crawl_body_outcome (E : Env) (C : Config) (w : WebCrawler.t)
      (it : URLQueue.Item) (rest : list URLQueue.Item) :
  URLQueue.queue (queue w) = it :: rest ->
  exists w1,
    crawl_body E C w = (Normal true, w1)
    /\ ((js_gt (URLQueue.item_depth it) (maxDepth w) = true
         /\ w1 = set_queue (dequeued (queue w)) w)
        \/ (js_gt (URLQueue.item_depth it) (maxDepth w) = false
            /\ (exists ls,
                  queue w1
                  = add_all E ls (URLQueue.item_depth it + 1) (dequeued (queue w)))
            /\ ((exists p, result w1 = CrawlResult.addPage p (result w)
                           /\ url p = URLQueue.item_url it)
                \/ (exists e ts,
                      result w1
                      = CrawlResult.addError (URLQueue.item_url it) e ts (result w)))
            /\ (exists k,
                  (k <= MAX_RETRIES C)%nat
                  /\ trace w1
                     = trace w ++ backoff C (URLQueue.item_url it) 0 k
                       ++ [Visit (URLQueue.item_url it); Sleep (REQUEST_DELAY C)])
            /\ (userAgentIdx w <= userAgentIdx w1)%nat
            /\ (clock_reads w < clock_reads w1)%nat)).
Proof.
  intros Hqueue.
  unfold dequeued, crawl_body, bind at 1, queue_next, bind at 1, get, URLQueue.next.
  rewrite Hqueue.
  unfold bind at 1, modify. unfold bind at 1, ret. unfold bind at 1, get.
  cbn [snd].
  set (wa := set_queue _ w).
  assert (Hdepth_a : maxDepth wa = maxDepth w) by reflexivity.
  rewrite Hdepth_a.
  destruct (js_gt (URLQueue.item_depth it) (maxDepth w)) eqn:Hshallow.
  - exists wa. split; [reflexivity |]. left. split; reflexivity.
  - destruct (crawlPage_effect E C (URLQueue.item_url it) (URLQueue.item_depth it) wa)
      as (w1 & j & new & Hrun & _ & _ & _ & _ & _ & Hend).
    destruct (crawlPage_outcome E C (URLQueue.item_url it) (URLQueue.item_depth it) wa)
      as (ls & w1' & Hrun' & Hq & Hua & Hclk & _).
    rewrite Hrun in Hrun'. injection Hrun' as <-.
    unfold bind at 1. rewrite Hrun. unfold bind, sleep, modify, ret.
    exists (record_sleep (REQUEST_DELAY C) w1). split; [reflexivity |].
    right. split; [reflexivity |].
    split; [exists ls; exact Hq |].
    cbn [result trace userAgentIdx clock_reads record_sleep].
    destruct (j <=? MAX_RETRIES C)%nat eqn:Hj.
    + destruct Hend as (_ & _ & Htrace & p & response & Hres & Hu & _).
      split; [left; exists p; auto |].
      split; [| split; [exact Hua | exact Hclk]].
      exists j. apply Nat.leb_le in Hj. split; [exact Hj |].
      rewrite Htrace. simpl. now rewrite <- !app_assoc.
    + destruct Hend as (_ & _ & Htrace & _ & e & ts & Hres).
      split; [right; exists e, ts; exact Hres |].
      split; [| split; [exact Hua | exact Hclk]].
      exists (MAX_RETRIES C). split; [lia |].
      rewrite Htrace. simpl. now rewrite <- !app_assoc.
Qed.

(** ** What a run keeps *)

Lemma recorded_addPage (p : PageRecord) (r : CrawlResult.t) :
  recorded (CrawlResult.addPage p r) ≡ₚ url p :: recorded r.
Proof.
  unfold recorded. simpl. rewrite map_app. simpl.
  rewrite <- app_assoc. simpl. symmetry. apply Permutation_middle.
Qed.

Lemma recorded_addError (u : string) (e : Error) (ts : string) (r : CrawlResult.t) :
  recorded (CrawlResult.addError u e ts r) ≡ₚ u :: recorded r.
Proof.
  unfold recorded. simpl. rewrite map_app. simpl.
  rewrite app_assoc. symmetry. apply Permutation_cons_append.
Qed.

Lemma add_all_ok (E : Env) (ls : list string) (d : Z) (q : URLQueue.t) :
  frontier_ok q ->
  frontier_ok (add_all E ls d q)
  /\ URLQueue.visited q ⊆ URLQueue.visited (add_all E ls d q)
  /\ URLQueue.maxPages (add_all E ls d q) = URLQueue.maxPages q
  /\ (forall x, x ∈ queued (add_all E ls d q) ->
                x ∈ queued q \/ x ∉ URLQueue.visited q).
Proof.
  intros Hok.
  pose proof (frontier_calls_ok E (map (fun l => CallAdd l d) ls) q Hok) as H.
  rewrite add_all_calls in H. cbv zeta in H. simpl in H.
  destruct H as (H1 & H2 & H3 & _ & _ & H4). auto.
Qed.

(** Recording the url taken from the head of the queue, then queueing
    links, keeps the run in order. *)
Lemma run_ok_step (E : Env) (w w1 : WebCrawler.t) (it : URLQueue.Item)
      (rest : list URLQueue.Item) (ls : list string) (d : Z) :
  run_ok w ->
  URLQueue.queue (queue w) = it :: rest ->
  queue w1 = add_all E ls d (dequeued (queue w)) ->
  recorded (result w1) ≡ₚ URLQueue.item_url it :: recorded (result w) ->
  counted (result w1) ->
  run_ok w1.
Proof.
  intros (Hok & Hnodup & Hvis & _) Hq Hq1 Hrec Hcount.
  pose proof (next_frontier_ok _ Hok) as Hok'. fold (dequeued (queue w)) in Hok'.
  destruct (add_all_ok E ls d _ Hok') as (Hok1 & Hsub & _ & Hfrom).
  assert (Hdeq : queued (dequeued (queue w)) = map URLQueue.item_url rest
                 /\ URLQueue.visited (dequeued (queue w)) = URLQueue.visited (queue w)).
  { unfold dequeued, URLQueue.next, queued. rewrite Hq. auto. }
  destruct Hdeq as [Hdq Hdv]. rewrite Hdq in Hfrom. rewrite Hdv in Hsub, Hfrom.
  unfold queued in Hnodup at 1. rewrite Hq in Hnodup. simpl in Hnodup.
  apply NoDup_app in Hnodup as (Hrec0 & Hdisj & Hqueue).
  apply NoDup_cons in Hqueue as [Hhead Hrest].
  assert (Hx0 : URLQueue.item_url it ∈ URLQueue.visited (queue w)).
  { destruct Hok as (_ & Hin & _). apply Hin. unfold queued. rewrite Hq.
    apply elem_of_cons. now left. }
  unfold run_ok. rewrite Hq1. split; [exact Hok1 |]. split; [| split].
  - rewrite Hrec. simpl. apply NoDup_cons. split.
    + intros Hin. apply elem_of_app in Hin as [Hin | Hin].
      * apply (Hdisj _ Hin). apply elem_of_cons. now left.
      * destruct (Hfrom _ Hin) as [Hr | Hv]; [contradiction | exact (Hv Hx0)].
    + apply NoDup_app. split; [exact Hrec0 |]. split; [| apply Hok1].
      intros x Hx Hin. destruct (Hfrom _ Hin) as [Hr | Hv].
      * apply (Hdisj _ Hx). apply elem_of_cons. now right.
      * exact (Hv (Hvis _ Hx)).
  - intros x Hx. rewrite Hrec in Hx. apply Hsub.
    apply elem_of_cons in Hx as [-> | Hx]; [exact Hx0 | exact (Hvis _ Hx)].
  - exact Hcount.
Qed.

Lemma running_run_ok (E : Env) (C : Config) (options : Options) (w : WebCrawler.t) :
  running E C options w -> run_ok w.
Proof.
  induction 1 as [|w b w' _ IH Hcond Hbody].
  - rewrite queue_add_run. unfold run_ok. simpl.
    pose proof (add_frontier_ok E (opt_url options) 0 _
                  (frontier_ok_new (opt_maxPages options))) as Hok.
    split; [exact Hok |]. split; [apply Hok |]. split.
    + intros x Hx. inversion Hx.
    + unfold counted. simpl. auto.
  - apply andb_true_iff in Hcond as [Hmore _].
    unfold URLQueue.hasMore in Hmore. apply Nat.ltb_lt in Hmore.
    destruct (URLQueue.queue (queue w)) as [|it rest] eqn:Hq; [simpl in Hmore; lia |].
    destruct (crawl_body_outcome E C w it rest Hq) as (w1 & Hbody' & Hcases).
    rewrite Hbody in Hbody'. injection Hbody' as -> ->.
    destruct Hcases as [[_ ->] | (_ & (ls & Hq1) & Hres & _)].
    + (* skipped: the head leaves the queue, nothing else changes *)
      destruct IH as (Hok & Hnodup & Hvis & Hcount).
      unfold run_ok. simpl.
      assert (Hdeq : queued (dequeued (queue w)) = map URLQueue.item_url rest
                     /\ URLQueue.visited (dequeued (queue w)) = URLQueue.visited (queue w)).
      { unfold dequeued, URLQueue.next, queued. rewrite Hq. auto. }
      destruct Hdeq as [Hdq Hdv]. rewrite Hdq, Hdv.
      split; [apply next_frontier_ok, Hok |].
      split; [| split; assumption].
      unfold queued in Hnodup. rewrite Hq in Hnodup. simpl in Hnodup.
      apply NoDup_app in Hnodup as (Hrec0 & Hdisj & Hqueue).
      apply NoDup_cons in Hqueue as [_ Hrest].
      apply NoDup_app. split; [exact Hrec0 |]. split; [| exact Hrest].
      intros x Hx Hin. apply (Hdisj _ Hx). apply elem_of_cons. now right.
    + destruct Hres as [(p & Hres & Hu) | (e & ts & Hres)].
      * eapply run_ok_step; eauto.
        -- rewrite Hres, <- Hu. apply recorded_addPage.
        -- rewrite Hres. apply counted_addPage, IH.
      * eapply run_ok_step; eauto.
        -- rewrite Hres. apply recorded_addError.
        -- rewrite Hres. apply counted_addError, IH.
Qed.

Lemma length_recorded (r : CrawlResult.t) :
  length (recorded r)
  = (length (CrawlResult.pages r) + length (CrawlResult.errors r))%nat.
Proof. unfold recorded. now rewrite length_app, !length_map. Qed.

(** X5.  At the top of the loop of any run no url has been processed
    twice: the urls of the page records, of the error records and of the
    queued entries are pairwise distinct, and all of them are in the visited
    set. *)
Theorem run_visits_each_url_at_most_once :
  forall (E : Env) (C : Config) (options : Options) (w : WebCrawler.t),
    running E C options w ->
    NoDup (map url (CrawlResult.pages (result w))
           ++ map error_url (CrawlResult.errors (result w))
           ++ map URLQueue.item_url (URLQueue.queue (queue w)))
    /\ (forall x,
          x ∈ map url (CrawlResult.pages (result w))
              ++ map error_url (CrawlResult.errors (result w))
              ++ map URLQueue.item_url (URLQueue.queue (queue w)) ->
          x ∈ URLQueue.visited (queue w)).
Proof.
  intros E C options w Hrun.
  destruct (running_run_ok E C options w Hrun) as ((_ & Hin & _) & Hnodup & Hvis & _).
  unfold recorded, queued in *. rewrite <- app_assoc in Hnodup.
  split; [exact Hnodup |].
  intros x Hx. rewrite app_assoc in Hx.
  apply elem_of_app in Hx as [Hx | Hx]; auto.
Qed.

Lemma run_visits_each_url_at_most_once_witness :
  NoDup (map url (CrawlResult.pages (result Sample.interrupted))
         ++ map error_url (CrawlResult.errors (result Sample.interrupted))
         ++ map URLQueue.item_url (URLQueue.queue (queue Sample.interrupted))).
Proof.
  apply (run_visits_each_url_at_most_once (Sample.env Sample.steady) config
           Sample.home_options Sample.interrupted).
  exact running_interrupted.
Defined.

Lemma run_ok_count (w : WebCrawler.t) :
  run_ok w ->
  (length (CrawlResult.pages (result w)) + length (CrawlResult.errors (result w))
   + length (URLQueue.queue (queue w))
   <= size (URLQueue.visited (queue w)))%nat.
Proof.
  intros ((_ & Hin & _) & Hnodup & Hvis & _).
  rewrite <- length_recorded.
  replace (length (recorded (result w)) + length (URLQueue.queue (queue w)))%nat
    with (length (recorded (result w) ++ queued (queue w)))
    by (unfold queued; now rewrite length_app, length_map).
  rewrite <- (size_list_to_set (C := gset string) _ Hnodup).
  apply subseteq_size. intros x Hx. apply elem_of_list_to_set in Hx.
  apply elem_of_app in Hx as [Hx | Hx]; auto.
Qed.

Lemma running_balanced (E : Env) (C : Config) (options : Options) (w : WebCrawler.t) :
  running E C options w -> CrawlResult.balanced (result w).
Proof.
  induction 1 as [|w b w' _ IH Hcond Hbody].
  - rewrite queue_add_run. reflexivity.
  - apply andb_true_iff in Hcond as [Hmore _].
    unfold URLQueue.hasMore in Hmore. apply Nat.ltb_lt in Hmore.
    destruct (URLQueue.queue (queue w)) as [|it rest] eqn:Hq; [simpl in Hmore; lia |].
    destruct (crawl_body_outcome E C w it rest Hq) as (w1 & Hbody' & Hcases).
    rewrite Hbody in Hbody'. injection Hbody' as -> ->.
    destruct Hcases as [[_ ->] | (_ & _ & [(p & -> & _) | (e & ts & ->)] & _)];
      auto using balanced_addPage, balanced_addError.
Qed.

(** Without a page budget the run never leaves its first state. *)
Lemma running_NaN (E : Env) (C : Config) (options : Options) (w : WebCrawler.t) :
  running E C options w ->
  opt_maxPages options = NaN ->
  w = set_queue (snd (URLQueue.add E (opt_url options) 0 (URLQueue.new NaN)))
        (new E options)
  /\ crawl_condition w = false.
Proof.
  intros Hrun Hnan.
  assert (Hcond : crawl_condition w = false).
  { destruct (running_maxPages E C options w Hrun) as [Hmp _].
    unfold crawl_condition. rewrite Hmp, Hnan. simpl. apply andb_false_r. }
  split; [| exact Hcond].
  destruct Hrun as [|w0 b w' Hrun0 Hcond0 _].
  - rewrite queue_add_run. cbn [snd new queue]. now rewrite Hnan.
  - exfalso.
    destruct (running_maxPages E C options w0 Hrun0) as [Hmp _].
    unfold crawl_condition in Hcond0. rewrite Hmp, Hnan in Hcond0. simpl in Hcond0.
    rewrite andb_false_r in Hcond0. discriminate.
Qed.

(** X6.  At the top of the loop of any run the records and the queued
    entries together are no more than the visited urls.  When [maxPages] is
    a number these are within it: [totalPages], which counts the page and
    error records, never exceeds [maxPages] (or 0 when [maxPages] is
    negative).  When [maxPages] is NaN the run is still where it started:
    at most the seed is visited, and nothing is recorded. *)
Theorem run_stays_within_page_budget :
  forall (E : Env) (C : Config) (options : Options) (w : WebCrawler.t),
    running E C options w ->
    let s := CrawlResult.stats (result w) in
    CrawlResult.totalPages s
    = Z.of_nat (length (CrawlResult.pages (result w))
                + length (CrawlResult.errors (result w)))
    /\ CrawlResult.totalPages s + Z.of_nat (length (URLQueue.queue (queue w)))
       <= URLQueue.size (queue w)
    /\ (forall m, opt_maxPages options = Int m ->
                  URLQueue.size (queue w) <= Z.max 0 m
                  /\ CrawlResult.totalPages s <= Z.max 0 m)
    /\ (opt_maxPages options = NaN ->
        CrawlResult.totalPages s = 0
        /\ URLQueue.size (queue w) <= 1
        /\ trace w = []).
Proof.
  intros E C options w Hrun s.
  pose proof (running_run_ok E C options w Hrun) as Hok.
  pose proof (run_ok_count w Hok) as Hcount.
  destruct (running_maxPages E C options w Hrun) as [_ Hmax].
  destruct Hok as ((_ & _ & Hsize) & _ & _ & Hs & Hf & _).
  pose proof (running_balanced E C options w Hrun) as Hb.
  unfold CrawlResult.balanced in Hb. fold s in Hb, Hs, Hf.
  rewrite Hmax in Hsize. unfold URLQueue.size in *.
  split; [lia |]. split; [lia |]. split.
  - intros m Hm. rewrite Hm in Hsize. simpl in Hsize. lia.
  - intros Hnan. destruct (running_NaN E C options w Hrun Hnan) as [Hw _].
    subst s. rewrite Hw. cbn [result queue trace set_queue new].
    split; [reflexivity |]. split; [| reflexivity].
    destruct (add_cases E (opt_url options) 0 (URLQueue.new NaN))
      as [-> | (n & _ & _ & ->)]; cbn [URLQueue.visited URLQueue.new].
    + rewrite size_empty. lia.
    + rewrite union_empty_l_L, size_singleton. lia.
Qed.

Lemma run_stays_within_page_budget_witness :
  CrawlResult.totalPages (CrawlResult.stats (result Sample.interrupted))
  + Z.of_nat (length (URLQueue.queue (queue Sample.interrupted)))
  <= URLQueue.size (queue Sample.interrupted)
  /\ URLQueue.size (queue Sample.interrupted) <= Z.max 0 50.
Proof.
  destruct (run_stays_within_page_budget (Sample.env Sample.steady) config
              Sample.home_options Sample.interrupted running_interrupted)
    as (_ & Hqueue & Hbudget & _).
  split; [exact Hqueue |]. exact (proj1 (Hbudget 50 eq_refl)).
Defined.

(** ** The whole run *)

(** With a page budget, the loop ends on an empty frontier. *)
Lemma crawl_returns_drained (E : Env) (C : Config) (options : Options) (k : nat)
      (m : Z) :
  opt_maxPages options = Int m ->
  exists w1,
    running E C options w1
    /\ URLQueue.queue (queue w1) = []
    /\ crawl E C (budget (opt_maxPages options) + k) (new E options)
       = (Normal (CrawlResult.finalize (Date_now E (clock_reads w1)) (result w1)),
          set_result (CrawlResult.finalize (Date_now E (clock_reads w1)) (result w1))
            (set_clock_reads (S (clock_reads w1)) w1)).
Proof.
  intros Hm.
  destruct (crawl_returns E C options k) as (w1 & Hrun & Hcond & Hcrawl).
  exists w1. split; [exact Hrun |]. split; [| exact Hcrawl].
  pose proof (running_run_ok E C options w1 Hrun) as Hok.
  pose proof (run_ok_count w1 Hok) as Hcount.
  destruct (running_maxPages E C options w1 Hrun) as [Hmp Hqm].
  destruct Hok as ((_ & _ & Hsize) & _ & _ & Hs & _).
  unfold URLQueue.size in Hsize. rewrite Hqm, Hm in Hsize. simpl in Hsize.
  unfold crawl_condition in Hcond. apply andb_false_iff in Hcond as [Hempty | Hfull].
  - unfold URLQueue.hasMore in Hempty. apply Nat.ltb_ge in Hempty.
    destruct (URLQueue.queue (queue w1)); [reflexivity | simpl in Hempty; lia].
  - rewrite Hmp, Hm in Hfull. simpl in Hfull. apply Z.ltb_ge in Hfull.
    destruct (URLQueue.queue (queue w1)); [reflexivity | simpl in Hcount; lia].
Qed.


(** The sample site from A with a page limit that is not a number: [crawl]
    returns at once, with nothing recorded and the seed queued, visited and
    never attempted.  And with a depth limit that is not a number: A is
    recorded and its links are not queued. *)
Example crawl_with_maxPages_NaN :
  let E := Sample.env Sample.steady in
  let run := crawl E config 0
               (new E (Sample.options "http://site.test/A" (Int 2) NaN "json")) in
  (exists r, fst run = Normal r /\ CrawlResult.endTime r = Some 1000)
  /\ CrawlResult.pages (result (snd run)) = []
  /\ CrawlResult.errors (result (snd run)) = []
  /\ trace (snd run) = []
  /\ queued (queue (snd run)) = ["http://site.test/A"]
  /\ URLQueue.size (queue (snd run)) = 1.
Proof.
  cbv zeta. split; [eexists; split; vm_compute; reflexivity |].
  repeat split; vm_compute; reflexivity.
Qed.

Example crawl_with_maxDepth_NaN :
  let E := Sample.env Sample.steady in
  let run := crawl E config 50
               (new E (Sample.options "http://site.test/A" NaN (Int 50) "json")) in
  map url (CrawlResult.pages (result (snd run))) = ["http://site.test/A"]
  /\ map depth (CrawlResult.pages (result (snd run))) = [0]
  /\ trace (snd run) = [Visit "http://site.test/A"; Sleep 500]
  /\ queued (queue (snd run)) = []
  /\ URLQueue.size (queue (snd run)) = 1.
Proof. cbv zeta. repeat split; vm_compute; reflexivity. Qed.

Lemma add_handed_out (E : Env) (u : string) (d : Z) (q : URLQueue.t) :
  handed_out (snd (URLQueue.add E u d q)) = handed_out q.
Proof.
  destruct (add_cases E u d q) as [-> | (n & Hfresh & _ & ->)]; [reflexivity |].
  unfold handed_out, URLQueue.size. simpl.
  rewrite length_app, size_union by set_solver. rewrite size_singleton.
  simpl. lia.
Qed.

Lemma add_all_handed_out (E : Env) (ls : list string) (d : Z) (q : URLQueue.t) :
  handed_out (add_all E ls d q) = handed_out q.
Proof.
  unfold add_all. revert q.
  induction ls as [|l ls IH]; intros q; simpl; [reflexivity |].
  now rewrite IH, add_handed_out.
Qed.

(** When the seed is within the depth limit no entry is ever skipped, and
    what was handed out has a record. *)
Lemma running_accounted (E : Env) (C : Config) (options : Options) (w : WebCrawler.t) :
  running E C options w ->
  js_gt 0 (opt_depth options) = false ->
  Z.of_nat (length (CrawlResult.pages (result w))
            + length (CrawlResult.errors (result w)))
  = handed_out (queue w).
Proof.
  intros Hrun Hdepth.
  induction Hrun as [|w b w' Hrun IH Hcond Hbody].
  - rewrite queue_add_run. cbn [snd queue set_queue result new]. rewrite add_handed_out.
    unfold handed_out, URLQueue.size, URLQueue.new.
    cbn [URLQueue.queue URLQueue.visited length CrawlResult.pages CrawlResult.errors
         CrawlResult.new].
    now rewrite size_empty.
  - apply andb_true_iff in Hcond as [Hmore _].
    unfold URLQueue.hasMore in Hmore. apply Nat.ltb_lt in Hmore.
    destruct (URLQueue.queue (queue w)) as [|it rest] eqn:Hq; [simpl in Hmore; lia |].
    destruct (crawl_body_outcome E C w it rest Hq) as (w1 & Hbody' & Hcases).
    rewrite Hbody in Hbody'. injection Hbody' as -> ->.
    assert (Hdeq : handed_out (dequeued (queue w)) = handed_out (queue w) + 1).
    { unfold dequeued, URLQueue.next, handed_out, URLQueue.size. rewrite Hq.
      simpl. lia. }
    destruct Hcases as [[Hdeep _] | (_ & (ls & Hq1) & Hres & _)].
    + (* no entry is beyond the depth limit *)
      exfalso.
      destruct (running_invariants E C options w Hrun) as (_ & Hfront & Hmd & _).
      unfold frontier_within_depth in Hfront. rewrite Hq, Hmd in Hfront.
      rewrite Hmd in Hdeep.
      inversion Hfront as [|? ? Hhead _]; subst.
      apply js_gt_true in Hdeep as (z & Hz & Hdeep).
      rewrite Hz in Hhead, Hdepth. simpl in Hhead, Hdepth.
      apply Z.ltb_ge in Hdepth. lia.
    + rewrite Hq1, add_all_handed_out, Hdeq, <- IH.
      destruct Hres as [(p & -> & _) | (e & ts & ->)]; simpl;
        rewrite length_app; simpl; lia.
Qed.

(** X8.  When [maxPages] is a number and the seed is within the depth
    limit ([0 > maxDepth] is false: [maxDepth] is NaN, or not negative), a
    run ends with exactly one record, page or error, for every url it
    accepted into the frontier: [totalPages] is the size of the visited
    set. *)
Theorem crawl_records_every_accepted_url :
  forall (E : Env) (C : Config) (options : Options) (k : nat),
    opt_maxPages options <> NaN ->
    opt_depth options = NaN \/ (exists d, opt_depth options = Int d /\ 0 <= d) ->
    exists r w',
      crawl E C (budget (opt_maxPages options) + k) (new E options) = (Normal r, w')
      /\ CrawlResult.totalPages (CrawlResult.stats r) = URLQueue.size (queue w')
      /\ Z.of_nat (length (CrawlResult.pages r) + length (CrawlResult.errors r))
         = URLQueue.size (queue w')
      /\ forall x, x ∈ URLQueue.visited (queue w') ->
                   x ∈ map url (CrawlResult.pages r)
                       ++ map error_url (CrawlResult.errors r).
Proof.
  intros E C options k Hbudget Hdepth. apply js_gt_false in Hdepth.
  destruct (opt_maxPages options) as [|m] eqn:Hm; [contradiction |].
  destruct (crawl_returns_drained E C options k m Hm) as (w1 & Hrun & Hempty & Hcrawl).
  rewrite Hm in Hcrawl.
  rewrite Hcrawl. eexists _, _. split; [reflexivity |]. simpl.
  pose proof (running_accounted E C options w1 Hrun Hdepth) as Hacc.
  pose proof (running_balanced E C options w1 Hrun) as Hb.
  pose proof (running_run_ok E C options w1 Hrun) as Hok.
  destruct Hok as (_ & Hnodup & Hvis & Hs & Hf & _).
  unfold handed_out in Hacc. rewrite Hempty in Hacc. simpl in Hacc.
  unfold CrawlResult.balanced in Hb.
  split; [lia |]. split; [lia |].
  unfold queued in Hnodup. rewrite Hempty in Hnodup. simpl in Hnodup.
  rewrite app_nil_r in Hnodup.
  assert (Heq : list_to_set (recorded (result w1)) = URLQueue.visited (queue w1)).
  { apply set_subseteq_size_eq.
    - intros x Hx. apply elem_of_list_to_set in Hx. auto.
    - rewrite size_list_to_set by exact Hnodup. rewrite length_recorded.
      unfold URLQueue.size in Hacc. lia. }
  intros x Hx. rewrite <- Heq in Hx. apply elem_of_list_to_set in Hx. exact Hx.
Qed.

Lemma crawl_records_every_accepted_url_witness :
  let E := Sample.env Sample.steady in
  exists r w',
    crawl E config (budget (opt_maxPages Sample.home_options) + 0)
      (new E Sample.home_options) = (Normal r, w')
    /\ CrawlResult.totalPages (CrawlResult.stats r) = URLQueue.size (queue w').
Proof.
  cbv zeta.
  destruct (crawl_records_every_accepted_url (Sample.env Sample.steady) config
              Sample.home_options 0) as (r & w' & Hrun & Htotal & _).
  - discriminate.
  - right. exists 1. split; [reflexivity | lia].
  - exists r, w'. split; assumption.
Defined.

(** A full frontier, or a frontier with no room at all, refuses
    everything. *)
Lemma add_full (E : Env) (u : string) (d : Z) (q : URLQueue.t) :
  js_ge (URLQueue.size q) (URLQueue.maxPages q) = true ->
  URLQueue.add E u d q = (false, q).
Proof.
  intros Hfull. unfold URLQueue.add, URLQueue.size in *.
  destruct (URLQueue.normalize E u) as [n|]; [| reflexivity].
  destruct (falsy n); [reflexivity |].
  destruct (decide (n ∈ URLQueue.visited q)); [reflexivity |].
  now rewrite Hfull.
Qed.

(** X9.  When the start url is malformed, or the page budget is a number
    that is not positive, the seed is refused and [crawl] returns at once,
    whatever the fuel: no attempt, no delay, no record, and a finalized
    result. *)
Theorem crawl_with_refused_seed_visits_nothing :
  forall (E : Env) (C : Config) (options : Options) (fuel : nat),
    URL_new E (opt_url options) = None
    \/ (exists m, opt_maxPages options = Int m /\ m <= 0) ->
    exists r w',
      crawl E C fuel (new E options) = (Normal r, w')
      /\ CrawlResult.pages r = []
      /\ CrawlResult.errors r = []
      /\ CrawlResult.totalPages (CrawlResult.stats r) = 0
      /\ CrawlResult.endTime r = Some (Date_now E 1)
      /\ trace w' = []
      /\ attempts w' = 0%nat
      /\ URLQueue.visited (queue w') = ∅.
Proof.
  intros E C options fuel Hrefused.
  assert (Hadd : URLQueue.add E (opt_url options) 0 (URLQueue.new (opt_maxPages options))
                 = (false, URLQueue.new (opt_maxPages options))).
  { destruct Hrefused as [Hbad | (m & Hm & Hzero)].
    - unfold URLQueue.add, URLQueue.normalize. now rewrite Hbad.
    - apply add_full. unfold URLQueue.size, URLQueue.new.
      cbn [URLQueue.visited URLQueue.maxPages]. rewrite size_empty, Hm. simpl.
      apply Z.leb_le. lia. }
  unfold crawl, bind at 1, get. unfold bind at 1.
  rewrite queue_add_run. cbn [new baseUrl queue]. rewrite Hadd. cbn [fst snd].
  unfold bind at 1. rewrite crawl_loop_unfold. unfold bind at 1, get.
  unfold crawl_condition at 1, URLQueue.hasMore.
  cbn [queue set_queue URLQueue.queue URLQueue.new length].
  cbn [Nat.ltb Nat.leb andb]. unfold ret.
  unfold finalize, bind at 1, now, bind, get, modify, ret.
  eexists _, _. split; [reflexivity |]. simpl. repeat split; reflexivity.
Qed.

Lemma crawl_with_refused_seed_visits_nothing_witness :
  let E := Sample.env Sample.steady in
  exists r w',
    crawl E config 0 (new E (Sample.options "not a url" (Int 2) (Int 50) "json"))
    = (Normal r, w')
    /\ CrawlResult.pages r = []
    /\ CrawlResult.errors r = []
    /\ CrawlResult.totalPages (CrawlResult.stats r) = 0
    /\ CrawlResult.endTime r = Some (Date_now E 1)
    /\ trace w' = []
    /\ attempts w' = 0%nat
    /\ URLQueue.visited (queue w') = ∅.
Proof.
  cbv zeta.
  apply (crawl_with_refused_seed_visits_nothing (Sample.env Sample.steady) config
           (Sample.options "not a url" (Int 2) (Int 50) "json") 0).
  left. reflexivity.
Defined.

(** ** Rate limiting *)

(** X10.  One iteration of the loop on a frontier that is not empty.  An
    entry deeper than [maxDepth] is dropped for free: the queue loses its
    head and nothing else changes, no attempt, no delay, no clock reading.
    Any other entry is processed and followed by exactly one delay of
    [REQUEST_DELAY], whether its page was recorded or an error was: the new
    events are the retry pattern of [crawlPage], then that delay. *)
Theorem each_processed_entry_is_followed_by_one_delay :
  forall (E : Env) (C : Config) (w : WebCrawler.t)
         (it : URLQueue.Item) (rest : list URLQueue.Item),
    URLQueue.queue (queue w) = it :: rest ->
    exists w1,
      crawl_body E C w = (Normal true, w1)
      /\ if js_gt (URLQueue.item_depth it) (maxDepth w) then
           w1 = set_queue (dequeued (queue w)) w
           /\ URLQueue.queue (queue w1) = rest
           /\ trace w1 = trace w
           /\ result w1 = result w
           /\ clock_reads w1 = clock_reads w
         else
           exists k,
             (k <= MAX_RETRIES C)%nat
             /\ trace w1
                = trace w ++ backoff C (URLQueue.item_url it) 0 k
                  ++ [Visit (URLQueue.item_url it); Sleep (REQUEST_DELAY C)]
             /\ (length (CrawlResult.pages (result w1))
                 + length (CrawlResult.errors (result w1))
                 = S (length (CrawlResult.pages (result w))
                      + length (CrawlResult.errors (result w))))%nat.
Proof.
  intros E C w it rest Hq.
  destruct (crawl_body_outcome E C w it rest Hq) as (w1 & Hbody & Hcases).
  exists w1. split; [exact Hbody |].
  destruct (js_gt (URLQueue.item_depth it) (maxDepth w)) eqn:Hdeep.
  - destruct Hcases as [[_ ->] | (Hle & _)]; [| discriminate].
    split; [reflexivity |]. simpl.
    unfold dequeued, URLQueue.next. rewrite Hq. simpl. auto.
  - destruct Hcases as [[Hlt _] | (_ & _ & Hres & (k & Hk & Htrace) & _)];
      [discriminate |].
    exists k. split; [exact Hk |]. split; [exact Htrace |].
    destruct Hres as [(p & -> & _) | (e & ts & ->)]; simpl;
      rewrite length_app; simpl; lia.
Qed.

Lemma each_processed_entry_is_followed_by_one_delay_witness :
  exists w1,
    crawl_body (Sample.env Sample.steady) config Sample.seeded = (Normal true, w1)
    /\ exists k,
         (k <= MAX_RETRIES config)%nat
         /\ trace w1
            = trace Sample.seeded ++ backoff config "http://site.test" 0 k
              ++ [Visit "http://site.test"; Sleep (REQUEST_DELAY config)]
         /\ (length (CrawlResult.pages (result w1))
             + length (CrawlResult.errors (result w1))
             = S (length (CrawlResult.pages (result Sample.seeded))
                  + length (CrawlResult.errors (result Sample.seeded))))%nat.
Proof.
  refine (each_processed_entry_is_followed_by_one_delay
            (Sample.env Sample.steady) config Sample.seeded
            {| URLQueue.item_url := "http://site.test"; URLQueue.item_depth := 0 |}
            [] _).
  vm_compute. reflexivity.
Defined.

(** ** The link filter *)

Lemma filter_sublist {A} (keep : A -> bool) (l : list A) :
  List.filter keep l `sublist_of` l.
Proof.
  induction l as [|x l IH]; simpl; [constructor |].
  destruct (keep x); [now apply sublist_skip | now apply sublist_cons].
Qed.

Lemma same_domain_iff (E : Env) (baseHost h : string) :
  same_domain E baseHost h = true
  <-> exists parsed,
        URL_new E h = Some parsed
        /\ (hostname parsed = baseHost
            \/ exists sub, hostname parsed = sub +:+ "." +:+ baseHost).
Proof.
  unfold same_domain. destruct (URL_new E h) as [parsed|]; split.
  - intros H. exists parsed. split; [reflexivity |].
    apply orb_true_iff in H as [H | H].
    + left. now apply String.eqb_eq.
    + right. exact (endsWith_inv _ _ H).
  - intros (parsed' & [= <-] & [-> | (sub & ->)]); apply orb_true_iff.
    + left. apply String.eqb_refl.
    + right. apply endsWith_append.
  - discriminate.
  - intros (parsed & Hp & _). discriminate.
Qed.

Lemma count_occ_filter (keep : string -> bool) (l : list string) (h : string) :
  count_occ string_dec (List.filter keep l) h
  = if keep h then count_occ string_dec l h else 0%nat.
Proof.
  induction l as [|x l IH]; simpl; [now destruct (keep h) |].
  destruct (keep x) eqn:Hx; simpl; destruct (string_dec x h) as [-> | Hne];
    rewrite IH; try reflexivity.
  - now rewrite Hx.
  - now rewrite Hx.
Qed.

(** X11.  [filterLinks] throws when the base url is malformed.  Otherwise
    it changes nothing and returns, in their order, exactly the hrefs that
    parse and whose host is the base host or ends with a dot followed by
    the base host, each as many times as it occurs among the links: never a
    malformed link, never a link to a host that only shares a suffix with
    the base host. *)
Theorem filterLinks_keeps_same_domain_links :
  forall (E : Env) (ls : list Link) (w : WebCrawler.t),
    match URL_new E (baseUrl w) with
    | None => filterLinks E ls w = (Throw {| message := "Invalid URL" |}, w)
    | Some base =>
        exists kept,
          filterLinks E ls w = (Normal kept, w)
          /\ kept = kept_links E (baseUrl w) ls
          /\ kept `sublist_of` map link_href ls
          /\ (forall h,
                h ∈ kept
                <-> h ∈ map link_href ls
                    /\ exists parsed,
                         URL_new E h = Some parsed
                         /\ (hostname parsed = hostname base
                             \/ exists sub,
                                  hostname parsed = sub +:+ "." +:+ hostname base))
          /\ (forall h,
                h ∈ kept ->
                count_occ string_dec kept h
                = count_occ string_dec (map link_href ls) h)
    end.
Proof.
  intros E ls w. unfold filterLinks, kept_links, bind, get.
  destruct (URL_new E (baseUrl w)) as [base|]; [| reflexivity].
  eexists. split; [reflexivity |]. split; [reflexivity |].
  split; [apply filter_sublist |]. split.
  - intros h. rewrite !list_elem_of_In, filter_In, same_domain_iff. reflexivity.
  - intros h Hh. rewrite count_occ_filter.
    apply list_elem_of_In, filter_In in Hh as [_ ->]. reflexivity.
Qed.

Example filterLinks_on_the_sample_site :
  let E := Sample.env Sample.steady in
  let w := WebCrawler.new E (Sample.options "http://site.test/A" (Int 2) (Int 50) "json") in
  filterLinks E [Sample.link "http://sub.site.test/x"; Sample.link "http://other.test/y";
                 Sample.link "not a url"; Sample.link "http://site.test/B"] w
  = (Normal ["http://sub.site.test/x"; "http://site.test/B"], w).
Proof. reflexivity. Qed.

(** ** User agents *)

(** X12.  With a pool that is not empty, [getNextUserAgent] returns an
    agent of the pool and moves the index on by one; the agent comes back
    after as many calls as the pool has agents; and a page visit never moves
    the index back. *)
Theorem user_agents_rotate :
  forall (C : Config) (w : WebCrawler.t),
    USER_AGENTS C <> [] ->
    exists ua,
      getNextUserAgent C w = (Normal ua, set_userAgentIdx (S (userAgentIdx w)) w)
      /\ ua ∈ USER_AGENTS C
      /\ (forall w2,
            userAgentIdx w2 = (userAgentIdx w + length (USER_AGENTS C))%nat ->
            fst (getNextUserAgent C w2) = Normal ua)
      /\ (forall E u dep,
            (userAgentIdx w <= userAgentIdx (snd (crawlPage E C u dep w)))%nat).
Proof.
  intros C w Hpool.
  assert (Hlen : (0 < length (USER_AGENTS C))%nat).
  { destruct (USER_AGENTS C); [contradiction | simpl; lia]. }
  exists (nth (userAgentIdx w mod length (USER_AGENTS C)) (USER_AGENTS C) EmptyString).
  split; [reflexivity |]. split; [| split].
  - apply list_elem_of_In, nth_In. now apply Nat.mod_upper_bound, Nat.neq_0_lt_0.
  - intros w2 Hidx. unfold getNextUserAgent, bind, get, modify, ret. simpl.
    rewrite Hidx. do 2 f_equal.
    replace (userAgentIdx w + length (USER_AGENTS C))%nat
      with (userAgentIdx w + 1 * length (USER_AGENTS C))%nat by lia.
    apply Nat.Div0.mod_add.
  - intros E u dep.
    destruct (crawlPage_outcome E C u dep w) as (ls & w1 & Hrun & _ & Hua & _).
    rewrite Hrun. exact Hua.
Qed.

Lemma user_agents_rotate_witness :
  let w := WebCrawler.new (Sample.env Sample.steady)
             (Sample.options "http://site.test/A" (Int 2) (Int 50) "json") in
  exists ua,
    getNextUserAgent config w = (Normal ua, set_userAgentIdx (S (userAgentIdx w)) w)
    /\ ua ∈ USER_AGENTS config.
Proof.
  cbv zeta.
  destruct (user_agents_rotate config
              (WebCrawler.new (Sample.env Sample.steady)
                 (Sample.options "http://site.test/A" (Int 2) (Int 50) "json")))
    as (ua & Hrun & Hin & _).
  - discriminate.
  - exists ua. split; assumption.
Defined.

(** ** The report of a run left alone *)




(** ** What a page record holds *)

Lemma crawlPage_pages (E : Env) (C : Config) (u : string) (dep : Z) (w : WebCrawler.t) :
  exists w1 ps,
    crawlPage E C u dep w = (Normal tt, w1)
    /\ CrawlResult.pages (result w1) = CrawlResult.pages (result w) ++ ps
    /\ Forall (fun p => url p = u /\ depth p = dep /\ statusCode p < 400) ps.
Proof.
  destruct (crawlPage_effect E C u dep w)
    as (w1 & j & new & Hrun & _ & _ & _ & _ & _ & Hend).
  exists w1. destruct (j <=? MAX_RETRIES C)%nat.
  - destruct Hend as (Hok & _ & _ & p & response & Hres & Hu & Hd & Hgoto & Hs & _).
    exists [p]. split; [exact Hrun |]. rewrite Hres. split; [reflexivity |].
    constructor; [| constructor]. split; [exact Hu |]. split; [exact Hd |].
    unfold attempt_ok in Hok. rewrite Hgoto in Hok.
    apply andb_true_iff in Hok as [Hstatus _].
    apply negb_true_iff, Z.leb_gt in Hstatus. now rewrite Hs.
  - destruct Hend as (_ & _ & _ & _ & e & ts & Hres).
    exists []. split; [exact Hrun |]. rewrite Hres. simpl.
    split; [now rewrite app_nil_r | constructor].
Qed.

Lemma crawl_body_pages (E : Env) (C : Config) (w : WebCrawler.t) :
  exists b w1 ps,
    crawl_body E C w = (Normal b, w1)
    /\ CrawlResult.pages (result w1) = CrawlResult.pages (result w) ++ ps
    /\ Forall (fun p => statusCode p < 400) ps.
Proof.
  unfold crawl_body, bind at 1, queue_next, bind at 1, get, URLQueue.next.
  destruct (URLQueue.queue (queue w)) as [|it rest].
  - unfold bind, modify, ret. simpl. eexists _, _, []. rewrite app_nil_r.
    split; [reflexivity |]. split; [reflexivity | constructor].
  - unfold bind at 1, modify. unfold bind at 1, ret. unfold bind at 1, get.
    set (wa := set_queue _ w).
    destruct (js_gt (URLQueue.item_depth it) (maxDepth wa)).
    + eexists _, _, []. rewrite app_nil_r.
      split; [reflexivity |]. split; [reflexivity | constructor].
    + destruct (crawlPage_pages E C (URLQueue.item_url it) (URLQueue.item_depth it) wa)
        as (w1 & ps & Hrun & Hpages & Hps).
      unfold bind at 1. rewrite Hrun. unfold bind, sleep, modify, ret.
      eexists _, _, ps. split; [reflexivity |]. split; [exact Hpages |].
      eapply Forall_impl; [exact Hps |]. simpl. tauto.
Qed.

(** X14.  A page is recorded only with a status below 400: at the top of
    the loop of any run, no page record has an error status. *)
Theorem recorded_pages_have_no_error_status :
  forall (E : Env) (C : Config) (options : Options) (w : WebCrawler.t),
    running E C options w ->
    Forall (fun p => statusCode p < 400) (CrawlResult.pages (result w)).
Proof.
  intros E C options w Hrun.
  induction Hrun as [|w b w' _ IH _ Hbody].
  - rewrite queue_add_run. constructor.
  - destruct (crawl_body_pages E C w) as (b' & w1 & ps & Hbody' & Hpages & Hps).
    rewrite Hbody in Hbody'. injection Hbody' as -> ->.
    rewrite Hpages. apply Forall_app. split; [exact IH | exact Hps].
Qed.

Lemma recorded_pages_have_no_error_status_witness :
  Forall (fun p => statusCode p < 400)
         (CrawlResult.pages (result Sample.interrupted)).
Proof.
  apply (recorded_pages_have_no_error_status (Sample.env Sample.steady) config
           Sample.home_options Sample.interrupted).
  exact running_interrupted.
Defined.

(** A successful attempt reads the clock twice, for the timestamp and for
    the load time. *)
Lemma attempt_times (E : Env) (C : Config) (u : string) (dep ps : Z)
      (w w1 : WebCrawler.t) :
  attempt E C u dep ps w = (Normal tt, w1) ->
  exists p,
    result w1 = CrawlResult.addPage p (result w)
    /\ loadTime p = Date_now E (S (clock_reads w)) - ps
    /\ timestamp p = toISOString E (Date_now E (clock_reads w))
    /\ clock_reads w1 = S (S (clock_reads w)).
Proof.
  unfold attempt.
  unfold bind at 1, get. unfold bind at 1, modify.
  destruct (goto E (attempts w) u) as [e|e|response [e|d]].
  - unfold throw. discriminate.
  - unfold bind, getNextUserAgent, bind, get, modify, ret, throw. simpl. discriminate.
  - unfold bind at 1, getNextUserAgent, bind, get, modify, ret, check_status.
    simpl. destruct (400 <=? status_or_0 response); unfold throw, ret; simpl;
      discriminate.
  - unfold bind at 1, getNextUserAgent, bind at 1 2, get, modify, ret. simpl.
    unfold bind at 1, check_status.
    destruct (400 <=? status_or_0 response); unfold throw, ret; simpl;
      [discriminate |].
    unfold bind at 1, extractPageData, now_iso, now, bind, get, modify, ret. simpl.
    destruct (js_lt dep (maxDepth w)); simpl.
    + unfold filterLinks, bind at 1, get. simpl.
      destruct (URL_new E (baseUrl w)) as [base|]; unfold throw, ret;
        [| discriminate].
      match goal with
      | |- context [add_links E ?ls ?d ?a ?w0] =>
          destruct (add_links_run E ls d a w0) as (a' & Hrun); rewrite Hrun
      end.
      intros [= <-]. eexists. simpl. repeat split; reflexivity.
    + intros [= <-]. eexists. simpl. repeat split; reflexivity.
Qed.

Lemma retry_loop_times (E : Env) (C : Config) (u : string) (dep ps : Z) :
  forall (fuel retries : nat) (w w1 : WebCrawler.t),
    retry_loop E C fuel u dep ps retries w = (Normal tt, w1) ->
    (clock_reads w <= clock_reads w1)%nat
    /\ (CrawlResult.pages (result w1) = CrawlResult.pages (result w)
        \/ exists p,
             CrawlResult.pages (result w1) = CrawlResult.pages (result w) ++ [p]
             /\ loadTime p = Date_now E (clock_reads w1 - 1) - ps
             /\ timestamp p = toISOString E (Date_now E (clock_reads w1 - 2))
             /\ (clock_reads w + 2 <= clock_reads w1)%nat).
Proof.
  induction fuel as [|fuel IH]; intros retries w w1;
    rewrite retry_loop_unfold;
    destruct (retries <=? MAX_RETRIES C)%nat;
    try (unfold ret; intros [= <-]; split; [lia | now left]);
    try (unfold out_of_fuel; discriminate).
  unfold bind at 1, try_catch.
  destruct (attempt_outcome E C u dep ps w) as (ls1 & wa & Hrun & _ & _ & _ & Hclk).
  destruct (attempt_effect E C u dep ps w)
    as (c & wa' & new & Hrun' & _ & _ & _ & _ & _ & Hc).
  rewrite Hrun in Hrun'. injection Hrun' as Hceq <-. rewrite Hrun.
  destruct (attempt_error E w u dep (attempts w)) as [e|].
  - subst c. destruct Hc as (_ & _ & Hres).
    destruct (MAX_RETRIES C <? S retries)%nat.
    + unfold bind at 1, addError, bind at 1, now_iso, bind at 1, now, bind, get,
        modify, ret. cbv beta iota.
      intros Hloop. apply IH in Hloop. simpl in Hloop. rewrite Hres in Hloop.
      destruct Hloop as [Hmono [Hsame | (p & Hp & Hl & Ht & Hc2)]].
      * split; [lia | left; exact Hsame].
      * split; [lia | right; exists p; repeat split; auto; lia].
    + unfold bind at 1, sleep, modify.
      intros Hloop. apply IH in Hloop. simpl in Hloop. rewrite Hres in Hloop.
      destruct Hloop as [Hmono [Hsame | (p & Hp & Hl & Ht & Hc2)]].
      * split; [lia | left; exact Hsame].
      * split; [lia | right; exists p; repeat split; auto; lia].
  - unfold ret. intros [= <-].
    destruct (attempt_times E C u dep ps w wa Hrun) as (p & Hres & Hl & Ht & Hclk2).
    split; [lia |]. right. exists p. rewrite Hres, Hclk2. simpl.
    rewrite Nat.sub_0_r. repeat split; auto. lia.
Qed.

(** X15.  The load time of a page is counted from the one clock reading
    [crawlPage] makes on entry, before the first attempt, to the last clock
    reading of the successful attempt: it spans the failed attempts and their
    backoff delays.  The timestamp is the reading just before the last.  If
    the clock never goes back, the load time is not negative. *)
Theorem loadTime_spans_all_attempts :
  forall (E : Env) (C : Config) (u : string) (dep : Z) (w : WebCrawler.t),
  exists w',
    crawlPage E C u dep w = (Normal tt, w')
    /\ (clock_reads w < clock_reads w')%nat
    /\ forall p,
         CrawlResult.pages (result w') = CrawlResult.pages (result w) ++ [p] ->
         loadTime p
         = Date_now E (clock_reads w' - 1) - Date_now E (clock_reads w)
         /\ timestamp p = toISOString E (Date_now E (clock_reads w' - 2))
         /\ (clock_reads w + 3 <= clock_reads w')%nat
         /\ ((forall n m, (n <= m)%nat -> Date_now E n <= Date_now E m) ->
             0 <= loadTime p).
Proof.
  intros E C u dep w.
  destruct (crawlPage_outcome E C u dep w) as (ls & w1 & Hrun & _ & _ & Hclk & _).
  exists w1. split; [exact Hrun |]. split; [exact Hclk |].
  intros p Hp.
  unfold crawlPage, bind at 1, now, bind, get, modify, ret in Hrun.
  cbv beta iota in Hrun.
  apply retry_loop_times in Hrun. simpl in Hrun.
  destruct Hrun as [_ [Hsame | (p' & Hp' & Hl & Ht & Hc2)]].
  - rewrite Hsame in Hp. apply (f_equal (@length _)) in Hp.
    rewrite length_app in Hp. simpl in Hp. lia.
  - rewrite Hp' in Hp. apply app_inv_head in Hp. injection Hp as ->.
    split; [exact Hl |]. split; [exact Ht |]. split; [lia |].
    intros Hmono. rewrite Hl.
    specialize (Hmono (clock_reads w) (clock_reads w1 - 1)%nat ltac:(lia)). lia.
Qed.

Example loadTime_after_two_failures :
  let E := Sample.env (Sample.flaky 2) in
  let w := WebCrawler.new E (Sample.options "http://site.test/A" (Int 2) (Int 50) "json") in
  let w' := snd (crawlPage E config "http://site.test/A" 0 w) in
  map loadTime (CrawlResult.pages (result w')) = [2000]
  /\ map timestamp (CrawlResult.pages (result w')) = ["T+2000"]
  /\ clock_reads w = 1%nat /\ clock_reads w' = 4%nat.
Proof. cbv zeta. repeat split; vm_compute; reflexivity. Qed.
